(** * PhotoSortr: the sorting session and its duplicate index

    A shallow embedding of [duplicate_detector.py], [state_manager.py],
    [folder_manager.py], [directory_scanner.py] and the [PhotoSorter]
    class of [sorter.py].

    Python objects are modelled as records, dicts with a fixed key set as
    records whose optional keys are [option] fields, the insertion-ordered
    dict of the hash database as an association list, exceptions as [None]
    (or an explicit outcome), and the file system as a finite map from
    path strings to nodes. *)

From Stdlib Require Import ZArith Lia.
From Stdlib.Strings Require Import Ascii String Byte.
From stdpp Require Import gmap strings list fin_maps pretty sorting.

Local Open Scope string_scope.
Local Open Scope Z_scope.

(** ** Paths ([os.path], POSIX flavour) *)

Module Path.

Definition is_sep (c : ascii) : bool := bool_decide (c = "/"%char).

Fixpoint has_sep (p : string) : bool :=
  match p with
  | EmptyString => false
  | String c r => is_sep c || has_sep r
  end.

(** [os.path.basename]: what follows the last separator. *)
Fixpoint basename (p : string) : string :=
  match p with
  | EmptyString => EmptyString
  | String c r =>
      if has_sep r then basename r
      else if is_sep c then r else p
  end.

(** [p[:p.rfind('/') + 1]]: everything up to and including the last
    separator. *)
Fixpoint head (p : string) : string :=
  match p with
  | EmptyString => EmptyString
  | String c r =>
      if has_sep r then String c (head r)
      else if is_sep c then "/" else EmptyString
  end.

Fixpoint rstrip_sep (p : string) : string :=
  match p with
  | EmptyString => EmptyString
  | String c r =>
      let r' := rstrip_sep r in
      if is_sep c && bool_decide (r' = EmptyString) then EmptyString
      else String c r'
  end.

(** [os.path.dirname]: the head without its trailing separators, unless
    the head consists of separators only. *)
Definition dirname (p : string) : string :=
  let h := head p in
  let h' := rstrip_sep h in
  if bool_decide (h' = EmptyString) then h else h'.

Fixpoint ends_with_sep (p : string) : bool :=
  match p with
  | EmptyString => false
  | String c EmptyString => is_sep c
  | String _ r => ends_with_sep r
  end.

Definition starts_with_sep (p : string) : bool :=
  match p with
  | String c _ => is_sep c
  | EmptyString => false
  end.

(** [os.path.join] of two components. *)
Definition join (a b : string) : string :=
  if starts_with_sep b then b
  else if bool_decide (a = EmptyString) || ends_with_sep a then a +:+ b
  else a +:+ "/" +:+ b.

(** Split at the last dot: [(before, from the dot on)]. *)
Fixpoint split_last_dot (s : string) : option (string * string) :=
  match s with
  | EmptyString => None
  | String c r =>
      match split_last_dot r with
      | Some (a, b) => Some (String c a, b)
      | None => if bool_decide (c = "."%char) then Some (EmptyString, s) else None
      end
  end.

Fixpoint all_dots (s : string) : bool :=
  match s with
  | EmptyString => true
  | String c r => bool_decide (c = "."%char) && all_dots r
  end.

(** [os.path.splitext]: the extension starts at the last dot of the last
    component, leading dots of that component not counting. *)
Definition splitext (p : string) : string * string :=
  match split_last_dot (basename p) with
  | Some (stem, ext) =>
      if all_dots stem then (p, EmptyString) else (head p +:+ stem, ext)
  | None => (p, EmptyString)
  end.

(** [p.startswith(q)] *)
Definition startswith (p q : string) : bool := String.prefix q p.

(** The rest of [p] after the prefix [q], when [p] starts with [q]. *)
Fixpoint strip_prefix (q p : string) : option string :=
  match q, p with
  | EmptyString, _ => Some p
  | String a q', String b p' =>
      if bool_decide (a = b) then strip_prefix q' p' else None
  | String _ _, EmptyString => None
  end.

(** [p] is [d] itself or lies below it. *)
Definition under (d p : string) : bool :=
  bool_decide (p = d) || bool_decide (is_Some (strip_prefix (d +:+ "/") p)).

(** The non-empty components of a path. *)
Fixpoint split_from (cur p : string) : list string :=
  match p with
  | EmptyString => if bool_decide (cur = "") then [] else [cur]
  | String c r =>
      if is_sep c then
        if bool_decide (cur = "") then split_from "" r else cur :: split_from "" r
      else split_from (cur +:+ String c EmptyString) r
  end.

Definition components (p : string) : list string := split_from "" p.

Fixpoint drop_common (a b : list string) : list string * list string :=
  match a, b with
  | x :: a', y :: b' => if bool_decide (x = y) then drop_common a' b' else (a, b)
  | _, _ => (a, b)
  end.

(** [os.path.relpath(path, start)] on absolute, normalised paths: one
    [..] for every component of [start] that [path] does not share,
    then the rest of [path]; [.] when nothing is left. *)
Definition relpath (path start : string) : string :=
  let '(s, p) := drop_common (components start) (components path) in
  match (replicate (length s) ".." ++ p)%list with
  | [] => "."
  | x :: xs => foldl join x xs
  end.

End Path.

(** ** The file system

    Paths are compared as strings (absolute, normalised paths); the root
    directory and the working directory are taken to exist. *)

Inductive node :=
  | File (content : list byte)
  | Dir.

Abbreviation FS := (gmap string node).

Module OS.

(** [os.path.exists] *)
Definition path_exists (fs : FS) (p : string) : bool :=
  match fs !! p with Some _ => true | None => false end.

(** [os.path.isdir] *)
Definition isdir (fs : FS) (p : string) : bool :=
  match fs !! p with Some Dir => true | _ => false end.

(** [open(p, 'rb').read()]; [None] stands for the [OSError] raised on a
    missing path or a directory. *)
Definition read (fs : FS) (p : string) : option (list byte) :=
  match fs !! p with Some (File c) => Some c | _ => None end.

(** The directory a new entry [p] would be created in exists. *)
Definition parent_ok (fs : FS) (p : string) : bool :=
  let d := Path.dirname p in
  bool_decide (d = "") || bool_decide (d = "/") || isdir fs d.

(** The directories [os.makedirs] visits, outermost first: every proper
    prefix of [p] that ends where a separator starts, then [p]. *)
Fixpoint ancestors_from (pre p : string) : list string :=
  match p with
  | EmptyString => if bool_decide (pre = "") then [] else [pre]
  | String c r =>
      if Path.is_sep c && negb (bool_decide (pre = "")) && negb (Path.ends_with_sep pre)
      then pre :: ancestors_from (pre +:+ "/") r
      else ancestors_from (pre +:+ String c EmptyString) r
  end.

Definition ancestors (p : string) : list string := ancestors_from "" p.

Definition mkdir_exist_ok (fs : FS) (d : string) : option FS :=
  match fs !! d with
  | Some Dir => Some fs
  | Some (File _) => None
  | None => Some (<[d := Dir]> fs)
  end.

(** [os.makedirs(p, exist_ok=True)]; [None] when a component is a file. *)
Definition makedirs (fs : FS) (p : string) : option FS :=
  foldl (λ acc d, acc ≫= λ fs', mkdir_exist_ok fs' d) (Some fs) (ancestors p).

(** Where an entry at [p] ends up when the tree at [src] becomes [dst]. *)
Definition reroot (src dst p : string) : string :=
  if bool_decide (p = src) then dst
  else match Path.strip_prefix (src +:+ "/") p with
       | Some rest => dst +:+ "/" +:+ rest
       | None => p
       end.

(** [os.rename(src, dst)] for an existing node [n] at [src]. A file
    replaces a file at [dst] and cannot replace a directory; a directory
    moves with all below it and needs [dst] free and outside itself. *)
Definition rename (fs : FS) (n : node) (src dst : string) : option FS :=
  if negb (parent_ok fs dst) then None
  else match n with
       | File c =>
           if isdir fs dst then None
           else Some (<[dst := File c]> (delete src fs))
       | Dir =>
           if path_exists fs dst || Path.under src dst then None
           else Some (kmap (reroot src dst) fs)
       end.

(** [shutil.move(src, dst)]: into [dst] when [dst] is a directory (an
    entry of the same name there is an error), onto [dst] otherwise.
    [None] stands for the exception. *)
Definition shutil_move (fs : FS) (src dst : string) : option FS :=
  match fs !! src with
  | None => None
  | Some n =>
      if isdir fs dst then
        if bool_decide (src = dst) then Some fs
        else
          let real_dst := Path.join dst (Path.basename src) in
          if path_exists fs real_dst then None else rename fs n src real_dst
      else rename fs n src dst
  end.

(** The names [os.listdir(d)] yields, in the map's own order. *)
Definition child_name (d p : string) : option string :=
  match Path.strip_prefix (d +:+ "/") p with
  | Some name =>
      if bool_decide (name = "") || Path.has_sep name then None else Some name
  | None => None
  end.

Definition listdir (fs : FS) (d : string) : list string :=
  omap (λ kv, child_name d kv.1) (map_to_list fs).

(** [os.path.isfile] *)
Definition isfile (fs : FS) (p : string) : bool :=
  match fs !! p with Some (File _) => true | _ => false end.

(** [shutil.rmtree(d)] on a directory: [d] goes with all below it. *)
Definition rmtree (fs : FS) (d : string) : FS :=
  filter (λ kv, Path.under d kv.1 = false) fs.

End OS.

(** ** Third-party libraries

    [hashlib], [PIL] and [imagehash] are not part of the repository; the
    code is verified against any implementation of the four operations it
    calls. [image_phash] is [str(imagehash.phash(Image.open(f)))] on the
    bytes of [f], [None] when that raises; [hex_to_hash] is [None] on the
    [ValueError] of a malformed code; [hash_distance] is the subtraction
    of two hashes of the one fixed width the data model has. *)

Class Env := {
  sha256 : list byte → string;
  PERCEPTUAL_HASH_AVAILABLE : bool;
  image_phash : list byte → option string;
  ImageHash : Type;
  hex_to_hash : string → option ImageHash;
  hash_distance : ImageHash → ImageHash → nat
}.

(** ** What the program prints and logs

    [PhashCall] is not output: it marks an evaluation of
    [compute_perceptual_hash] that reached the imaging library. *)

Inductive Level := INFO | WARNING | ERROR.

Inductive Event :=
  | Stdout (text : string)
  | Log (level : Level) (text : string)
  | PhashCall (path : string).

(** Python truth value of a [str] and of an [Optional[str]]. *)
Definition truthy (s : string) : bool := negb (bool_decide (s = "")).

Definition truthy_opt (o : option string) : bool :=
  match o with Some s => truthy s | None => false end.

(** ** duplicate_detector.py *)

(** One value of the [hashes] dict: [{'sha256': ..., 'phash': ...}]. *)
Record HashEntry := {
  entry_sha256 : string;
  entry_phash : option string
}.

(** [d[k] = v] on an insertion-ordered dict: an existing key keeps its
    place, a new key goes last. *)
Fixpoint dict_set {V} (k : string) (v : V) (d : list (string * V)) : list (string * V) :=
  match d with
  | [] => [(k, v)]
  | (k', v') :: r =>
      if bool_decide (k' = k) then (k, v) :: r else (k', v') :: dict_set k v r
  end.

(** [d.get(k)] *)
Fixpoint dict_get {V} (k : string) (d : list (string * V)) : option V :=
  match d with
  | [] => None
  | (k', v') :: r => if bool_decide (k' = k) then Some v' else dict_get k r
  end.

(** The [HashDatabase] object. [save] rewrites [image_hashes.json] from
    [hashes] and leaves the object as it is; the file is not modelled. *)
Record HashDatabase := {
  db_root_dir : string;
  hashes : list (string * HashEntry)
}.

Section DuplicateDetector.
Context `{E : Env}.

Definition rel_key (db : HashDatabase) (filepath : string) : string :=
  if Path.startswith filepath (db_root_dir db)
  then Path.relpath filepath (db_root_dir db)
  else filepath.

Definition add_hash (db : HashDatabase) (filepath sha : string) (phash : option string)
  : HashDatabase :=
  {| db_root_dir := db_root_dir db;
     hashes := dict_set (rel_key db filepath)
                 {| entry_sha256 := sha; entry_phash := phash |} (hashes db) |}.

Fixpoint first_with_sha256 (items : list (string * HashEntry)) (sha : string)
  : option string :=
  match items with
  | [] => None
  | (filepath, data) :: r =>
      if bool_decide (entry_sha256 data = sha) then Some filepath
      else first_with_sha256 r sha
  end.

Definition get_by_sha256 (db : HashDatabase) (sha : string) : option string :=
  first_with_sha256 (hashes db) sha.

(** One turn of the loop of [find_similar_by_phash] on the pair
    [(best_match, best_distance)]. *)
Definition scan_entry (search_hash : ImageHash) (best : option string * Z)
    (item : string * HashEntry) : option string * Z :=
  match entry_phash item.2 with
  | None => best
  | Some stored_phash =>
      if negb (truthy stored_phash) then best
      else match hex_to_hash stored_phash with
           | None => best
           | Some stored_hash =>
               let distance := Z.of_nat (hash_distance search_hash stored_hash) in
               if distance <? best.2 then (Some item.1, distance) else best
           end
  end.

Definition find_similar_by_phash (db : HashDatabase) (phash : string) (threshold : Z)
  : option (string * Z) :=
  if negb PERCEPTUAL_HASH_AVAILABLE then None
  else match hex_to_hash phash with
       | None => None
       | Some search_hash =>
           let '(best_match, best_distance) :=
             foldl (scan_entry search_hash) (None, threshold + 1) (hashes db) in
           if truthy_opt best_match && (best_distance <=? threshold)
           then match best_match with
                | Some m => Some (m, best_distance)
                | None => None
                end
           else None
       end.

(** [None] is the [IOError]. *)
Definition compute_file_hash (fs : FS) (filepath : string) : option string :=
  sha256 <$> OS.read fs filepath.

Definition compute_perceptual_hash (fs : FS) (filepath : string)
  : option string * list Event :=
  if negb PERCEPTUAL_HASH_AVAILABLE then (None, [])
  else match OS.read fs filepath ≫= image_phash with
       | Some h => (Some h, [PhashCall filepath])
       | None =>
           (None, [PhashCall filepath;
                   Stdout ("Warning: Could not compute perceptual hash for " +:+ filepath)])
       end.

Definition not_duplicate : bool * option string * option string := (false, None, None).

Definition is_duplicate (fs : FS) (filepath : string) (hash_db : HashDatabase)
    (threshold : Z) : (bool * option string * option string) * list Event :=
  match compute_file_hash fs filepath with
  | None => (not_duplicate, [])
  | Some sha =>
      let original := get_by_sha256 hash_db sha in
      if truthy_opt original then ((true, Some "exact", original), [])
      else if PERCEPTUAL_HASH_AVAILABLE then
        let '(phash, out) := compute_perceptual_hash fs filepath in
        match phash with
        | Some ph =>
            if truthy ph then
              match find_similar_by_phash hash_db ph threshold with
              | Some (original_file, _) =>
                  ((true, Some "similar", Some original_file), out)
              | None => (not_duplicate, out)
              end
            else (not_duplicate, out)
        | None => (not_duplicate, out)
        end
      else (not_duplicate, [])
  end.

Definition add_to_hash_db (fs : FS) (filepath : string) (hash_db : HashDatabase)
  : HashDatabase * list Event :=
  match compute_file_hash fs filepath with
  | None => (hash_db, [Stdout "Warning: Could not add file to hash database"])
  | Some sha =>
      let '(phash, out) :=
        if PERCEPTUAL_HASH_AVAILABLE then compute_perceptual_hash fs filepath
        else (None, []) in
      (add_hash hash_db filepath sha phash, out)
  end.

End DuplicateDetector.

(** ** state_manager.py *)

Inductive ActionKind := Moved | Deleted.

(** An entry of [action_history]:
    [{'action': ..., 'old_path': ..., 'new_path': ...}]. *)
Record Action := {
  action : ActionKind;
  old_path : string;
  new_path : string
}.

Global Instance ActionKind_eq_dec : EqDecision ActionKind.
Proof. solve_decision. Defined.
Global Instance Action_eq_dec : EqDecision Action.
Proof. solve_decision. Defined.

(** The state dict. The five numbers are present in every dict
    [load_state] returns; the two lists are keys the module tests with
    [in], so they may be absent. *)
Record State := {
  last_index : Z;
  state_sorted_count : Z;
  state_skipped_count : Z;
  state_deleted_count : Z;
  state_duplicate_count : Z;
  skipped_files : option (list string);
  action_history : option (list Action)
}.

(** A JSON object read from [state.json]: any key may be missing. *)
Record StoredState := {
  stored_last_index : option Z;
  stored_sorted_count : option Z;
  stored_skipped_count : option Z;
  stored_deleted_count : option Z;
  stored_duplicate_count : option Z;
  stored_skipped_files : option (list string);
  stored_action_history : option (list Action)
}.

Inductive Exn := JSONDecodeError | IOError | OtherError.

Inductive Result (A : Type) :=
  | Ok (a : A)
  | Raise (e : Exn).
Arguments Ok {A} a.
Arguments Raise {A} e.

(** What [os.path.exists(state_file)] and then [open] and [json.load]
    do: the file is absent, or reading it yields an object or raises. *)
Inductive StateFile :=
  | NoFile
  | Reads (r : Result StoredState).

Module StateManager.

Definition default_state : State :=
  {| last_index := 0; state_sorted_count := 0; state_skipped_count := 0;
     state_deleted_count := 0; state_duplicate_count := 0;
     skipped_files := Some []; action_history := Some [] |}.

(** The dict of the [except] branch: it has no ['action_history']. *)
Definition fresh_state : State :=
  {| last_index := 0; state_sorted_count := 0; state_skipped_count := 0;
     state_deleted_count := 0; state_duplicate_count := 0;
     skipped_files := Some []; action_history := None |}.

(** The loop that gives every missing key its default. *)
Definition fill_defaults (s : StoredState) : State :=
  {| last_index := default 0 (stored_last_index s);
     state_sorted_count := default 0 (stored_sorted_count s);
     state_skipped_count := default 0 (stored_skipped_count s);
     state_deleted_count := default 0 (stored_deleted_count s);
     state_duplicate_count := default 0 (stored_duplicate_count s);
     skipped_files := Some (default [] (stored_skipped_files s));
     action_history := Some (default [] (stored_action_history s)) |}.

Definition load_state (f : StateFile) : Result State * list Event :=
  match f with
  | NoFile => (Ok default_state, [])
  | Reads (Ok s) => (Ok (fill_defaults s), [])
  | Reads (Raise JSONDecodeError) | Reads (Raise IOError) =>
      (Ok fresh_state,
       [Stdout "Warning: Could not load state file"; Stdout "Starting fresh..."])
  | Reads (Raise OtherError) => (Raise OtherError, [])
  end.

(** [json.dump(state, f)]: the object written has the keys the dict has. *)
Definition dump (s : State) : StoredState :=
  {| stored_last_index := Some (last_index s);
     stored_sorted_count := Some (state_sorted_count s);
     stored_skipped_count := Some (state_skipped_count s);
     stored_deleted_count := Some (state_deleted_count s);
     stored_duplicate_count := Some (state_duplicate_count s);
     stored_skipped_files := skipped_files s;
     stored_action_history := action_history s |}.

Definition save_state (s : State) : StateFile := Reads (Ok (dump s)).

Definition set_skipped_files (l : option (list string)) (s : State) : State :=
  {| last_index := last_index s; state_sorted_count := state_sorted_count s;
     state_skipped_count := state_skipped_count s;
     state_deleted_count := state_deleted_count s;
     state_duplicate_count := state_duplicate_count s;
     skipped_files := l; action_history := action_history s |}.

Definition set_action_history (h : option (list Action)) (s : State) : State :=
  {| last_index := last_index s; state_sorted_count := state_sorted_count s;
     state_skipped_count := state_skipped_count s;
     state_deleted_count := state_deleted_count s;
     state_duplicate_count := state_duplicate_count s;
     skipped_files := skipped_files s; action_history := h |}.

Definition add_skipped_file (s : State) (filepath : string) : State :=
  let l := default [] (skipped_files s) in
  set_skipped_files
    (Some (if bool_decide (filepath ∈ l) then l else l ++ [filepath])%list) s.

Definition add_action_to_history (s : State) (a : Action) : State :=
  let h := default [] (action_history s) in
  set_action_history (Some (if bool_decide (a ∈ h) then h else h ++ [a])%list) s.

(** Returns the state as well: an absent key is set to [[]]. *)
Definition get_last_action (s : State) : State * option Action :=
  match action_history s with
  | None => (set_action_history (Some []) s, None)
  | Some h => (s, last h)
  end.

Definition pop_last_action (s : State) : State :=
  match action_history s with
  | None => set_action_history (Some []) s
  | Some [] => s
  | Some h => set_action_history (Some (removelast h)) s
  end.

End StateManager.

(** ** folder_manager.py *)

Module FolderManager.

Definition is_space (c : ascii) : bool :=
  bool_decide (c ∈ [" "; "009"; "010"; "011"; "012"; "013"; "028"; "029"; "030"; "031"]%char).

Fixpoint lstrip (s : string) : string :=
  match s with
  | EmptyString => EmptyString
  | String c r => if is_space c then lstrip r else s
  end.

Fixpoint rstrip (s : string) : string :=
  match s with
  | EmptyString => EmptyString
  | String c r =>
      let r' := rstrip r in
      if is_space c && bool_decide (r' = "") then EmptyString else String c r'
  end.

(** [str.strip()] *)
Definition strip (s : string) : string := rstrip (lstrip s).

Fixpoint contains_char (c : ascii) (s : string) : bool :=
  match s with
  | EmptyString => false
  | String c' r => bool_decide (c' = c) || contains_char c r
  end.

Definition invalid_chars : list ascii :=
  ["/"; "\"; ":"; "*"; "?"; "034"; "<"; ">"; "|"]%char.

Definition hidden (name : string) : bool := Path.startswith name ".".

Definition list_event_folders (fs : FS) (year_dir : string) : list string :=
  if negb (OS.path_exists fs year_dir) then []
  else if negb (OS.isdir fs year_dir) then []
  else filter (λ item, negb (hidden item) && OS.isdir fs (Path.join year_dir item) = true)
              (OS.listdir fs year_dir).

(** [None] is the [ValueError], [FileExistsError] or [OSError]. *)
Definition create_event_folder (fs : FS) (year_dir name : string)
  : option (FS * string) :=
  if negb (truthy name) || bool_decide (strip name = "") then None
  else
    let name := strip name in
    if existsb (λ c, contains_char c name) invalid_chars then None
    else
      let folder_path := Path.join year_dir name in
      if OS.path_exists fs folder_path then None
      else (λ fs', (fs', folder_path)) <$> OS.makedirs fs folder_path.

(** The [while os.path.exists(dest_path)] loop, entered with [counter]:
    the first [base_counter ext] name that is free. Each turn tries a
    new name, so a free one is reached within [size fs + 1] turns, the
    bound the loop is unrolled to. *)
Fixpoint free_dest_path (turns : nat) (fs : FS) (dest_folder base ext : string)
    (counter : nat) : option string :=
  match turns with
  | O => None
  | S turns' =>
      let dest_path := Path.join dest_folder (base +:+ "_" +:+ pretty counter +:+ ext) in
      if OS.path_exists fs dest_path
      then free_dest_path turns' fs dest_folder base ext (S counter)
      else Some dest_path
  end.

(** [None] is the [FileNotFoundError], [ValueError] or the error of
    [shutil.move]. *)
Definition move_photo (fs : FS) (src dest_folder : string) : option (FS * string) :=
  if negb (OS.path_exists fs src) then None
  else if negb (OS.path_exists fs dest_folder) then None
  else if negb (OS.isdir fs dest_folder) then None
  else
    let filename := Path.basename src in
    let dest_path := Path.join dest_folder filename in
    let final :=
      if OS.path_exists fs dest_path then
        let '(base, ext) := Path.splitext filename in
        free_dest_path (S (size fs)) fs dest_folder base ext 1
      else Some dest_path in
    final ≫= λ dest_path, (λ fs', (fs', dest_path)) <$> OS.shutil_move fs src dest_path.

End FolderManager.

(** ** sorter.py

    A [Session] is the [PhotoSorter] object together with what it acts
    on: the file system, the persisted [state.json] and the terminal. *)

Record Session := {
  root_dir : string;
  trash_dir : string;
  images : list string;
  current_index : Z;
  sorted_count : Z;
  skipped_count : Z;
  deleted_count : Z;
  duplicate_count : Z;
  state : State;
  auto_move_duplicates : bool;
  duplicate_threshold : Z;
  hash_db : HashDatabase;
  fs : FS;
  state_file : StateFile;
  console : list Event
}.

(** Field updates, [self.x = v]. *)
Definition set_current_index (v : Z) (w : Session) : Session :=
  {| root_dir := root_dir w; trash_dir := trash_dir w; images := images w;
     current_index := v; sorted_count := sorted_count w;
     skipped_count := skipped_count w; deleted_count := deleted_count w;
     duplicate_count := duplicate_count w; state := state w;
     auto_move_duplicates := auto_move_duplicates w;
     duplicate_threshold := duplicate_threshold w; hash_db := hash_db w;
     fs := fs w; state_file := state_file w; console := console w |}.

Definition set_sorted_count (v : Z) (w : Session) : Session :=
  {| root_dir := root_dir w; trash_dir := trash_dir w; images := images w;
     current_index := current_index w; sorted_count := v;
     skipped_count := skipped_count w; deleted_count := deleted_count w;
     duplicate_count := duplicate_count w; state := state w;
     auto_move_duplicates := auto_move_duplicates w;
     duplicate_threshold := duplicate_threshold w; hash_db := hash_db w;
     fs := fs w; state_file := state_file w; console := console w |}.

Definition set_skipped_count (v : Z) (w : Session) : Session :=
  {| root_dir := root_dir w; trash_dir := trash_dir w; images := images w;
     current_index := current_index w; sorted_count := sorted_count w;
     skipped_count := v; deleted_count := deleted_count w;
     duplicate_count := duplicate_count w; state := state w;
     auto_move_duplicates := auto_move_duplicates w;
     duplicate_threshold := duplicate_threshold w; hash_db := hash_db w;
     fs := fs w; state_file := state_file w; console := console w |}.

Definition set_deleted_count (v : Z) (w : Session) : Session :=
  {| root_dir := root_dir w; trash_dir := trash_dir w; images := images w;
     current_index := current_index w; sorted_count := sorted_count w;
     skipped_count := skipped_count w; deleted_count := v;
     duplicate_count := duplicate_count w; state := state w;
     auto_move_duplicates := auto_move_duplicates w;
     duplicate_threshold := duplicate_threshold w; hash_db := hash_db w;
     fs := fs w; state_file := state_file w; console := console w |}.

Definition set_duplicate_count (v : Z) (w : Session) : Session :=
  {| root_dir := root_dir w; trash_dir := trash_dir w; images := images w;
     current_index := current_index w; sorted_count := sorted_count w;
     skipped_count := skipped_count w; deleted_count := deleted_count w;
     duplicate_count := v; state := state w;
     auto_move_duplicates := auto_move_duplicates w;
     duplicate_threshold := duplicate_threshold w; hash_db := hash_db w;
     fs := fs w; state_file := state_file w; console := console w |}.

Definition set_state (v : State) (w : Session) : Session :=
  {| root_dir := root_dir w; trash_dir := trash_dir w; images := images w;
     current_index := current_index w; sorted_count := sorted_count w;
     skipped_count := skipped_count w; deleted_count := deleted_count w;
     duplicate_count := duplicate_count w; state := v;
     auto_move_duplicates := auto_move_duplicates w;
     duplicate_threshold := duplicate_threshold w; hash_db := hash_db w;
     fs := fs w; state_file := state_file w; console := console w |}.

Definition set_hash_db (v : HashDatabase) (w : Session) : Session :=
  {| root_dir := root_dir w; trash_dir := trash_dir w; images := images w;
     current_index := current_index w; sorted_count := sorted_count w;
     skipped_count := skipped_count w; deleted_count := deleted_count w;
     duplicate_count := duplicate_count w; state := state w;
     auto_move_duplicates := auto_move_duplicates w;
     duplicate_threshold := duplicate_threshold w; hash_db := v; fs := fs w;
     state_file := state_file w; console := console w |}.

Definition set_fs (v : FS) (w : Session) : Session :=
  {| root_dir := root_dir w; trash_dir := trash_dir w; images := images w;
     current_index := current_index w; sorted_count := sorted_count w;
     skipped_count := skipped_count w; deleted_count := deleted_count w;
     duplicate_count := duplicate_count w; state := state w;
     auto_move_duplicates := auto_move_duplicates w;
     duplicate_threshold := duplicate_threshold w; hash_db := hash_db w;
     fs := v; state_file := state_file w; console := console w |}.

Definition set_state_file (v : StateFile) (w : Session) : Session :=
  {| root_dir := root_dir w; trash_dir := trash_dir w; images := images w;
     current_index := current_index w; sorted_count := sorted_count w;
     skipped_count := skipped_count w; deleted_count := deleted_count w;
     duplicate_count := duplicate_count w; state := state w;
     auto_move_duplicates := auto_move_duplicates w;
     duplicate_threshold := duplicate_threshold w; hash_db := hash_db w;
     fs := fs w; state_file := v; console := console w |}.

Definition set_console (v : list Event) (w : Session) : Session :=
  {| root_dir := root_dir w; trash_dir := trash_dir w; images := images w;
     current_index := current_index w; sorted_count := sorted_count w;
     skipped_count := skipped_count w; deleted_count := deleted_count w;
     duplicate_count := duplicate_count w; state := state w;
     auto_move_duplicates := auto_move_duplicates w;
     duplicate_threshold := duplicate_threshold w; hash_db := hash_db w;
     fs := fs w; state_file := state_file w; console := v |}.

Definition emit (out : list Event) (w : Session) : Session :=
  set_console (console w ++ out) w.

(** [seq[i]] with Python's negative indices; [None] is the [IndexError]. *)
Definition py_index {A} (l : list A) (i : Z) : option A :=
  if 0 <=? i then l !! Z.to_nat i
  else if 0 <=? Z.of_nat (length l) + i then l !! Z.to_nat (Z.of_nat (length l) + i)
  else None.

(** What the user and the desktop answer during one turn of the loop;
    an answer the turn does not ask for is ignored. *)
Record Interaction := {
  viewer_opens : bool;
  keypress : ascii;
  folder_name_typed : string;
  confirm_keypress : ascii
}.

(** [str.upper] on an ASCII character. *)
Definition upper (c : ascii) : ascii :=
  let n := nat_of_ascii c in
  if (97 <=? n)%nat && (n <=? 122)%nat then ascii_of_nat (n - 32) else c.

Definition isdigit (c : ascii) : bool :=
  let n := nat_of_ascii c in (48 <=? n)%nat && (n <=? 57)%nat.

(** [int(choice)] of a digit. *)
Definition int_of_digit (c : ascii) : Z := Z.of_nat (nat_of_ascii c) - 48.

Module CliUi.

(** [None] is the [KeyboardInterrupt] of Ctrl+C. *)
Definition get_keypress (i : Interaction) : option ascii :=
  if bool_decide (keypress i = "003"%char) then None else Some (upper (keypress i)).

Definition prompt_new_folder_name (i : Interaction) : option string :=
  let name := FolderManager.strip (folder_name_typed i) in
  if negb (truthy name) then None else Some name.

Definition prompt_confirmation (i : Interaction) : bool :=
  bool_decide (upper (confirm_keypress i) = "Y"%char).

End CliUi.

Inductive ActionResult := moved | skipped | deleted | duplicate | retry | quit.

(** How one turn of [_sorting_loop] went. *)
Inductive Step :=
  | Vanished
  | AutoDuplicate
  | ViewerFailure
  | Chose (r : ActionResult)
  | ChoiceError
  | Interrupted
  | Crashed.

Section Sorter.
Context `{E : Env}.

Definition save_state (w : Session) : Session :=
  let st :=
    {| last_index := current_index w;
       state_sorted_count := sorted_count w;
       state_skipped_count := skipped_count w;
       state_deleted_count := deleted_count w;
       state_duplicate_count := duplicate_count w;
       skipped_files := skipped_files (state w);
       action_history := action_history (state w) |} in
  set_state_file (StateManager.save_state st) (set_state st w).

(** [None]: [os.makedirs] raised, before anything was moved. *)
Definition _handle_duplicate (w : Session) (photo_path dup_type : string)
    (original_file : option string) : option Session :=
  let duplicates_folder := Path.join (root_dir w) "Duplicates" in
  let made :=
    if negb (OS.path_exists (fs w) duplicates_folder)
    then OS.makedirs (fs w) duplicates_folder else Some (fs w) in
  match made with
  | None => None
  | Some fs1 =>
      match FolderManager.move_photo fs1 photo_path duplicates_folder with
      | Some (fs2, _) =>
          Some (emit
            (Stdout ("Moved to Duplicates folder (" +:+ dup_type +:+ ")") ::
             match original_file with
             | Some o =>
                 if truthy o then
                   [Stdout ("Original: " +:+ Path.basename o);
                    Log INFO ("DUPLICATE (" +:+ dup_type +:+ "): " +:+
                              Path.basename photo_path +:+ " -> Duplicates (original: "
                              +:+ Path.basename o +:+ ")")]
                 else [Log INFO ("DUPLICATE (" +:+ dup_type +:+ "): " +:+
                                 Path.basename photo_path +:+ " -> Duplicates")]
             | None => [Log INFO ("DUPLICATE (" +:+ dup_type +:+ "): " +:+
                                  Path.basename photo_path +:+ " -> Duplicates")]
             end)
            (set_fs fs2 w))
      | None =>
          Some (emit [Stdout "Error moving duplicate";
                      Log ERROR ("Error moving duplicate " +:+ photo_path)]
                     (set_fs fs1 w))
      end
  end.

Definition _move_to_trash (w : Session) (photo_path : string) : Session :=
  match OS.shutil_move (fs w) photo_path (trash_dir w) with
  | Some fs' =>
      emit [Stdout ("Moved to trash: " +:+ photo_path);
            Log INFO ("MOVED TO TRASH: " +:+ photo_path)] (set_fs fs' w)
  | None =>
      emit [Stdout "Error moving to trash";
            Log ERROR ("Error moving " +:+ photo_path +:+ " to trash")] w
  end.

(** [os.listdir] raises on a path that is not a directory, and
    [os.makedirs] when a component of the path is a file; both land in
    the handler. The texts are given without their pictograms and
    without the text of the exception. *)
Definition _empty_trash (w : Session) : Session :=
  if negb (OS.path_exists (fs w) (trash_dir w)) then w
  else if negb (OS.isdir (fs w) (trash_dir w)) then
    emit [Stdout "Error emptying trash"; Log ERROR "Failed to empty trash"] w
  else
    let files := OS.listdir (fs w) (trash_dir w) in
    let file_count := length files in
    if bool_decide (file_count = 0%nat) then w
    else
      let w1 := emit [Stdout ("Permanently deleting " +:+ pretty file_count
                              +:+ " photo(s) from trash...");
                      Log INFO ("Emptying trash: " +:+ pretty file_count +:+ " files")] w in
      let fs1 := OS.rmtree (fs w1) (trash_dir w1) in
      match OS.makedirs fs1 (trash_dir w1) with
      | Some fs2 =>
          emit [Stdout "Trash emptied"; Log INFO "Trash emptied successfully"]
               (set_fs fs2 w1)
      | None =>
          emit [Stdout "Error emptying trash"; Log ERROR "Failed to empty trash"]
               (set_fs fs1 w1)
      end.

Definition record_action (a : Action) (w : Session) : Session :=
  set_state (StateManager.add_action_to_history (state w) a) w.

(** The two branches of [_undo_last_action] differ in the counter they
    decrement and in what they print. *)
Definition undo_branch (w : Session) (a : Action) : Session :=
  if OS.path_exists (fs w) (new_path a) then
    match OS.shutil_move (fs w) (new_path a) (old_path a) with
    | Some fs' =>
        let w1 := set_fs fs' w in
        let w2 := match action a with
                  | Moved => set_sorted_count (sorted_count w1 - 1) w1
                  | Deleted => set_deleted_count (deleted_count w1 - 1) w1
                  end in
        let w3 := set_current_index (current_index w2 - 1) w2 in
        let w4 := set_state (StateManager.pop_last_action (state w3)) w3 in
        emit match action a with
             | Moved =>
                 [Stdout ("Undone: Restored " +:+ Path.basename (old_path a)
                         +:+ " to original location");
                  Log INFO ("UNDO MOVE: " +:+ new_path a +:+ " -> " +:+ old_path a)]
             | Deleted =>
                 [Stdout ("Undone: Restored " +:+ Path.basename (old_path a)
                         +:+ " from trash");
                  Log INFO ("UNDO DELETE: " +:+ new_path a +:+ " -> " +:+ old_path a)]
             end (save_state w4)
    | None => emit [Stdout "Error undoing action"; Log ERROR "UNDO FAILED"] w
    end
  else
    emit [Stdout match action a with
                | Moved => "Cannot undo: File not found at " +:+ new_path a
                | Deleted => "Cannot undo: File not found in trash"
                end;
          Log WARNING ("UNDO FAILED: File not found at " +:+ new_path a)] w.

Definition _undo_last_action (w : Session) : Session :=
  match action_history (state w) with
  | None | Some [] =>
      emit [Stdout "No actions to undo.";
            Log INFO "Undo attempted but no actions in history"] w
  | Some (_ :: _) =>
      let '(st, last_action) := StateManager.get_last_action (state w) in
      match last_action with
      | Some a => undo_branch (set_state st w) a
      | None => emit [Stdout "Error undoing action"; Log ERROR "UNDO FAILED"] (set_state st w)
      end
  end.

Definition retry_after (out : list Event) (w : Session) : Session * ActionResult :=
  (emit (out ++ [Stdout "Press any key to continue..."]) w, retry).

(** The digit branches and the [N] branch share the move and its
    bookkeeping. *)
Definition move_and_record (w : Session) (photo_path dest_folder : string)
    (ok failed : list Event) : Session * ActionResult :=
  match FolderManager.move_photo (fs w) photo_path dest_folder with
  | Some (fs', new_path) =>
      let a := {| action := Moved; old_path := photo_path; new_path := new_path |} in
      (emit ok (record_action a (set_fs fs' w)), moved)
  | None => retry_after failed w
  end.

Definition _handle_choice (i : Interaction) (w : Session) (choice : ascii)
    (photo_path : string) (event_folders : list string) : Session * ActionResult :=
  if isdigit choice then
    let folder_index := int_of_digit choice - 1 in
    if (0 <=? folder_index) && (folder_index <? Z.of_nat (length event_folders)) then
      match event_folders !! Z.to_nat folder_index with
      | Some folder_name =>
          move_and_record w photo_path (Path.join (root_dir w) folder_name)
            [Stdout ("Moved to: " +:+ folder_name);
             Log INFO ("MOVED: " +:+ Path.basename photo_path +:+ " -> " +:+ folder_name)]
            [Stdout "Error moving photo";
             Log ERROR ("Error moving " +:+ photo_path +:+ " to " +:+ folder_name)]
      | None => (w, retry)
      end
    else (emit [Stdout "Invalid folder number. Press any key to retry..."] w, retry)
  else if bool_decide (choice = "N"%char) then
    match CliUi.prompt_new_folder_name i with
    | Some folder_name =>
        match FolderManager.create_event_folder (fs w) (root_dir w) folder_name with
        | Some (fs1, dest_folder) =>
            move_and_record (set_fs fs1 w) photo_path dest_folder
              [Stdout ("Created folder '" +:+ folder_name +:+ "' and moved photo.");
               Log INFO ("CREATED FOLDER: " +:+ folder_name);
               Log INFO ("MOVED: " +:+ Path.basename photo_path +:+ " -> " +:+ folder_name)]
              [Stdout "Error";
               Log ERROR ("Error creating folder '" +:+ folder_name +:+ "' or moving photo")]
        | None =>
            retry_after
              [Stdout "Error";
               Log ERROR ("Error creating folder '" +:+ folder_name +:+ "' or moving photo")] w
        end
    | None => (w, retry)
    end
  else if bool_decide (choice = "S"%char) then
    (emit [Stdout "Skipped."; Log INFO ("SKIPPED: " +:+ Path.basename photo_path)] w, skipped)
  else if bool_decide (choice = "U"%char) then (w, duplicate)
  else if bool_decide (choice = "D"%char) then
    if CliUi.prompt_confirmation i then
      let w1 := _move_to_trash w photo_path in
      let trash_file_path := Path.join (trash_dir w) (Path.basename photo_path) in
      let a := {| action := Deleted; old_path := photo_path; new_path := trash_file_path |} in
      (emit [Stdout "Photo deleted."; Log WARNING ("DELETED: " +:+ photo_path)]
            (record_action a w1), deleted)
    else (emit [Stdout "Deletion cancelled."] w, retry)
  else if bool_decide (choice = "Z"%char) then
    (emit [Stdout "Last action undone."; Log INFO "UNDO: Last action undone"]
          (_undo_last_action (emit [Stdout "Undoing last action..."] w)), retry)
  else if bool_decide (choice = "Q"%char) then (emit [Stdout "Quitting..."] w, quit)
  else (emit [Stdout "Invalid choice. Press any key to retry..."] w, retry).

Definition advance (w : Session) : Session :=
  set_current_index (current_index w + 1) w.

(** From [os_viewer.open_image] to the end of the loop body. *)
Definition present (i : Interaction) (w : Session) (photo_path : string)
  : Session * Step :=
  if negb (OS.path_exists (fs w) photo_path) then
    (advance (emit [Log ERROR ("File not found when trying to open: " +:+ photo_path);
                    Stdout "Error: File not found"; Stdout "Skipping to next image..."] w),
     ViewerFailure)
  else if negb (viewer_opens i) then
    (advance (emit [Log ERROR ("Error opening image " +:+ photo_path);
                    Stdout "Error opening image"; Stdout "Skipping to next image..."] w),
     ViewerFailure)
  else
    let event_folders := FolderManager.list_event_folders (fs w) (root_dir w) in
    match CliUi.get_keypress i with
    | None => (w, Interrupted)
    | Some choice =>
        let '(w1, action_result) := _handle_choice i w choice photo_path event_folders in
        match action_result with
        | quit => (save_state w1, Chose quit)
        | moved =>
            let '(db, out) := add_to_hash_db (fs w1) photo_path (hash_db w1) in
            let w2 := emit out (set_hash_db db w1) in
            (save_state (advance (set_sorted_count (sorted_count w2 + 1) w2)), Chose moved)
        | skipped =>
            let w2 := set_skipped_count (skipped_count w1 + 1) w1 in
            let w3 := set_state (StateManager.add_skipped_file (state w2) photo_path) w2 in
            (save_state (advance w3), Chose skipped)
        | deleted =>
            (save_state (advance (set_deleted_count (deleted_count w1 + 1) w1)),
             Chose deleted)
        | duplicate =>
            match _handle_duplicate w1 photo_path "manual" None with
            | Some w2 =>
                (save_state (advance (set_duplicate_count (duplicate_count w2 + 1) w2)),
                 Chose duplicate)
            | None =>
                (emit [Stdout "Error processing choice";
                       Stdout "Press any key to continue..."] w1, ChoiceError)
            end
        | retry => (w1, Chose retry)
        end
    end.

(** One turn of the [while] loop, entered with
    [current_index < len(images)]. *)
Definition iteration (i : Interaction) (w : Session) : Session * Step :=
  match py_index (images w) (current_index w) with
  | None => (w, Crashed)
  | Some photo_path =>
      if negb (OS.path_exists (fs w) photo_path) then
        (advance (emit [Log WARNING ("File no longer exists: " +:+ photo_path)] w),
         Vanished)
      else
        let '((is_dup, dup_type, original_file), out) :=
          is_duplicate (fs w) photo_path (hash_db w) (duplicate_threshold w) in
        let w1 := emit out w in
        if is_dup then
          if auto_move_duplicates w1 then
            match _handle_duplicate w1 photo_path (default "" dup_type) original_file with
            | Some w2 =>
                (save_state (advance (set_duplicate_count (duplicate_count w2 + 1) w2)),
                 AutoDuplicate)
            | None =>
                present i
                  (emit [Log ERROR ("Error checking for duplicates on " +:+ photo_path)] w1)
                  photo_path
            end
          else
            present i
              (emit [Stdout ("DUPLICATE DETECTED (" +:+ default "" dup_type +:+ ")");
                     Stdout ("Original: " +:+ default "" original_file)] w1)
              photo_path
        else present i w1 photo_path
  end.

(** The loop ends on quit and on an exception that leaves it. *)
Definition leaves_loop (s : Step) : bool :=
  match s with
  | Chose quit | Interrupted | Crashed => true
  | _ => false
  end.

(** [_sorting_loop] against the answers [inputs], one per turn; it
    returns when the images or the answers are used up, with the turns
    it took. *)
Fixpoint _sorting_loop (inputs : list Interaction) (w : Session)
  : Session * list Step :=
  if current_index w <? Z.of_nat (length (images w)) then
    match inputs with
    | [] => (w, [])
    | i :: rest =>
        let '(w1, s) := iteration i w in
        if leaves_loop s then (w1, [s])
        else let '(w2, steps) := _sorting_loop rest w1 in (w2, s :: steps)
    end
  else (w, []).

(** [PhotoSorter.__init__], then [load_images], [load_state] and
    [load_hash_database] on an empty cache. *)
Definition new_session (root : string) (auto : bool) (threshold : Z)
    (scanned : list string) (disk : FS) (f : StateFile) : Result Session :=
  match (StateManager.load_state f).1 with
  | Raise e => Raise e
  | Ok st =>
      Ok {| root_dir := root; trash_dir := Path.join root ".trash";
            images := scanned;
            current_index := last_index st;
            sorted_count := state_sorted_count st;
            skipped_count := state_skipped_count st;
            deleted_count := state_deleted_count st;
            duplicate_count := state_duplicate_count st;
            state := st; auto_move_duplicates := auto;
            duplicate_threshold := threshold;
            hash_db := {| db_root_dir := root; hashes := [] |};
            fs := disk; state_file := f;
            console := (StateManager.load_state f).2 |}
  end.

End Sorter.

(** ** A concrete environment and concrete sessions

    The instance below stands in for the libraries where a property is
    run on explicit data: the digest is the content itself written as a
    string (so equal digests mean equal bytes), a perceptual code is read
    as four bits per hexadecimal digit, the distance counts the positions
    where two codes differ, and the perceptual code of a file is the
    hexadecimal form of its first eight bytes. *)

Module Demo.

Definition hex_value (c : ascii) : option nat :=
  let n := nat_of_ascii c in
  if (48 <=? n)%nat && (n <=? 57)%nat then Some (n - 48)%nat
  else if (97 <=? n)%nat && (n <=? 102)%nat then Some (n - 87)%nat
  else if (65 <=? n)%nat && (n <=? 70)%nat then Some (n - 55)%nat
  else None.

Definition nibble (n : nat) : list bool :=
  [Nat.testbit n 3; Nat.testbit n 2; Nat.testbit n 1; Nat.testbit n 0].

Fixpoint bits_of_hex (s : string) : option (list bool) :=
  match s with
  | EmptyString => Some []
  | String c r =>
      v ← hex_value c; bs ← bits_of_hex r; Some (nibble v ++ bs)%list
  end.

Fixpoint hamming (a b : list bool) : nat :=
  match a, b with
  | x :: a', y :: b' => ((if Bool.eqb x y then 0 else 1) + hamming a' b')%nat
  | _, _ => 0%nat
  end.

Definition hex_digit (n : nat) : ascii :=
  if (n <? 10)%nat then ascii_of_nat (48 + n) else ascii_of_nat (87 + n).

Fixpoint hex_of_bytes (bs : list byte) : string :=
  match bs with
  | [] => EmptyString
  | b :: r =>
      let n := Byte.to_nat b in
      String (hex_digit (n / 16)) (String (hex_digit (n mod 16)) (hex_of_bytes r))
  end.

Definition first_eight (c : list byte) : list byte :=
  take 8 (c ++ replicate 8 Byte.x00)%list.

Global Instance env : Env := {|
  sha256 := string_of_list_byte;
  PERCEPTUAL_HASH_AVAILABLE := true;
  image_phash := λ c, Some (hex_of_bytes (first_eight c));
  ImageHash := list bool;
  hex_to_hash := λ s, if bool_decide (s = "") then None else bits_of_hex s;
  hash_distance := hamming
|}.

Definition jpeg : list byte := [Byte.xff; Byte.xd8; Byte.xff; Byte.xe0; Byte.x01].

(** Two photos with identical bytes in [/r], and an answer sheet: the
    first photo goes to a new folder [Vacation], then the user skips. *)
Definition twins_disk : FS :=
  {[ "/r" := Dir; "/r/a.jpg" := File jpeg; "/r/b.jpg" := File jpeg ]}.

Definition answer (k : ascii) (name : string) : Interaction :=
  {| viewer_opens := true; keypress := k; folder_name_typed := name;
     confirm_keypress := "y"%char |}.

Definition start (scanned : list string) (disk : FS) : Session :=
  {| root_dir := "/r"; trash_dir := "/r/.trash"; images := scanned;
     current_index := 0; sorted_count := 0; skipped_count := 0;
     deleted_count := 0; duplicate_count := 0;
     state := StateManager.default_state; auto_move_duplicates := true;
     duplicate_threshold := 5;
     hash_db := {| db_root_dir := "/r"; hashes := [] |};
     fs := disk; state_file := NoFile; console := [] |}.

Definition twins : Session := start ["/r/a.jpg"; "/r/b.jpg"] twins_disk.

End Demo.

(** The action history as the program reads it: an absent key is an
    empty history ([state.get('action_history')] is falsy, and every
    function of [state_manager] creates the key before use). *)
Definition history_of (s : State) : list Action := default [] (action_history s).

(** ** [find_similar], as the specification words it

    The candidates are the stored records that carry a perceptual hash
    that decodes, with their distance to the query; the answer is the
    candidate of least distance, the earliest one among equals, when
    that distance is within the threshold. *)

Section FindSimilarSpec.
Context `{E : Env}.

Definition candidate (search_hash : ImageHash) (item : string * HashEntry)
  : option (string * Z) :=
  match entry_phash item.2 with
  | None => None
  | Some stored_phash =>
      if negb (truthy stored_phash) then None
      else match hex_to_hash stored_phash with
           | None => None
           | Some stored_hash =>
               Some (item.1, Z.of_nat (hash_distance search_hash stored_hash))
           end
  end.

Definition candidates (search_hash : ImageHash) (items : list (string * HashEntry))
  : list (string * Z) :=
  omap (candidate search_hash) items.

Fixpoint first_min (l : list (string * Z)) : option (string * Z) :=
  match l with
  | [] => None
  | (p, d) :: r =>
      match first_min r with
      | Some (p', d') => if d' <? d then Some (p', d') else Some (p, d)
      | None => Some (p, d)
      end
  end.

Definition nearest_within (search_hash : ImageHash) (threshold : Z)
    (items : list (string * HashEntry)) : option (string * Z) :=
  match first_min (candidates search_hash items) with
  | Some (p, d) => if d <=? threshold then Some (p, d) else None
  | None => None
  end.

(** What the loop has in [(best_match, best_distance)] once the least
    candidate of the records seen is taken into account. *)
Definition improve (best : option string * Z) (m : option (string * Z))
  : option string * Z :=
  match m with
  | Some (p, d) => if d <? best.2 then (Some p, d) else best
  | None => best
  end.

End FindSimilarSpec.

(** ** Concrete data for the properties below *)

Module Data.

(** One stored record whose perceptual code differs from the query
    [000000000000000f] in exactly four bits. *)
Definition one_record : HashDatabase :=
  {| db_root_dir := "/r";
     hashes := [("a.jpg", {| entry_sha256 := "ffd8";
                             entry_phash := Some "0000000000000000" |})] |}.

Definition move_a : Action :=
  {| action := Moved; old_path := "/r/a.jpg"; new_path := "/r/Trip/a.jpg" |}.

Definition delete_b : Action :=
  {| action := Deleted; old_path := "/r/b.jpg"; new_path := "/r/.trash/b.jpg" |}.

Definition with_history (h : list Action) : State :=
  StateManager.set_action_history (Some h) StateManager.default_state.

(** The photo [a.jpg] was moved from [/r/in] to [/r/Trip]; since then
    the emptied folder [/r/in] has been removed. *)
Definition moved_from_in : Action :=
  {| action := Moved; old_path := "/r/in/a.jpg"; new_path := "/r/Trip/a.jpg" |}.

Definition source_folder_gone : Session :=
  {| root_dir := "/r"; trash_dir := "/r/.trash"; images := ["/r/in/a.jpg"];
     current_index := 1; sorted_count := 1; skipped_count := 0;
     deleted_count := 0; duplicate_count := 0;
     state := with_history [moved_from_in]; auto_move_duplicates := true;
     duplicate_threshold := 5;
     hash_db := {| db_root_dir := "/r"; hashes := [] |};
     fs := {[ "/r" := Dir; "/r/Trip" := Dir; "/r/Trip/a.jpg" := File Demo.jpeg ]};
     state_file := NoFile; console := [] |}.

(** The same history with the source folder still there. *)
Definition source_folder_there : Session :=
  set_fs {[ "/r" := Dir; "/r/in" := Dir; "/r/Trip" := Dir;
            "/r/Trip/a.jpg" := File Demo.jpeg ]} source_folder_gone.

(** The moved file has vanished from [/r/Trip]. *)
Definition destination_gone : Session :=
  set_fs {[ "/r" := Dir; "/r/in" := Dir; "/r/Trip" := Dir ]} source_folder_gone.


(** The scan listed a photo that is no longer on disk. *)
Definition one_vanished : Session := Demo.start ["/r/gone.jpg"] {[ "/r" := Dir ]}.

End Data.

(** Every record of the index is filed under a path, not under the
    empty string. *)
Definition paths_nonempty (db : HashDatabase) : Prop :=
  Forall (λ item : string * HashEntry, item.1 ≠ "") (hashes db).

(** The photos accounted for by the four counters. *)
Definition counted (w : Session) : Z :=
  sorted_count w + skipped_count w + deleted_count w + duplicate_count w.

(** The images not yet processed: the total minus the cursor. *)
Definition remaining (w : Session) : Z :=
  Z.of_nat (length (images w)) - current_index w.

(** The turns that pass over a photo without counting it. *)
Definition uncounted (s : Step) : bool :=
  match s with
  | Vanished | ViewerFailure => true
  | _ => false
  end.

Definition uncounted_turns (steps : list Step) : Z :=
  Z.of_nat (length (filter (λ s, uncounted s = true) steps)).

(** The turn kept the image list and the duplicate counter, and moved
    the counters and the cursor together. *)
Definition in_step (w w' : Session) : Prop :=
  images w' = images w
  ∧ duplicate_count w' = duplicate_count w
  ∧ counted w' - current_index w' = counted w - current_index w.

(** What one turn does: the image list stays, the duplicate counter
    does not fall, and counters and cursor move together except on an
    uncounted turn, where the cursor alone advances. *)
Definition turn_ok (w : Session) (r : Session * Step) : Prop :=
  images r.1 = images w
  ∧ duplicate_count w ≤ duplicate_count r.1
  ∧ counted r.1 - current_index r.1
    = counted w - current_index w - (if uncounted r.2 then 1 else 0).

(** The prefix [os.path.join] puts before a bare name. *)
Definition join_prefix (d : string) : string :=
  if bool_decide (d = "") || Path.ends_with_sep d then d else d +:+ "/".

(** ** directory_scanner.py *)

Module DirectoryScanner.

Definition SUPPORTED_EXTENSIONS : list string :=
  [".jpg"; ".jpeg"; ".png"; ".heic"; ".webp"; ".tiff"; ".tif"; ".gif"; ".bmp";
   ".raw"; ".cr2"; ".nef"; ".arw"; ".dng"].

(** [str.lower] on the letters A to Z. The supported extensions are
    ASCII and hold no [k], the one ASCII letter that a character outside
    ASCII lowers to, so bytes outside ASCII can stay as they are. *)
Definition lower_char (c : ascii) : ascii :=
  let n := nat_of_ascii c in
  if (65 <=? n)%nat && (n <=? 90)%nat then ascii_of_nat (n + 32) else c.

Fixpoint lower (s : string) : string :=
  match s with
  | EmptyString => EmptyString
  | String c r => String (lower_char c) (lower r)
  end.

Definition is_image (filename : string) : bool :=
  let '(_, ext) := Path.splitext filename in
  bool_decide (lower ext ∈ SUPPORTED_EXTENSIONS).

(** The body of the [for ... in os.walk(root_dir)] loop at [dirpath] and,
    through the pruned [dirnames], at the directories below it. Every
    level lengthens [dirpath], so the walk is unrolled to a depth no
    path of the file system reaches. *)
Fixpoint walk_images (depth : nat) (fs : FS) (dirpath : string) : list string :=
  match depth with
  | O => []
  | S depth' =>
      let names := OS.listdir fs dirpath in
      let dirnames := filter (λ n, OS.isdir fs (Path.join dirpath n) = true) names in
      let filenames := filter (λ n, OS.isdir fs (Path.join dirpath n) = false) names in
      let dirnames := filter (λ d, Path.startswith d "." = false) dirnames in
      let found :=
        omap (λ filename,
                if Path.startswith filename "." then None
                else if is_image filename then
                  let full_path := Path.join dirpath filename in
                  if OS.isfile fs full_path then Some full_path else None
                else None) filenames in
      (found ++ (dirnames ≫= λ d, walk_images depth' fs (Path.join dirpath d)))%list
  end.

Definition max_key_length (fs : FS) : nat :=
  max_list (String.length <$> (map_to_list fs).*1).

(** [None] is the [ValueError]. The file system has no permissions, so
    no [PermissionError] arises; [os.path.isfile] does not raise, so
    [errors] stays empty and no warning is printed. [list.sort] orders
    [str] by code point, which is the order of the bytes. *)
Definition scan_images (fs : FS) (root_dir : string) : option (list string) :=
  if negb (OS.path_exists fs root_dir) then None
  else if negb (OS.isdir fs root_dir) then None
  else Some (merge_sort String.le (walk_images (S (max_key_length fs)) fs root_dir)).

End DirectoryScanner.

(** The directories the scan enters from [root]: [root], and every
    directory whose name does not start with a dot inside one of them. *)
Inductive walked (fs : FS) (root : string) : string → Prop :=
  | walked_root : walked fs root root
  | walked_sub (d name : string) :
      walked fs root d →
      name ≠ "" → Path.has_sep name = false → Path.startswith name "." = false →
      OS.isdir fs (d +:+ "/" +:+ name) = true →
      walked fs root (d +:+ "/" +:+ name).

(** The files the scan is to report from [root]: image files whose name
    does not start with a dot, directly inside a directory it enters. *)
Definition scanned (fs : FS) (root p : string) : Prop :=
  ∃ d name, walked fs root d ∧ p = d +:+ "/" +:+ name
    ∧ name ≠ "" ∧ Path.has_sep name = false
    ∧ Path.startswith name "." = false
    ∧ DirectoryScanner.is_image name = true
    ∧ OS.isfile fs p = true.

(** From [disk] to [disk'] nothing was removed or overwritten, except
    that the file at [p], with bytes [c0], may have gone to a path that
    was free. *)
Definition no_loss (p : string) (c0 : list byte) (disk disk' : FS) : Prop :=
  (∀ k n, k ≠ p → disk !! k = Some n → disk' !! k = Some n)
  ∧ (disk' !! p = Some (File c0)
     ∨ ∃ np, disk !! np = None ∧ disk' !! np = Some (File c0)).

(** The history and the skipped list hold no entry twice. *)
Definition tidy (w : Session) : Prop :=
  NoDup (history_of (state w)) ∧ NoDup (default [] (skipped_files (state w))).


(** * Properties *)

(** ** The path and file-system model on examples *)

Example basename_dirname :
  Path.basename "/r/in/a.jpg" = "a.jpg" ∧ Path.dirname "/r/in/a.jpg" = "/r/in"
  ∧ Path.dirname "/a" = "/" ∧ Path.dirname "a" = "" ∧ Path.basename "/r/in/" = "".
Proof. repeat split. Qed.

Example splitext_cases :
  Path.splitext "a.b.jpg" = ("a.b", ".jpg") ∧ Path.splitext ".hidden" = (".hidden", "")
  ∧ Path.splitext "noext" = ("noext", "") ∧ Path.splitext "..a.b" = ("..a", ".b").
Proof. repeat split. Qed.

Example join_cases :
  Path.join "/r" "Trip" = "/r/Trip" ∧ Path.join "/r/" "x" = "/r/x"
  ∧ Path.join "/r" "/abs" = "/abs" ∧ Path.join "" "x" = "x".
Proof. repeat split. Qed.

Example relpath_cases :
  Path.relpath "/r/Trip/a.jpg" "/r" = "Trip/a.jpg" ∧ Path.relpath "/r" "/r" = "."
  ∧ Path.relpath "/rest/a.jpg" "/r" = "../rest/a.jpg".
Proof. repeat split. Qed.

Example strip_cases :
  FolderManager.strip "  Trip 2021 " = "Trip 2021" ∧ FolderManager.strip "   " = "".
Proof. repeat split. Qed.

(** A name collision in the destination folder: the photo gets the
    first free numbered name. *)
Example move_photo_renames :
  snd <$> FolderManager.move_photo
            {[ "/r" := Dir; "/r/a.jpg" := File []; "/r/T" := Dir;
               "/r/T/a.jpg" := File []; "/r/T/a_1.jpg" := File [] ]}
            "/r/a.jpg" "/r/T"
  = Some "/r/T/a_2.jpg".
Proof. vm_compute. reflexivity. Qed.

(** [shutil.move] into a directory, onto a path, and its errors. *)
Example shutil_move_cases :
  let disk : FS := {[ "/r" := Dir; "/r/a.jpg" := File []; "/r/T" := Dir;
                      "/r/T/b.jpg" := File [] ]} in
  (OS.shutil_move disk "/r/a.jpg" "/r/T" ≫= λ d, d !! "/r/T/a.jpg") = Some (File [])
  ∧ (OS.shutil_move disk "/r/a.jpg" "/r/c.jpg" ≫= λ d, d !! "/r/a.jpg") = None
  ∧ OS.shutil_move disk "/r/a.jpg" "/nowhere/a.jpg" = None
  ∧ OS.shutil_move disk "/r/missing.jpg" "/r/T" = None
  ∧ (OS.shutil_move disk "/r/T" "/r/U" ≫= λ d, d !! "/r/U/b.jpg") = Some (File []).
Proof. vm_compute. repeat split. Qed.

Example py_index_cases :
  py_index ["a"; "b"; "c"] 1 = Some "b" ∧ py_index ["a"; "b"; "c"] (-1) = Some "c"
  ∧ py_index ["a"; "b"; "c"] (-4) = None ∧ py_index ["a"; "b"; "c"] 3 = None.
Proof. repeat split. Qed.

(** ** The hash index *)

Lemma dict_set_idem {V} (k : string) (v : V) (d : list (string * V)) :
  dict_set k v (dict_set k v d) = dict_set k v d.
Proof.
  induction d as [|[k' v'] r IH]; simpl.
  - rewrite bool_decide_true; done.
  - case_bool_decide as Hk; simpl.
    + rewrite bool_decide_true; done.
    + rewrite bool_decide_false by done. by rewrite IH.
Qed.

Lemma dict_get_set_eq {V} (k : string) (v : V) (d : list (string * V)) :
  dict_get k (dict_set k v d) = Some v.
Proof.
  induction d as [|[k' v'] r IH]; simpl.
  - rewrite bool_decide_true; done.
  - case_bool_decide as Hk; simpl.
    + rewrite bool_decide_true; done.
    + rewrite bool_decide_false by done. exact IH.
Qed.

Lemma dict_get_set_ne {V} (k j : string) (v : V) (d : list (string * V)) :
  j ≠ k → dict_get j (dict_set k v d) = dict_get j d.
Proof.
  intros Hne. induction d as [|[k' v'] r IH]; simpl.
  - rewrite bool_decide_false; [done | congruence].
  - case_bool_decide as Hk; simpl.
    + subst k'. rewrite !bool_decide_false by congruence. done.
    + case_bool_decide; [done | exact IH].
Qed.

Section IndexProperties.
Context `{E : Env}.

(** C9. Adding the same [(path, content_hash, perceptual_hash)] a second
    time gives back the very same index, hence the same answer to every
    [get_by_sha256] and [find_similar_by_phash] query; after an add the
    record stored under the path's key is the one added, and the
    records under all other keys are as before. *)
Theorem add_hash_idempotent (db : HashDatabase) (filepath sha : string)
    (phash : option string) :
  let once := add_hash db filepath sha phash in
  let twice := add_hash once filepath sha phash in
  twice = once
  ∧ (∀ h, get_by_sha256 twice h = get_by_sha256 once h)
  ∧ (∀ q t, find_similar_by_phash twice q t = find_similar_by_phash once q t)
  ∧ dict_get (rel_key db filepath) (hashes once)
    = Some {| entry_sha256 := sha; entry_phash := phash |}
  ∧ (∀ k, k ≠ rel_key db filepath → dict_get k (hashes once) = dict_get k (hashes db)).
Proof.
  intros once twice.
  assert (Heq : twice = once).
  { unfold twice, once, add_hash, rel_key; simpl. by rewrite dict_set_idem. }
  repeat split.
  - exact Heq.
  - intros h. by rewrite Heq.
  - intros q t. by rewrite Heq.
  - apply dict_get_set_eq.
  - intros k Hk. by apply dict_get_set_ne.
Qed.

End IndexProperties.

Lemma add_hash_idempotent_witness :
  let once := add_hash Data.one_record "/r/Trip/b.jpg" "00ff" None in
  add_hash once "/r/Trip/b.jpg" "00ff" None = once
  ∧ dict_get "Trip/b.jpg" (hashes once)
    = Some {| entry_sha256 := "00ff"; entry_phash := None |}
  ∧ dict_get "a.jpg" (hashes once) = dict_get "a.jpg" (hashes Data.one_record).
Proof.
  destruct (add_hash_idempotent Data.one_record "/r/Trip/b.jpg" "00ff" None)
    as (Hidem & _ & _ & Hnew & Hold).
  split; [exact Hidem|]. split; [exact Hnew|].
  apply Hold. vm_compute. discriminate.
Defined.

(** ** [find_similar_by_phash] against its specification *)

Section FindSimilar.
Context `{E : Env}.

Lemma scan_entry_candidate (sh : ImageHash) (best : option string * Z)
    (item : string * HashEntry) :
  scan_entry sh best item = improve best (candidate sh item).
Proof.
  unfold scan_entry, candidate, improve.
  destruct (entry_phash item.2) as [sp|]; [|done].
  destruct (negb (truthy sp)); [done|].
  destruct (hex_to_hash sp); done.
Qed.

Lemma scan_all (sh : ImageHash) (items : list (string * HashEntry))
    (best : option string * Z) :
  foldl (scan_entry sh) best items = improve best (first_min (candidates sh items)).
Proof.
  revert best. induction items as [|item r IH]; intros best; [done|].
  simpl. rewrite IH, scan_entry_candidate. unfold candidates. simpl.
  destruct (candidate sh item) as [[p d]|]; [|done].
  simpl. fold (candidates sh r).
  destruct (first_min (candidates sh r)) as [[p' d']|]; simpl; [|done].
  destruct best as [bm bd]; simpl.
  destruct (d <? bd) eqn:H1; destruct (d' <? d) eqn:H2;
    destruct (d' <? bd) eqn:H3; simpl; rewrite ?H1, ?H2, ?H3; try done; lia.
Qed.

(** The loop of [find_similar_by_phash] computes [nearest_within]. *)
Lemma find_similar_by_phash_unfold (db : HashDatabase) (phash : string) (threshold : Z) :
  find_similar_by_phash db phash threshold =
    if PERCEPTUAL_HASH_AVAILABLE then
      match hex_to_hash phash with
      | Some search_hash =>
          match nearest_within search_hash threshold (hashes db) with
          | Some (p, d) => if truthy p then Some (p, d) else None
          | None => None
          end
      | None => None
      end
    else None.
Proof.
  unfold find_similar_by_phash, nearest_within.
  destruct PERCEPTUAL_HASH_AVAILABLE; [simpl|done].
  destruct (hex_to_hash phash) as [sh|]; [|done].
  rewrite scan_all. unfold improve.
  destruct (first_min (candidates sh (hashes db))) as [[p d]|]; simpl.
  - destruct (d <? threshold + 1) eqn:H1; simpl.
    + assert ((d <=? threshold) = true) as -> by lia.
      rewrite andb_true_r. done.
    + assert ((d <=? threshold) = false) as -> by lia. done.
  - done.
Qed.

(** [first_min] is a candidate of least distance, and the earliest
    such: everything before it is strictly farther. *)
Lemma first_min_least (l : list (string * Z)) (p : string) (d : Z) :
  first_min l = Some (p, d) →
  ∃ l1 l2, l = (l1 ++ (p, d) :: l2)%list
           ∧ Forall (λ c, d < c.2) l1 ∧ Forall (λ c, d ≤ c.2) l2.
Proof.
  revert p d. induction l as [|[q e] r IH]; intros p d; [done|].
  simpl. destruct (first_min r) as [[p' d']|] eqn:Hr.
  - destruct (d' <? e) eqn:Hlt; intros [= <- <-].
    + destruct (IH _ _ eq_refl) as (l1 & l2 & -> & H1 & H2).
      exists ((q, e) :: l1), l2. repeat split; [|done].
      constructor; [simpl; lia | done].
    + destruct (IH _ _ eq_refl) as (l1 & l2 & Hr' & H1 & H2).
      exists [], r. repeat split; [constructor|].
      rewrite Hr'. apply Forall_app. split.
      * eapply Forall_impl; [exact H1|]. simpl. intros; lia.
      * constructor; [simpl; lia|].
        eapply Forall_impl; [exact H2|]. simpl. intros; lia.
  - intros [= <- <-]. exists [], r. repeat split; [constructor|].
    destruct r as [|[q' e'] r']; [constructor|]. simpl in Hr.
    destruct (first_min r') as [[? ?]|]; [destruct (_ <? _)|]; done.
Qed.



End FindSimilar.



(** ** The session state store *)

(** C5, as the code has it. [add_action_to_history] appends the action
    unless an equal action occurs anywhere in the history, most recent
    or older: an action already in the history leaves it as it is (in
    particular one equal to the most recent entry), an action not in it
    becomes its last entry, a history without repeated entries stays so,
    and the rest of the state is untouched. *)
Theorem add_action_to_history_spec (s : State) (a : Action) :
  let s' := StateManager.add_action_to_history s a in
  (a ∈ history_of s → history_of s' = history_of s)
  ∧ (a ∉ history_of s → history_of s' = (history_of s ++ [a])%list)
  ∧ (last (history_of s) = Some a → history_of s' = history_of s)
  ∧ (NoDup (history_of s) → NoDup (history_of s'))
  ∧ skipped_files s' = skipped_files s
  ∧ last_index s' = last_index s
  ∧ state_sorted_count s' = state_sorted_count s
  ∧ state_skipped_count s' = state_skipped_count s
  ∧ state_deleted_count s' = state_deleted_count s
  ∧ state_duplicate_count s' = state_duplicate_count s.
Proof.
  intros s'.
  assert (Hin : a ∈ history_of s → history_of s' = history_of s).
  { intros Hin. unfold s', history_of, StateManager.add_action_to_history in *.
    simpl. by rewrite bool_decide_true. }
  assert (Hout : a ∉ history_of s → history_of s' = (history_of s ++ [a])%list).
  { intros Hout. unfold s', history_of, StateManager.add_action_to_history in *.
    simpl. by rewrite bool_decide_false. }
  split; [exact Hin|]. split; [exact Hout|]. split; [|split; [|by repeat split]].
  - intros Hlast. apply Hin. apply last_Some in Hlast as [l' ->].
    apply elem_of_app. right. apply list_elem_of_here.
  - intros Hnd. destruct (decide (a ∈ history_of s)) as [Hd|Hd].
    + by rewrite Hin.
    + rewrite Hout by done. apply NoDup_app. split; [done|]. split.
      * intros x Hx Hxa. apply list_elem_of_singleton in Hxa as ->. done.
      * apply NoDup_singleton.
Qed.

Lemma add_action_to_history_spec_witness :
  history_of (StateManager.add_action_to_history
                (Data.with_history [Data.move_a]) Data.delete_b)
  = [Data.move_a; Data.delete_b]
  ∧ history_of (StateManager.add_action_to_history
                  (Data.with_history [Data.move_a; Data.delete_b]) Data.delete_b)
    = [Data.move_a; Data.delete_b].
Proof.
  split.
  - apply (proj1 (proj2 (add_action_to_history_spec
                           (Data.with_history [Data.move_a]) Data.delete_b))).
    intros H. apply list_elem_of_singleton in H. discriminate H.
  - apply (proj1 (proj2 (proj2 (add_action_to_history_spec
                           (Data.with_history [Data.move_a; Data.delete_b])
                           Data.delete_b)))).
    reflexivity.
Defined.

(** C5, as stated, fails: with history [[move_a; delete_b]] the action
    [move_a] is not the most recent entry, yet recording it again appends
    nothing. *)
Lemma add_action_older_entry_not_appended :
  let s := Data.with_history [Data.move_a; Data.delete_b] in
  last (history_of s) ≠ Some Data.move_a
  ∧ history_of (StateManager.add_action_to_history s Data.move_a)
    = [Data.move_a; Data.delete_b]
  ∧ history_of (StateManager.add_action_to_history s Data.move_a)
    ≠ ([Data.move_a; Data.delete_b] ++ [Data.move_a])%list.
Proof. repeat split; vm_compute; congruence. Qed.



(** ** Index paths are never empty

    The key [add_hash] files a record under is non-empty whenever the
    file path is, so an index grown from the empty one by [add_hash]
    keeps every record under a non-empty path. *)

Lemma append_nonempty (a b : string) : a ≠ "" → a +:+ b ≠ "".
Proof. destruct a; [done | by intros _]. Qed.

Lemma join_nonempty (a b : string) : a ≠ "" → Path.join a b ≠ "".
Proof.
  intros Ha. unfold Path.join.
  destruct (Path.starts_with_sep b) eqn:Hb.
  - destruct b; [done | by intros ?].
  - destruct (_ || _); by apply append_nonempty.
Qed.

Lemma foldl_join_nonempty (xs : list string) (x : string) :
  x ≠ "" → foldl Path.join x xs ≠ "".
Proof.
  revert x. induction xs as [|y r IH]; intros x Hx; [done|].
  simpl. apply IH. by apply join_nonempty.
Qed.

Lemma split_from_nonempty (p cur : string) :
  Forall (λ x, x ≠ "") (Path.split_from cur p).
Proof.
  revert cur. induction p as [|c r IH]; intros cur; simpl.
  - case_bool_decide; [constructor | by repeat constructor].
  - destruct (Path.is_sep c); [|apply IH].
    case_bool_decide; [apply IH | constructor; [done | apply IH]].
Qed.

Lemma drop_common_nonempty (a b : list string) :
  Forall (λ x, x ≠ "") b → Forall (λ x, x ≠ "") (Path.drop_common a b).2.
Proof.
  revert b. induction a as [|x a IH]; intros b Hb; [by destruct b|].
  destruct b as [|y b]; [done|]. simpl.
  case_bool_decide; [|done]. apply IH. by inversion Hb.
Qed.

Lemma relpath_nonempty (path start : string) : Path.relpath path start ≠ "".
Proof.
  unfold Path.relpath, Path.components.
  pose proof (drop_common_nonempty (Path.split_from "" start) (Path.split_from "" path)
                (split_from_nonempty path "")) as Hp.
  destruct (Path.drop_common _ _) as [s p]. simpl in Hp.
  destruct (replicate (length s) ".." ++ p)%list as [|x xs] eqn:Hrel; [done|].
  apply foldl_join_nonempty.
  destruct s as [|s0 s']; simpl in Hrel.
  - subst p. by inversion Hp.
  - by injection Hrel as <- _.
Qed.

Section IndexPaths.
Context `{E : Env}.

Lemma rel_key_nonempty (db : HashDatabase) (filepath : string) :
  filepath ≠ "" → rel_key db filepath ≠ "".
Proof.
  intros Hf. unfold rel_key. destruct (Path.startswith _ _); [|done].
  apply relpath_nonempty.
Qed.

Lemma dict_set_keys {V} (P : string → Prop) (k : string) (v : V)
    (d : list (string * V)) :
  P k → Forall (λ item, P item.1) d → Forall (λ item, P item.1) (dict_set k v d).
Proof.
  intros Hk. induction 1 as [|[k' v'] r Hi Hr IH]; simpl.
  - by repeat constructor.
  - case_bool_decide; constructor; done.
Qed.

Lemma add_hash_paths_nonempty (db : HashDatabase) (filepath sha : string)
    (phash : option string) :
  filepath ≠ "" → paths_nonempty db →
  paths_nonempty (add_hash db filepath sha phash).
Proof.
  intros Hf Hdb. unfold paths_nonempty, add_hash. simpl.
  apply (dict_set_keys (λ k, k ≠ "")); [by apply rel_key_nonempty | done].
Qed.

End IndexPaths.

(** ** The duplicate classifier *)

Section Classifier.
Context `{E : Env}.

Lemma first_with_sha256_found (items : list (string * HashEntry)) (sha : string) :
  (∃ item, item ∈ items ∧ entry_sha256 item.2 = sha) →
  ∃ p e, first_with_sha256 items sha = Some p ∧ (p, e) ∈ items ∧ entry_sha256 e = sha.
Proof.
  induction items as [|[p e] r IH]; intros (item & Hin & Hsha).
  - by apply elem_of_nil in Hin.
  - simpl. case_bool_decide as Hd.
    + exists p, e. split; [done|]. split; [apply list_elem_of_here | done].
    + apply elem_of_cons in Hin as [-> | Hin]; [done|].
      destruct IH as (p' & e' & Hf & Hin' & He'); [by exists item|].
      exists p', e'. split; [done|]. split; [by apply list_elem_of_further | done].
Qed.


(** A photo whose content cannot be hashed is presented like any other:
    the turn goes on to the viewer and the menu. *)
Lemma unreadable_photo_is_presented (i : Interaction) (w : Session) (p : string) :
  py_index (images w) (current_index w) = Some p →
  (fs w) !! p = Some Dir →
  iteration i w = present i (emit [] w) p.
Proof.
  intros Hidx Hp. unfold iteration. rewrite Hidx.
  unfold OS.path_exists, is_duplicate, compute_file_hash, OS.read.
  by rewrite Hp.
Qed.

End Classifier.


(** ** Undo *)

(** Moving an existing file onto a path that is not a directory puts its
    bytes there and frees the old path. *)
Lemma shutil_move_file (disk disk' : FS) (src dst : string) (c : list byte) :
  disk !! src = Some (File c) →
  OS.isdir disk dst = false →
  OS.shutil_move disk src dst = Some disk' →
  disk' !! dst = Some (File c) ∧ (src ≠ dst → disk' !! src = None).
Proof.
  intros Hsrc Hdir. unfold OS.shutil_move, OS.rename. rewrite Hsrc, Hdir.
  destruct (negb (OS.parent_ok disk dst)); [done|].
  intros [= <-]. split.
  - apply lookup_insert_eq.
  - intros Hne. rewrite lookup_insert_ne by done. apply lookup_delete_eq.
Qed.

Lemma last_snoc_history (h : list Action) (a : Action) : last (h ++ [a]) = Some a.
Proof. apply last_snoc. Qed.

Lemma removelast_snoc (h : list Action) (a : Action) : removelast (h ++ [a]) = h.
Proof. apply removelast_last. Qed.

Lemma pop_snoc (s : State) (h : list Action) (a : Action) :
  action_history s = Some (h ++ [a])%list →
  action_history (StateManager.pop_last_action s) = Some h.
Proof.
  intros H. unfold StateManager.pop_last_action. rewrite H.
  destruct h as [|x h']; [done|].
  rewrite <- app_comm_cons.
  cbn [action_history StateManager.set_action_history].
  f_equal. apply (removelast_snoc (x :: h') a).
Qed.

(** C3, as the code has it. When the history ends with an action whose
    destination exists and moving the destination back onto the source
    path does not raise, undo leaves the file system as that move made
    it, removes exactly the last history entry, steps the cursor back by
    one and decrements [sorted_count] for a move and [deleted_count] for
    a deletion, and no other counter. When the destination is a file and
    the source path is not a directory, the file is at the source path
    again and no longer at the destination. When the move raises, undo
    reports the error and changes nothing else. *)
Theorem undo_reverses_last_action (w : Session) (h : list Action) (a : Action) :
  action_history (state w) = Some (h ++ [a])%list →
  OS.path_exists (fs w) (new_path a) = true →
  let w' := _undo_last_action w in
  (∀ disk', OS.shutil_move (fs w) (new_path a) (old_path a) = Some disk' →
     fs w' = disk'
     ∧ history_of (state w') = h
     ∧ current_index w' = current_index w - 1
     ∧ sorted_count w'
       = (match action a with Moved => sorted_count w - 1 | Deleted => sorted_count w end)
     ∧ deleted_count w'
       = (match action a with Moved => deleted_count w | Deleted => deleted_count w - 1 end)
     ∧ skipped_count w' = skipped_count w
     ∧ duplicate_count w' = duplicate_count w
     ∧ (∀ c, fs w !! new_path a = Some (File c) →
             OS.isdir (fs w) (old_path a) = false →
             disk' !! old_path a = Some (File c)
             ∧ (new_path a ≠ old_path a → disk' !! new_path a = None)))
  ∧ (OS.shutil_move (fs w) (new_path a) (old_path a) = None →
     w' = emit [Stdout "Error undoing action"; Log ERROR "UNDO FAILED"] w).
Proof.
  intros Hh Hex w'.
  assert (Hu : w' = undo_branch (set_state (state w) w) a).
  { unfold w', _undo_last_action, StateManager.get_last_action. rewrite Hh.
    destruct (h ++ [a])%list as [|x l] eqn:Hl; [by destruct h|].
    by rewrite <- Hl, last_snoc_history. }
  unfold undo_branch in Hu. simpl fs in Hu. rewrite Hex in Hu.
  split.
  - intros disk' Hmv. rewrite Hmv in Hu.
    assert (Hpop : action_history (StateManager.pop_last_action (state w)) = Some h)
      by (by apply (pop_snoc _ h a)).
    destruct (action a); rewrite Hu; simpl; unfold history_of;
      rewrite ?Hpop; (repeat split; try done);
      try intros Hne; edestruct shutil_move_file as [H1 H2]; eauto.
  - intros Hmv. rewrite Hmv in Hu. rewrite Hu. by destruct w.
Qed.

Lemma undo_reverses_last_action_witness :
  let w' := _undo_last_action Data.source_folder_there in
  history_of (state w') = [] ∧ sorted_count w' = 0 ∧ current_index w' = 0
  ∧ fs w' !! "/r/in/a.jpg" = Some (File Demo.jpeg)
  ∧ fs w' !! "/r/Trip/a.jpg" = None.
Proof.
  assert (Hh : action_history (state Data.source_folder_there)
               = Some ([] ++ [Data.moved_from_in])%list) by reflexivity.
  assert (Hex : OS.path_exists (fs Data.source_folder_there)
                  (new_path Data.moved_from_in) = true) by (vm_compute; reflexivity).
  destruct (proj1 (undo_reverses_last_action Data.source_folder_there []
                     Data.moved_from_in Hh Hex)
              (<["/r/in/a.jpg" := File Demo.jpeg]>
                 (delete "/r/Trip/a.jpg" (fs Data.source_folder_there))))
    as (Hfs & Hhist & Hc & Hs & _ & _ & _ & Hfile).
  - vm_compute. reflexivity.
  - assert (Hsrc : fs Data.source_folder_there !! new_path Data.moved_from_in
                   = Some (File Demo.jpeg)) by (vm_compute; reflexivity).
    assert (Hdir : OS.isdir (fs Data.source_folder_there) (old_path Data.moved_from_in)
                   = false) by (vm_compute; reflexivity).
    destruct (Hfile Demo.jpeg Hsrc Hdir) as [H1 H2].
    cbv zeta. rewrite Hfs.
    split; [exact Hhist|]. split; [exact Hs|]. split; [exact Hc|].
    split; [exact H1|]. apply H2. discriminate.
Defined.

(** C3, as stated, fails: the history ends with a move whose destination
    file exists, but its source folder is gone, so the move back raises;
    undo then changes neither counter, cursor, history nor file. *)
Lemma undo_fails_when_source_folder_gone :
  let w := Data.source_folder_gone in
  let w' := _undo_last_action w in
  last (history_of (state w)) = Some Data.moved_from_in
  ∧ fs w !! new_path Data.moved_from_in = Some (File Demo.jpeg)
  ∧ sorted_count w' = sorted_count w
  ∧ current_index w' = current_index w
  ∧ history_of (state w') = history_of (state w)
  ∧ fs w' !! old_path Data.moved_from_in = None.
Proof. vm_compute. repeat split. Qed.

(** C7. With an empty history undo changes nothing but the terminal,
    where it says so. With a history whose last action has no file at its
    destination, undo changes nothing but the terminal and the log, where
    it reports the failure; the history entry stays. *)
Theorem undo_leaves_state (w : Session) :
  (history_of (state w) = [] →
   _undo_last_action w
   = emit [Stdout "No actions to undo.";
           Log INFO "Undo attempted but no actions in history"] w)
  ∧ (∀ a, last (history_of (state w)) = Some a →
          OS.path_exists (fs w) (new_path a) = false →
          _undo_last_action w
          = emit [Stdout match action a with
                        | Moved => "Cannot undo: File not found at " +:+ new_path a
                        | Deleted => "Cannot undo: File not found in trash"
                        end;
                  Log WARNING ("UNDO FAILED: File not found at " +:+ new_path a)] w).
Proof.
  unfold history_of, _undo_last_action. split.
  - destruct (action_history (state w)) as [[|x l]|]; simpl; done.
  - intros a Hlast Hex.
    destruct (action_history (state w)) as [[|x l]|] eqn:Hh; simpl in Hlast; try done.
    unfold StateManager.get_last_action. rewrite Hh, Hlast.
    unfold undo_branch. simpl fs. rewrite Hex.
    by destruct w.
Qed.

(** [emit] touches the terminal only. *)
Lemma emit_fields (out : list Event) (w : Session) :
  state (emit out w) = state w ∧ current_index (emit out w) = current_index w
  ∧ sorted_count (emit out w) = sorted_count w
  ∧ skipped_count (emit out w) = skipped_count w
  ∧ deleted_count (emit out w) = deleted_count w
  ∧ duplicate_count (emit out w) = duplicate_count w
  ∧ fs (emit out w) = fs w ∧ hash_db (emit out w) = hash_db w
  ∧ images (emit out w) = images w ∧ state_file (emit out w) = state_file w
  ∧ console (emit out w) = (console w ++ out)%list.
Proof. repeat split. Qed.

Lemma undo_leaves_state_witness :
  _undo_last_action (Demo.start [] ∅)
  = emit [Stdout "No actions to undo."; Log INFO "Undo attempted but no actions in history"]
         (Demo.start [] ∅)
  ∧ _undo_last_action Data.destination_gone
    = emit [Stdout "Cannot undo: File not found at /r/Trip/a.jpg";
            Log WARNING "UNDO FAILED: File not found at /r/Trip/a.jpg"]
           Data.destination_gone.
Proof.
  split.
  - apply (proj1 (undo_leaves_state (Demo.start [] ∅))). reflexivity.
  - apply (proj2 (undo_leaves_state Data.destination_gone) Data.moved_from_in).
    + reflexivity.
    + vm_compute. reflexivity.
Defined.

(** ** The sorting loop: what a turn does to counters and cursor *)

Section Loop.
Context `{E : Env}.

Lemma undo_in_step (w : Session) : in_step w (_undo_last_action w).
Proof.
  unfold _undo_last_action, StateManager.get_last_action, undo_branch.
  destruct (action_history (state w)) as [[|x l]|]; try (by repeat split).
  destruct (last (x :: l)) as [a|]; [|by repeat split].
  cbn [fs set_state].
  destruct (OS.path_exists _ _); [|by repeat split].
  destruct (OS.shutil_move _ _ _); [|by repeat split].
  unfold in_step, counted. destruct (action a); simpl; repeat split; lia.
Qed.

Lemma handle_duplicate_fields (w w' : Session) (p t : string) (o : option string) :
  _handle_duplicate w p t o = Some w' →
  state w' = state w ∧ images w' = images w
  ∧ current_index w' = current_index w
  ∧ sorted_count w' = sorted_count w ∧ skipped_count w' = skipped_count w
  ∧ deleted_count w' = deleted_count w ∧ duplicate_count w' = duplicate_count w
  ∧ hash_db w' = hash_db w.
Proof.
  unfold _handle_duplicate.
  destruct (if negb _ then _ else _) as [fs1|]; [|done].
  destruct (FolderManager.move_photo _ _ _) as [[fs2 np]|]; intros [= <-];
    by repeat split.
Qed.

Lemma move_to_trash_in_step (w : Session) (p : string) :
  in_step w (_move_to_trash w p) ∧ state (_move_to_trash w p) = state w.
Proof.
  unfold _move_to_trash. destruct (OS.shutil_move _ _ _); by repeat split.
Qed.

Lemma move_and_record_in_step (w : Session) (p d : string) (ok failed : list Event) :
  in_step w (move_and_record w p d ok failed).1.
Proof.
  unfold move_and_record.
  destruct (FolderManager.move_photo _ _ _) as [[fs' np]|]; by repeat split.
Qed.

Lemma in_step_trans (w1 w2 w3 : Session) :
  in_step w1 w2 → in_step w2 w3 → in_step w1 w3.
Proof.
  intros (Ha & Hb & Hc) (Ha' & Hb' & Hc'). repeat split; congruence.
Qed.

Lemma handle_choice_in_step (i : Interaction) (w : Session) (choice : ascii)
    (p : string) (folders : list string) :
  in_step w (_handle_choice i w choice p folders).1.
Proof.
  unfold _handle_choice.
  repeat match goal with
         | |- context [if ?b then _ else _] => destruct b
         | |- context [match ?o with Some _ => _ | None => _ end] =>
             destruct o as [?|] eqn:?
         | |- context [let '(_, _) := ?x in _] => destruct x
         end;
    try apply move_and_record_in_step; try (by repeat split).
  - eapply in_step_trans; [|apply move_and_record_in_step]. by repeat split.
  - simpl. apply (in_step_trans _ _ _ (proj1 (move_to_trash_in_step w p))).
    by repeat split.
  - simpl. apply (undo_in_step (emit _ w)).
Qed.

Lemma present_turn_ok (i : Interaction) (w : Session) (p : string) :
  turn_ok w (present i w p).
Proof.
  unfold present.
  destruct (negb (OS.path_exists (fs w) p));
    [unfold turn_ok, counted; simpl; repeat split; lia|].
  destruct (negb (viewer_opens i));
    [unfold turn_ok, counted; simpl; repeat split; lia|].
  destruct (CliUi.get_keypress i) as [choice|];
    [|unfold turn_ok, counted; simpl; repeat split; lia].
  pose proof (handle_choice_in_step i w choice p
                (FolderManager.list_event_folders (fs w) (root_dir w))) as Hs.
  destruct (_handle_choice _ _ _ _ _) as [w1 r]. simpl in Hs.
  destruct Hs as (Hi & Hd & Hc). unfold counted in Hc.
  destruct r.
  - destruct (add_to_hash_db _ _ _) as [db out].
    unfold turn_ok, counted; simpl; repeat split; [done | lia | lia].
  - unfold turn_ok, counted; simpl; repeat split; [done | lia | lia].
  - unfold turn_ok, counted; simpl; repeat split; [done | lia | lia].
  - destruct (_handle_duplicate _ _ _ _) as [w2|] eqn:Hdup.
    + apply handle_duplicate_fields in Hdup
        as (_ & Hi2 & Hc2 & Hs2 & Hk2 & Hd2 & Hu2 & _).
      unfold turn_ok, counted; simpl; repeat split; [congruence | lia | lia].
    + unfold turn_ok, counted; simpl; repeat split; [done | lia | lia].
  - unfold turn_ok, counted; simpl; repeat split; [done | lia | lia].
  - unfold turn_ok, counted; simpl; repeat split; [done | lia | lia].
Qed.

Ltac by_present :=
  match goal with
  | |- turn_ok _ (present ?i ?w' ?p) => exact (present_turn_ok i w' p)
  end.

Lemma iteration_turn_ok (i : Interaction) (w : Session) :
  turn_ok w (iteration i w).
Proof.
  unfold iteration.
  destruct (py_index _ _) as [p|];
    [|unfold turn_ok, counted; simpl; repeat split; lia].
  destruct (negb (OS.path_exists (fs w) p));
    [unfold turn_ok, counted; simpl; repeat split; lia|].
  destruct (is_duplicate _ _ _ _) as [[[is_dup dup_type] original] out].
  destruct is_dup; [|by_present].
  cbn [auto_move_duplicates emit set_console].
  destruct (auto_move_duplicates w); [|by_present].
  destruct (_handle_duplicate _ _ _ _) as [w2|] eqn:Hdup; [|by_present].
  apply handle_duplicate_fields in Hdup
    as (_ & Hi2 & Hc2 & Hs2 & Hk2 & Hd2 & Hu2 & _).
  simpl in *. unfold turn_ok, counted; simpl; repeat split; [done | lia | lia].
Qed.

Lemma sorting_loop_accounts (inputs : list Interaction) (w : Session) :
  images (_sorting_loop inputs w).1 = images w
  ∧ duplicate_count w ≤ duplicate_count (_sorting_loop inputs w).1
  ∧ counted (_sorting_loop inputs w).1 - current_index (_sorting_loop inputs w).1
    + uncounted_turns (_sorting_loop inputs w).2
    = counted w - current_index w.
Proof.
  revert w. induction inputs as [|i rest IH]; intros w; simpl.
  - destruct (_ <? _); simpl; unfold uncounted_turns; simpl; repeat split; lia.
  - destruct (_ <? _); [|simpl; unfold uncounted_turns; simpl; repeat split; lia].
    pose proof (iteration_turn_ok i w) as (Hi & Hd & Hc).
    destruct (iteration i w) as [w1 s]. simpl in Hi, Hd, Hc.
    destruct (leaves_loop s) eqn:Hl.
    + simpl. repeat split; [done | done |].
      unfold uncounted_turns. simpl.
      destruct s as [| | |[]| | |]; simpl in *; try done; lia.
    + specialize (IH w1) as (Hi' & Hd' & Hc').
      destruct (_sorting_loop rest w1) as [w2 steps]. simpl in *.
      repeat split; [congruence | lia |].
      unfold uncounted_turns in *. rewrite filter_cons.
      destruct (uncounted s) eqn:Hu.
      * rewrite decide_True by done. simpl length. lia.
      * rewrite decide_False by (by intros ?). lia.
Qed.

(** C2, as the code has it. A turn that skips a vanished file or a photo
    the viewer could not open advances the cursor and changes no counter;
    every other turn (move, skip, delete, duplicate by hand or
    automatic, undo, retry, quit) keeps the sum of the four counters and
    the images not yet processed. So from a state in which that sum is
    the number of images scanned, after any run of the loop the four
    counters, the images not yet processed and the turns of the first
    kind add up to that number. *)
Theorem counters_account_for_turns (inputs : list Interaction) (w : Session) :
  (∀ i, counted (iteration i w).1 + remaining (iteration i w).1
        = counted w + remaining w - (if uncounted (iteration i w).2 then 1 else 0))
  ∧ (counted w + remaining w = Z.of_nat (length (images w)) →
     let r := _sorting_loop inputs w in
     counted r.1 + remaining r.1 + uncounted_turns r.2 = Z.of_nat (length (images r.1))
     ∧ (uncounted_turns r.2 = 0 →
        counted r.1 + remaining r.1 = Z.of_nat (length (images r.1)))).
Proof.
  split.
  - intros i. destruct (iteration_turn_ok i w) as (Hi & _ & Hc).
    unfold remaining. rewrite Hi. lia.
  - intros H r. destruct (sorting_loop_accounts inputs w) as (Hi & _ & Hc).
    fold r in Hi, Hc. unfold remaining in *. rewrite Hi. lia.
Qed.

Lemma handle_choice_duplicate (i : Interaction) (w : Session) (choice : ascii)
    (p : string) (folders : list string) :
  (_handle_choice i w choice p folders).2 = duplicate →
  (_handle_choice i w choice p folders).1 = w.
Proof.
  unfold _handle_choice, move_and_record, retry_after.
  repeat match goal with
         | |- context [if ?b then _ else _] => destruct b
         | |- context [match ?o with Some _ => _ | None => _ end] =>
             destruct o as [?|] eqn:?
         | |- context [let '(_, _) := ?x in _] => destruct x
         end; simpl; done.
Qed.

Lemma present_duplicate (i : Interaction) (w : Session) (p : string) :
  (present i w p).2 ≠ AutoDuplicate
  ∧ ((present i w p).2 = Chose duplicate →
     history_of (state (present i w p).1) = history_of (state w)
     ∧ duplicate_count (present i w p).1 = duplicate_count w + 1).
Proof.
  unfold present.
  destruct (negb (OS.path_exists (fs w) p)); [by split|].
  destruct (negb (viewer_opens i)); [by split|].
  destruct (CliUi.get_keypress i) as [choice|]; [|by split].
  pose proof (handle_choice_duplicate i w choice p
                (FolderManager.list_event_folders (fs w) (root_dir w))) as Hd.
  destruct (_handle_choice _ _ _ _ _) as [w1 r]. simpl in Hd.
  destruct r; try (by split); try (destruct (add_to_hash_db _ _ _); by split).
  specialize (Hd eq_refl) as ->.
  destruct (_handle_duplicate _ _ _ _) as [w2|] eqn:Hdup; [|by split].
  apply handle_duplicate_fields in Hdup as (Hst & _ & _ & _ & _ & _ & Hu & _).
  split; [done|]. intros _. unfold history_of. simpl. by rewrite Hst, Hu.
Qed.

Lemma iteration_duplicate (i : Interaction) (w : Session) :
  (iteration i w).2 = AutoDuplicate ∨ (iteration i w).2 = Chose duplicate →
  history_of (state (iteration i w).1) = history_of (state w)
  ∧ duplicate_count (iteration i w).1 = duplicate_count w + 1.
Proof.
  unfold iteration.
  destruct (py_index _ _) as [p|]; [|by intros [|]].
  destruct (negb (OS.path_exists (fs w) p)); [by intros [|]|].
  destruct (is_duplicate _ _ _ _) as [[[is_dup dup_type] original] out].
  assert (Hp : ∀ w', state w' = state w → duplicate_count w' = duplicate_count w →
            (present i w' p).2 = AutoDuplicate ∨ (present i w' p).2 = Chose duplicate →
            history_of (state (present i w' p).1) = history_of (state w)
            ∧ duplicate_count (present i w' p).1 = duplicate_count w + 1).
  { intros w' Hs Hd [H|H]; [by apply present_duplicate in H|].
    apply present_duplicate in H as [-> ->]. by rewrite Hs, Hd. }
  destruct is_dup; [|by apply Hp].
  cbn [auto_move_duplicates emit set_console].
  destruct (auto_move_duplicates w); [|by apply Hp].
  destruct (_handle_duplicate _ _ _ _) as [w2|] eqn:Hdup; [|by apply Hp].
  apply handle_duplicate_fields in Hdup as (Hst & _ & _ & _ & _ & _ & Hu & _).
  intros _. unfold history_of. simpl. by rewrite Hst, Hu.
Qed.

(** C10. Moving a photo to the Duplicates folder leaves the state dict,
    and with it the action history, as it was; a turn that moved a
    duplicate, automatically or on the duplicate key, ends with the same
    history and a duplicate counter one higher; undo leaves the
    duplicate counter alone; and over any run of the loop the duplicate
    counter never falls. *)
Theorem duplicates_stay_out_of_history :
  (∀ w p t o w', _handle_duplicate w p t o = Some w' → state w' = state w)
  ∧ (∀ i w,
       (iteration i w).2 = AutoDuplicate ∨ (iteration i w).2 = Chose duplicate →
       history_of (state (iteration i w).1) = history_of (state w)
       ∧ duplicate_count (iteration i w).1 = duplicate_count w + 1)
  ∧ (∀ w, duplicate_count (_undo_last_action w) = duplicate_count w)
  ∧ (∀ i w, duplicate_count w ≤ duplicate_count (iteration i w).1)
  ∧ (∀ inputs w, duplicate_count w ≤ duplicate_count (_sorting_loop inputs w).1).
Proof.
  split; [|split; [|split; [|split]]].
  - intros w p t o w' H. by apply handle_duplicate_fields in H as (? & _).
  - apply iteration_duplicate.
  - intros w. by destruct (undo_in_step w) as (_ & ? & _).
  - intros i w. by destruct (iteration_turn_ok i w) as (_ & ? & _).
  - intros inputs w. by destruct (sorting_loop_accounts inputs w) as (_ & ? & _).
Qed.

End Loop.

(** A session started without a state file begins with the sum in
    balance. *)
Lemma fresh_session_balanced (root : string) (auto : bool) (threshold : Z)
    (scanned : list string) (disk : FS) :
  ∃ w, new_session root auto threshold scanned disk NoFile = Ok w
       ∧ counted w + remaining w = Z.of_nat (length (images w)).
Proof. eexists. split; [reflexivity|]. unfold counted, remaining. simpl. lia. Qed.

Lemma counters_account_for_turns_witness :
  let r := _sorting_loop [Demo.answer "n" "Vacation"; Demo.answer "s" ""] Demo.twins in
  counted r.1 + remaining r.1 + uncounted_turns r.2 = Z.of_nat (length (images r.1))
  ∧ (uncounted_turns r.2 = 0 →
     counted r.1 + remaining r.1 = Z.of_nat (length (images r.1))).
Proof.
  apply (proj2 (counters_account_for_turns
                  [Demo.answer "n" "Vacation"; Demo.answer "s" ""] Demo.twins)).
  vm_compute. reflexivity.
Defined.

(** C2, as stated, fails: the only scanned photo has vanished, the loop
    passes over it, and afterwards the counters and the remaining images
    add up to 0, not to the 1 image scanned. *)
Lemma vanished_file_breaks_the_sum :
  let w := Data.one_vanished in
  let r := _sorting_loop [Demo.answer "s" ""] w in
  counted w + remaining w = Z.of_nat (length (images w))
  ∧ r.2 = [Vanished]
  ∧ counted r.1 + remaining r.1 = 0
  ∧ Z.of_nat (length (images r.1)) = 1.
Proof. vm_compute. repeat split. Qed.

Lemma duplicates_stay_out_of_history_witness :
  let r := iteration (Demo.answer "u" "") Demo.twins in
  r.2 = Chose duplicate
  ∧ history_of (state r.1) = history_of (state Demo.twins)
  ∧ duplicate_count r.1 = duplicate_count Demo.twins + 1.
Proof.
  assert (H : (iteration (Demo.answer "u" "") Demo.twins).2 = Chose duplicate)
    by (vm_compute; reflexivity).
  split; [exact H|].
  apply (proj1 (proj2 duplicates_stay_out_of_history) (Demo.answer "u" "") Demo.twins).
  right. exact H.
Defined.

(** ** A successful move and the hash index *)

Lemma free_dest_path_free (turns : nat) (disk : FS) (dest_folder base ext : string)
    (counter : nat) (p : string) :
  FolderManager.free_dest_path turns disk dest_folder base ext counter = Some p →
  OS.path_exists disk p = false.
Proof.
  revert counter. induction turns as [|n IH]; intros counter; simpl; [done|].
  destruct (OS.path_exists disk (Path.join _ _)) eqn:Hex; [apply IH|].
  by intros [= <-].
Qed.

(** After [move_photo] the source path is free and the bytes are at the
    path returned. *)
Lemma move_photo_frees_source (disk disk' : FS) (src dest_folder np : string)
    (c : list byte) :
  disk !! src = Some (File c) →
  FolderManager.move_photo disk src dest_folder = Some (disk', np) →
  disk' !! src = None ∧ disk' !! np = Some (File c).
Proof.
  intros Hsrc. unfold FolderManager.move_photo.
  destruct (negb (OS.path_exists disk src)); [done|].
  destruct (negb (OS.path_exists disk dest_folder)); [done|].
  destruct (negb (OS.isdir disk dest_folder)); [done|].
  set (first_choice := Path.join dest_folder (Path.basename src)).
  assert (Hfree : ∀ q,
    (if OS.path_exists disk first_choice
     then let '(base, ext) := Path.splitext (Path.basename src) in
          FolderManager.free_dest_path (S (size disk)) disk dest_folder base ext 1
     else Some first_choice) = Some q → OS.path_exists disk q = false).
  { intros q. destruct (OS.path_exists disk first_choice) eqn:Hex.
    - destruct (Path.splitext _) as [base ext]. apply free_dest_path_free.
    - by intros [= <-]. }
  destruct (if OS.path_exists disk first_choice then _ else _) as [q|]; [|done].
  specialize (Hfree q eq_refl). simpl.
  destruct (OS.shutil_move disk src q) as [d|] eqn:Hmv; [|done].
  intros [= <- <-].
  assert (Hdir : OS.isdir disk q = false).
  { unfold OS.isdir, OS.path_exists in *. by destruct (disk !! q). }
  destruct (shutil_move_file _ _ _ _ _ Hsrc Hdir Hmv) as [Hq Hs].
  split; [|done]. apply Hs. intros ->.
  unfold OS.path_exists in Hfree. by rewrite Hsrc in Hfree.
Qed.

Lemma mkdir_exist_ok_keeps (disk disk' : FS) (d k : string) (n : node) :
  disk !! k = Some n → OS.mkdir_exist_ok disk d = Some disk' → disk' !! k = Some n.
Proof.
  intros Hk. unfold OS.mkdir_exist_ok.
  destruct (disk !! d) as [[|]|] eqn:Hd; try done; intros [= <-]; [done|].
  rewrite lookup_insert_ne; [done|]. intros ->. by rewrite Hk in Hd.
Qed.

Lemma makedirs_keeps (disk disk' : FS) (p k : string) (n : node) :
  disk !! k = Some n → OS.makedirs disk p = Some disk' → disk' !! k = Some n.
Proof.
  unfold OS.makedirs. generalize (OS.ancestors p). intros l. revert disk.
  induction l as [|d r IH]; intros disk Hk; simpl.
  - by intros [= <-].
  - destruct (OS.mkdir_exist_ok disk d) as [disk1|] eqn:Hm; simpl.
    + apply IH. eapply mkdir_exist_ok_keeps; eauto.
    + clear. induction r as [|d' r' IHr]; simpl; [done | exact IHr].
Qed.

Lemma create_event_folder_keeps (disk disk' : FS) (year_dir name dest k : string)
    (n : node) :
  disk !! k = Some n →
  FolderManager.create_event_folder disk year_dir name = Some (disk', dest) →
  disk' !! k = Some n.
Proof.
  intros Hk. unfold FolderManager.create_event_folder.
  destruct (_ || _); [done|]. destruct (existsb _ _); [done|].
  destruct (OS.path_exists _ _); [done|].
  destruct (OS.makedirs _ _) as [d|] eqn:Hm; [|done].
  intros [= <- <-]. eapply makedirs_keeps; eauto.
Qed.

Section MovedTurn.
Context `{E : Env}.

Lemma move_and_record_moved (w w1 : Session) (p d : string) (ok failed : list Event)
    (c : list byte) :
  fs w !! p = Some (File c) →
  move_and_record w p d ok failed = (w1, moved) →
  fs w1 !! p = None ∧ hash_db w1 = hash_db w.
Proof.
  intros Hp. unfold move_and_record, retry_after.
  destruct (FolderManager.move_photo _ _ _) as [[fs' np]|] eqn:Hm; [|done].
  intros [= <-]. simpl. split; [|done].
  by destruct (move_photo_frees_source _ _ _ _ _ _ Hp Hm).
Qed.

Lemma handle_choice_moved (i : Interaction) (w w1 : Session) (choice : ascii)
    (p : string) (folders : list string) (c : list byte) :
  fs w !! p = Some (File c) →
  _handle_choice i w choice p folders = (w1, moved) →
  fs w1 !! p = None ∧ hash_db w1 = hash_db w.
Proof.
  intros Hp. unfold _handle_choice.
  destruct (isdigit choice).
  { destruct (_ && _); [|done]. destruct (folders !! _); [|done].
    by apply move_and_record_moved with (c := c). }
  destruct (bool_decide (choice = "N"%char)).
  { destruct (CliUi.prompt_new_folder_name i) as [name|]; [|done].
    destruct (FolderManager.create_event_folder _ _ _) as [[fs1 dest]|] eqn:Hc;
      [|done].
    intros Hm. apply move_and_record_moved with (c := c) in Hm; [done|].
    simpl. eapply create_event_folder_keeps; eauto. }
  repeat (match goal with
          | |- context [if ?b then _ else _] => destruct b
          end; try done).
Qed.

(** Whenever a turn ends with a successful move of a photo that was a
    file, the hash index is what it was before the turn and the warning
    of [add_to_hash_db] has been printed. *)
Lemma moved_turn_leaves_index (i : Interaction) (w : Session) (p : string)
    (c : list byte) :
  py_index (images w) (current_index w) = Some p →
  fs w !! p = Some (File c) →
  (iteration i w).2 = Chose moved →
  hash_db (iteration i w).1 = hash_db w
  ∧ Stdout "Warning: Could not add file to hash database" ∈ console (iteration i w).1.
Proof.
  intros Hidx Hp. unfold iteration. rewrite Hidx.
  assert (Hex : OS.path_exists (fs w) p = true)
    by (unfold OS.path_exists; by rewrite Hp).
  rewrite Hex. cbn [negb].
  destruct (is_duplicate _ _ _ _) as [[[is_dup dup_type] original] out].
  assert (Hpresent : ∀ w', fs w' = fs w → hash_db w' = hash_db w →
    (present i w' p).2 = Chose moved →
    hash_db (present i w' p).1 = hash_db w
    ∧ Stdout "Warning: Could not add file to hash database" ∈ console (present i w' p).1).
  { intros w' Hfs Hdb. unfold present.
    destruct (negb (OS.path_exists (fs w') p)); [done|].
    destruct (negb (viewer_opens i)); [done|].
    destruct (CliUi.get_keypress i) as [choice|]; [|done].
    destruct (_handle_choice _ _ _ _ _) as [w1 r] eqn:Hc.
    destruct r; try done;
      try (destruct (_handle_duplicate _ _ _ _); done).
    apply handle_choice_moved with (c := c) in Hc as [Hgone Hdb1];
      [|by rewrite Hfs].
    unfold add_to_hash_db, compute_file_hash, OS.read. rewrite Hgone.
    simpl. intros _. split; [congruence|].
    apply elem_of_app. right. apply list_elem_of_here. }
  destruct is_dup; [|by apply Hpresent].
  cbn [auto_move_duplicates emit set_console].
  destruct (auto_move_duplicates w); [|by apply Hpresent].
  destruct (_handle_duplicate _ _ _ _) as [w2|]; [done | by apply Hpresent].
Qed.

End MovedTurn.

Lemma moved_turn_leaves_index_run :
  hash_db (iteration (Demo.answer "n" "Vacation") Demo.twins).1 = hash_db Demo.twins.
Proof.
  apply (moved_turn_leaves_index (Demo.answer "n" "Vacation") Demo.twins
           "/r/a.jpg" Demo.jpeg); vm_compute; reflexivity.
Defined.

(** ** Two identical files *)

(** C1 on the code. Two photos with identical bytes; the first is sorted
    into the new folder [Vacation], then the user skips. The move
    succeeds, but [add_to_hash_db] is handed the path the photo has just
    left, cannot read it and only warns: the index stays empty. The
    second photo is therefore not classified as a duplicate, stays where
    it is, and [duplicate_count] is 0. Had the index been given the new
    location, the second photo would be an exact duplicate. *)
Theorem identical_second_photo_not_detected :
  let r := _sorting_loop [Demo.answer "n" "Vacation"; Demo.answer "s" ""] Demo.twins in
  r.2 = [Chose moved; Chose skipped]
  ∧ fs r.1 !! "/r/Vacation/a.jpg" = Some (File Demo.jpeg)
  ∧ hashes (hash_db r.1) = []
  ∧ Stdout "Warning: Could not add file to hash database" ∈ console r.1
  ∧ (is_duplicate (fs r.1) "/r/b.jpg" (hash_db r.1) 5).1 = (false, None, None)
  ∧ fs r.1 !! "/r/b.jpg" = Some (File Demo.jpeg)
  ∧ sorted_count r.1 = 1 ∧ duplicate_count r.1 = 0
  ∧ (is_duplicate (fs r.1) "/r/b.jpg"
       (add_to_hash_db (fs r.1) "/r/Vacation/a.jpg" (hash_db r.1)).1 5).1
    = (true, Some "exact", Some "Vacation/a.jpg").
Proof.
  vm_compute. repeat split. apply list_elem_of_lookup. by exists 4%nat.
Qed.

(** * Further properties of the code *)

(** ** The hash database: lookup by content hash *)

Section IndexLookup.
Context `{E : Env}.

Lemma first_with_sha256_split (items : list (string * HashEntry)) (sha : string) :
  match first_with_sha256 items sha with
  | Some p =>
      ∃ before e after,
        items = (before ++ (p, e) :: after)%list ∧ entry_sha256 e = sha
        ∧ Forall (λ item, entry_sha256 item.2 ≠ sha) before
  | None => Forall (λ item, entry_sha256 item.2 ≠ sha) items
  end.
Proof.
  induction items as [|[p e] r IH]; simpl; [constructor|].
  case_bool_decide as Hd.
  - exists [], e, r. by repeat split.
  - destruct (first_with_sha256 r sha) as [p'|].
    + destruct IH as (before & e' & after & -> & He & Hb).
      exists ((p, e) :: before), e', after. repeat split; [done|].
      by constructor.
    + by constructor.
Qed.

(** [get_by_sha256] answers with the path of the first record, in storage
    order, whose content hash is the one asked for: no record before it
    has that hash; it answers none exactly when no record has it. *)
Theorem get_by_sha256_first_match (db : HashDatabase) (sha : string) :
  match get_by_sha256 db sha with
  | Some p =>
      ∃ before e after,
        hashes db = (before ++ (p, e) :: after)%list ∧ entry_sha256 e = sha
        ∧ Forall (λ item, entry_sha256 item.2 ≠ sha) before
  | None => Forall (λ item, entry_sha256 item.2 ≠ sha) (hashes db)
  end.
Proof. apply first_with_sha256_split. Qed.

Lemma dict_set_keys_order {V} (k : string) (v : V) (d : list (string * V)) :
  (dict_set k v d).*1 = if bool_decide (k ∈ d.*1) then d.*1 else (d.*1 ++ [k])%list.
Proof.
  induction d as [|[k' v'] r IH]; csimpl; [done|].
  destruct (decide (k' = k)) as [->|Hk].
  - rewrite !bool_decide_true; [done | apply list_elem_of_here | done].
  - rewrite (bool_decide_false (k' = k)) by done. csimpl. rewrite IH.
    destruct (decide (k ∈ r.*1)) as [Hin|Hin].
    + rewrite !bool_decide_true; [done | by apply list_elem_of_further | done].
    + rewrite !bool_decide_false; [done | | done].
      intros [->|?]%elem_of_cons; done.
Qed.

(** [add_hash] keeps the index a dict: the paths already stored stay in
    their order, the path added goes last if it is new and keeps its
    place if it is not, and paths that were pairwise different stay so. *)
Theorem add_hash_keeps_order (db : HashDatabase) (filepath sha : string)
    (phash : option string) :
  let keys := (hashes db).*1 in
  let keys' := (hashes (add_hash db filepath sha phash)).*1 in
  keys' = (if bool_decide (rel_key db filepath ∈ keys) then keys
           else keys ++ [rel_key db filepath])%list
  ∧ (NoDup keys → NoDup keys')
  ∧ db_root_dir (add_hash db filepath sha phash) = db_root_dir db.
Proof.
  intros keys keys'.
  assert (Hk : keys' = (if bool_decide (rel_key db filepath ∈ keys) then keys
                        else keys ++ [rel_key db filepath])%list)
    by apply dict_set_keys_order.
  split; [exact Hk|]. split; [|done].
  intros Hnd. rewrite Hk. case_bool_decide as Hin; [done|].
  apply NoDup_app. split; [done|]. split; [|apply NoDup_singleton].
  intros x Hx ->%list_elem_of_singleton. done.
Qed.

(** A match found under one threshold is the match found under every
    larger threshold. *)
Theorem find_similar_threshold_monotone (db : HashDatabase) (phash : string)
    (t t' : Z) (p : string) (d : Z) :
  find_similar_by_phash db phash t = Some (p, d) →
  t ≤ t' →
  find_similar_by_phash db phash t' = Some (p, d).
Proof.
  rewrite !find_similar_by_phash_unfold. unfold nearest_within.
  destruct PERCEPTUAL_HASH_AVAILABLE; [|done].
  destruct (hex_to_hash phash) as [sh|]; [|done].
  destruct (first_min (candidates sh (hashes db))) as [[p' d']|]; [|done].
  destruct (d' <=? t) eqn:Hle; [|done].
  intros H Ht. assert ((d' <=? t') = true) as -> by lia. exact H.
Qed.

End IndexLookup.

Lemma find_similar_threshold_monotone_run :
  find_similar_by_phash Data.one_record "000000000000000f" 9 = Some ("a.jpg", 4).
Proof.
  apply (find_similar_threshold_monotone Data.one_record "000000000000000f" 4 9).
  - vm_compute. reflexivity.
  - lia.
Defined.

Lemma add_hash_keeps_order_run :
  NoDup (hashes (add_hash Data.one_record "/r/b.jpg" "00" None)).*1.
Proof.
  apply (add_hash_keeps_order Data.one_record "/r/b.jpg" "00" None).
  apply NoDup_singleton.
Defined.

(** ** The duplicate classifier: what an answer means *)

Section ClassifierSound.
Context `{E : Env}.

Lemma candidates_elem (sh : ImageHash) (items : list (string * HashEntry))
    (p : string) (d : Z) :
  (p, d) ∈ candidates sh items →
  ∃ e stored sh',
    (p, e) ∈ items ∧ entry_phash e = Some stored
    ∧ hex_to_hash stored = Some sh' ∧ d = Z.of_nat (hash_distance sh sh').
Proof.
  unfold candidates. intros ([q e] & Hin & Hc)%list_elem_of_omap.
  unfold candidate in Hc. simpl in Hc.
  destruct (entry_phash e) as [stored|] eqn:Hs; [|done].
  destruct (negb (truthy stored)); [done|].
  destruct (hex_to_hash stored) as [sh'|] eqn:Hd; [|done].
  injection Hc as <- <-. by exists e, stored, sh'.
Qed.

Lemma find_similar_names_a_record (db : HashDatabase) (phash : string) (t : Z)
    (p : string) (d : Z) :
  find_similar_by_phash db phash t = Some (p, d) →
  p ≠ "" ∧ d ≤ t ∧ PERCEPTUAL_HASH_AVAILABLE = true
  ∧ ∃ sh e stored sh',
      hex_to_hash phash = Some sh ∧ (p, e) ∈ hashes db
      ∧ entry_phash e = Some stored ∧ hex_to_hash stored = Some sh'
      ∧ d = Z.of_nat (hash_distance sh sh').
Proof.
  rewrite find_similar_by_phash_unfold. unfold nearest_within.
  destruct PERCEPTUAL_HASH_AVAILABLE; [|done].
  destruct (hex_to_hash phash) as [sh|]; [|done].
  destruct (first_min (candidates sh (hashes db))) as [[p' d']|] eqn:Hm; [|done].
  destruct (d' <=? t) eqn:Hle; [|done].
  destruct (truthy p') eqn:Hp; [|done]. intros [= <- <-].
  split. { unfold truthy in Hp. by case_bool_decide. }
  split; [lia|]. split; [done|].
  apply first_min_least in Hm as (l1 & l2 & Hl & _ & _).
  destruct (candidates_elem sh (hashes db) p' d') as (e & stored & sh' & H);
    [rewrite Hl; apply elem_of_app; right; apply list_elem_of_here|].
  destruct H as (Hin & Hst & Hsh' & Hd).
  by exists sh, e, stored, sh'.
Qed.

(** Whenever [is_duplicate] answers yes, the original it names is the
    non-empty path of a record of the index, and that record either has
    the content hash of the file (exact) or a perceptual hash within the
    threshold of the file's (similar, only with perceptual hashing
    available); whenever it answers no, type and original are [None]. *)
Theorem is_duplicate_sound (disk : FS) (filepath : string) (db : HashDatabase) (t : Z) :
  match (is_duplicate disk filepath db t).1 with
  | (true, ty, orig) =>
      ∃ c p e,
        OS.read disk filepath = Some c ∧ orig = Some p ∧ p ≠ "" ∧ (p, e) ∈ hashes db
        ∧ ((ty = Some "exact" ∧ entry_sha256 e = sha256 c)
           ∨ (ty = Some "similar" ∧ PERCEPTUAL_HASH_AVAILABLE = true
              ∧ ∃ ph stored sh sh',
                  image_phash c = Some ph ∧ entry_phash e = Some stored
                  ∧ hex_to_hash ph = Some sh ∧ hex_to_hash stored = Some sh'
                  ∧ Z.of_nat (hash_distance sh sh') ≤ t))
  | (false, ty, orig) => ty = None ∧ orig = None
  end.
Proof.
  unfold is_duplicate, compute_file_hash, get_by_sha256.
  destruct (OS.read disk filepath) as [c|] eqn:Hread; [simpl|done].
  pose proof (first_with_sha256_split (hashes db) (sha256 c)) as Hfirst.
  destruct (first_with_sha256 (hashes db) (sha256 c)) as [p|]; simpl.
  - destruct (truthy p) eqn:Hp; simpl.
    + destruct Hfirst as (before & e & after & Hl & He & _).
      exists c, p, e. split; [done|]. split; [done|].
      split. { unfold truthy in Hp. by case_bool_decide. }
      split; [|by left].
      rewrite Hl. apply elem_of_app. right. apply list_elem_of_here.
    + clear Hfirst. destruct PERCEPTUAL_HASH_AVAILABLE eqn:Hav; [|done].
      unfold compute_perceptual_hash. rewrite Hav, Hread. simpl.
      destruct (image_phash c) as [ph|] eqn:Hph; simpl; [|done].
      destruct (truthy ph); [|done].
      destruct (find_similar_by_phash db ph t) as [[o d]|] eqn:Hf; [|done].
      apply find_similar_names_a_record in Hf
        as (Ho & Hd & _ & sh & e & stored & sh' & Hsh & Hin & Hst & Hsh' & ->).
      exists c, o, e. repeat split; try done. right.
      repeat split; try done. by exists ph, stored, sh, sh'.
  - clear Hfirst. destruct PERCEPTUAL_HASH_AVAILABLE eqn:Hav; [|done].
    unfold compute_perceptual_hash. rewrite Hav, Hread. simpl.
    destruct (image_phash c) as [ph|] eqn:Hph; simpl; [|done].
    destruct (truthy ph); [|done].
    destruct (find_similar_by_phash db ph t) as [[o d]|] eqn:Hf; [|done].
    apply find_similar_names_a_record in Hf
      as (Ho & Hd & _ & sh & e & stored & sh' & Hsh & Hin & Hst & Hsh' & ->).
    exists c, o, e. repeat split; try done. right.
    repeat split; try done. by exists ph, stored, sh, sh'.
Qed.

Lemma dict_set_elem {V} (k : string) (v : V) (d : list (string * V)) :
  (k, v) ∈ dict_set k v d.
Proof.
  induction d as [|[k' v'] r IH]; simpl; [apply list_elem_of_here|].
  case_bool_decide; [apply list_elem_of_here | by apply list_elem_of_further].
Qed.

(** Once a readable file has been handed to [add_to_hash_db], every file
    with the same bytes, the file itself included, is classified as an
    exact duplicate of a record with those bytes' hash, without a
    perceptual hash being computed for it. *)
Theorem indexed_bytes_are_exact_duplicates (disk : FS) (p q : string) (c : list byte)
    (db : HashDatabase) (t : Z) :
  disk !! p = Some (File c) →
  disk !! q = Some (File c) →
  p ≠ "" →
  paths_nonempty db →
  ∃ orig e,
    (orig, e) ∈ hashes (add_to_hash_db disk p db).1
    ∧ entry_sha256 e = sha256 c
    ∧ is_duplicate disk q (add_to_hash_db disk p db).1 t
      = ((true, Some "exact", Some orig), []).
Proof.
  intros Hp Hq Hne Hdb.
  assert (Hadd : ∃ ph, (add_to_hash_db disk p db).1 = add_hash db p (sha256 c) ph).
  { unfold add_to_hash_db, compute_file_hash, OS.read. rewrite Hp. simpl.
    destruct (if PERCEPTUAL_HASH_AVAILABLE then _ else _) as [ph out]. by exists ph. }
  destruct Hadd as [ph ->].
  assert (Hne' : paths_nonempty (add_hash db p (sha256 c) ph))
    by by apply add_hash_paths_nonempty.
  assert (Hrec : ∃ item, item ∈ hashes (add_hash db p (sha256 c) ph)
                         ∧ entry_sha256 item.2 = sha256 c)
    by (eexists; split; [apply dict_set_elem | done]).
  remember (add_hash db p (sha256 c) ph) as db' eqn:Hdb'. clear Hdb'.
  destruct (first_with_sha256_found (hashes db') (sha256 c) Hrec)
    as (o & e & Hf & Hin & He).
  exists o, e. split; [done|]. split; [done|].
  unfold is_duplicate, compute_file_hash, OS.read, get_by_sha256. rewrite Hq. simpl.
  rewrite Hf. simpl.
  unfold paths_nonempty in Hne'. rewrite Forall_forall in Hne'.
  specialize (Hne' _ Hin). simpl in Hne'.
  unfold truthy. by rewrite bool_decide_false.
Qed.

End ClassifierSound.

Lemma indexed_bytes_are_exact_duplicates_run :
  ∃ orig e,
    (orig, e) ∈ hashes (add_to_hash_db Demo.twins_disk "/r/a.jpg"
                          {| db_root_dir := "/r"; hashes := [] |}).1
    ∧ entry_sha256 e = sha256 Demo.jpeg
    ∧ is_duplicate Demo.twins_disk "/r/b.jpg"
        (add_to_hash_db Demo.twins_disk "/r/a.jpg"
           {| db_root_dir := "/r"; hashes := [] |}).1 5
      = ((true, Some "exact", Some orig), []).
Proof.
  apply (indexed_bytes_are_exact_duplicates Demo.twins_disk "/r/a.jpg" "/r/b.jpg"
           Demo.jpeg).
  - vm_compute. reflexivity.
  - vm_compute. reflexivity.
  - discriminate.
  - constructor.
Defined.

(** ** The state store: persistence, the skipped set, the history as a stack *)


(** [add_skipped_file] treats the list as a set: afterwards the path is
    in it, everything that was in it still is, nothing else is, a list
    without repetitions stays without, adding the path again changes
    nothing, and the action history is not touched. *)
Theorem add_skipped_file_set (s : State) (filepath : string) :
  let skipped := λ st, default [] (skipped_files st) in
  let s' := StateManager.add_skipped_file s filepath in
  filepath ∈ skipped s'
  ∧ (∀ g, g ∈ skipped s' ↔ g ∈ skipped s ∨ g = filepath)
  ∧ (NoDup (skipped s) → NoDup (skipped s'))
  ∧ StateManager.add_skipped_file s' filepath = s'
  ∧ action_history s' = action_history s.
Proof.
  intros skipped s'.
  assert (Hs' : skipped s' = if bool_decide (filepath ∈ skipped s) then skipped s
                             else (skipped s ++ [filepath])%list) by reflexivity.
  assert (Hin : filepath ∈ skipped s').
  { rewrite Hs'. case_bool_decide; [done|].
    apply elem_of_app. right. apply list_elem_of_here. }
  split; [exact Hin|]. split; [|split; [|split; [|done]]].
  - intros g. rewrite Hs'. case_bool_decide as Hd.
    + split; [by left | by intros [?| ->]].
    + rewrite elem_of_app, list_elem_of_singleton. done.
  - intros Hnd. rewrite Hs'. case_bool_decide as Hd; [done|].
    apply NoDup_app. split; [done|]. split; [|apply NoDup_singleton].
    intros x Hx ->%list_elem_of_singleton. done.
  - unfold StateManager.add_skipped_file at 1.
    change (default [] (skipped_files s')) with (skipped s').
    rewrite bool_decide_true by done.
    unfold s', StateManager.add_skipped_file, StateManager.set_skipped_files.
    simpl. done.
Qed.

Lemma add_skipped_file_set_run :
  NoDup (default [] (skipped_files
           (StateManager.add_skipped_file
              (StateManager.add_skipped_file StateManager.default_state "/r/a.jpg")
              "/r/a.jpg"))).
Proof.
  apply (add_skipped_file_set
           (StateManager.add_skipped_file StateManager.default_state "/r/a.jpg")
           "/r/a.jpg").
  apply NoDup_singleton.
Defined.

Lemma pop_history (s : State) :
  history_of (StateManager.pop_last_action s) = removelast (history_of s).
Proof.
  unfold history_of, StateManager.pop_last_action.
  destruct (action_history s) as [[|x l]|] eqn:Hh; simpl; rewrite ?Hh; done.
Qed.

(** The history is a stack. Recording an action that is not yet in the
    history makes it the last action, and popping then gives the history
    back; on an empty or absent history [get_last_action] returns none and
    [pop_last_action] leaves the history empty; in general
    [pop_last_action] removes exactly the last entry. *)
Theorem history_push_pop (s : State) (a : Action) :
  (a ∉ history_of s →
     (StateManager.get_last_action (StateManager.add_action_to_history s a)).2 = Some a
     ∧ history_of (StateManager.pop_last_action (StateManager.add_action_to_history s a))
       = history_of s)
  ∧ (history_of s = [] →
       (StateManager.get_last_action s).2 = None
       ∧ history_of (StateManager.get_last_action s).1 = []
       ∧ history_of (StateManager.pop_last_action s) = [])
  ∧ history_of (StateManager.pop_last_action s) = removelast (history_of s)
  ∧ (StateManager.get_last_action s).2 = last (history_of s).
Proof.
  split; [|split; [|split]].
  - intros Hout. split.
    + unfold StateManager.get_last_action, StateManager.add_action_to_history.
      simpl. fold (history_of s). rewrite bool_decide_false by done.
      apply last_snoc.
    + rewrite pop_history.
      unfold history_of at 1, StateManager.add_action_to_history. simpl.
      fold (history_of s). rewrite bool_decide_false by done.
      apply removelast_last.
  - intros Hempty. unfold history_of in *.
    unfold StateManager.get_last_action, StateManager.pop_last_action.
    destruct (action_history s) as [[|x l]|] eqn:Hh; simpl in *;
      rewrite ?Hh; done.
  - apply pop_history.
  - unfold StateManager.get_last_action, history_of.
    destruct (action_history s); done.
Qed.

Lemma history_push_pop_run :
  (StateManager.get_last_action
     (StateManager.add_action_to_history (Data.with_history [Data.move_a]) Data.delete_b)).2
  = Some Data.delete_b
  ∧ history_of (StateManager.pop_last_action
                  (StateManager.add_action_to_history
                     (Data.with_history [Data.move_a]) Data.delete_b))
    = [Data.move_a].
Proof.
  apply (proj1 (history_push_pop (Data.with_history [Data.move_a]) Data.delete_b)).
  intros H%list_elem_of_singleton. discriminate H.
Defined.

(** ** Paths: separators, names and parents *)

Lemma append_cons (c : ascii) (r s : string) : String c r +:+ s = String c (r +:+ s).
Proof. reflexivity. Qed.

Lemma append_nil_r (s : string) : s +:+ "" = s.
Proof. induction s as [|c r IH]; [done|]. by rewrite append_cons, IH. Qed.

Lemma append_assoc (a b c : string) : (a +:+ b) +:+ c = a +:+ b +:+ c.
Proof. induction a as [|x r IH]; [done|]. by rewrite !append_cons, IH. Qed.

Lemma length_append (a b : string) :
  String.length (a +:+ b) = (String.length a + String.length b)%nat.
Proof. induction a as [|x r IH]; [done|]. rewrite append_cons. simpl. by rewrite IH. Qed.

Lemma append_inj_r (x y e : string) : x +:+ e = y +:+ e → x = y.
Proof.
  revert y. induction x as [|c x IH]; intros [|c' y] H.
  - done.
  - apply (f_equal String.length) in H. rewrite !length_append in H. simpl in H. lia.
  - apply (f_equal String.length) in H. rewrite !length_append in H. simpl in H. lia.
  - rewrite !append_cons in H. injection H as -> H. f_equal. by apply IH.
Qed.

Lemma has_sep_append (a b : string) :
  Path.has_sep (a +:+ b) = Path.has_sep a || Path.has_sep b.
Proof.
  induction a as [|c r IH]; [done|]. rewrite append_cons. simpl.
  rewrite IH. by rewrite orb_assoc.
Qed.

Lemma basename_no_sep (p : string) : Path.has_sep (Path.basename p) = false.
Proof.
  induction p as [|c r IH]; simpl; [done|].
  destruct (Path.has_sep r) eqn:Hr; [done|].
  destruct (Path.is_sep c) eqn:Hc; [done|]. simpl. by rewrite Hc, Hr.
Qed.

Lemma basename_plain (s : string) : Path.has_sep s = false → Path.basename s = s.
Proof.
  destruct s as [|c r]; simpl; [done|].
  intros [Hc Hr]%orb_false_elim. by rewrite Hr, Hc.
Qed.

Lemma head_plain (s : string) : Path.has_sep s = false → Path.head s = "".
Proof.
  destruct s as [|c r]; simpl; [done|].
  intros [Hc Hr]%orb_false_elim. by rewrite Hr, Hc.
Qed.

Lemma split_last_dot_append (s a b : string) :
  Path.split_last_dot s = Some (a, b) → s = a +:+ b.
Proof.
  revert a. induction s as [|c r IH]; intros a; simpl; [done|].
  destruct (Path.split_last_dot r) as [[a' b']|].
  - intros [= <- <-]. rewrite append_cons. f_equal. by apply IH.
  - case_bool_decide; [|done]. by intros [= <- <-].
Qed.

(** The two parts [os.path.splitext] gives for a bare name put together
    are the name again, and neither holds a separator. *)
Lemma splitext_plain (name base ext : string) :
  Path.has_sep name = false →
  Path.splitext name = (base, ext) →
  name = base +:+ ext ∧ Path.has_sep base = false ∧ Path.has_sep ext = false.
Proof.
  intros Hn. unfold Path.splitext.
  rewrite (basename_plain _ Hn), (head_plain _ Hn).
  assert (Hres : ∀ b e, name = b +:+ e →
            name = b +:+ e ∧ Path.has_sep b = false ∧ Path.has_sep e = false).
  { intros b e Hbe. split; [done|]. rewrite Hbe, has_sep_append in Hn.
    by apply orb_false_elim in Hn. }
  destruct (Path.split_last_dot name) as [[stem e]|] eqn:Hs.
  - destruct (Path.all_dots stem).
    + intros [= <- <-]. apply Hres. by rewrite append_nil_r.
    + intros [= <- <-]. apply Hres. simpl. by apply split_last_dot_append.
  - intros [= <- <-]. apply Hres. by rewrite append_nil_r.
Qed.

Lemma pretty_N_go_no_sep (x : N) (s : string) :
  Path.has_sep (pretty_N_go x s) = Path.has_sep s.
Proof.
  revert s. induction (N.lt_wf_0 x) as [x _ IH]; intros s.
  destruct (decide (x = 0)%N) as [->|Hx]; [by rewrite pretty_N_go_0|].
  rewrite pretty_N_go_step by lia. rewrite IH by (apply N.div_lt; lia).
  simpl. unfold pretty_N_char. by repeat case_match.
Qed.

Lemma pretty_nat_no_sep (n : nat) : Path.has_sep (pretty n) = false.
Proof.
  unfold pretty, pretty_nat, pretty, pretty_N.
  case_decide; [done|]. by rewrite pretty_N_go_no_sep.
Qed.

Lemma join_plain (d name : string) :
  Path.has_sep name = false → Path.join d name = join_prefix d +:+ name.
Proof.
  intros Hn. unfold Path.join, join_prefix.
  assert (Path.starts_with_sep name = false) as ->.
  { destruct name as [|c r]; [done|]. simpl in *. by apply orb_false_elim in Hn as [-> _]. }
  destruct (_ || _); [done|]. by rewrite append_assoc.
Qed.

Lemma head_of_child (d name : string) :
  Path.has_sep name = false → Path.head (d +:+ "/" +:+ name) = d +:+ "/".
Proof.
  intros Hn.
  assert (Hs : Path.has_sep ("/" +:+ name) = true) by done.
  assert (Hh : Path.head ("/" +:+ name) = "/").
  { change ("/" +:+ name) with (String "/" name). simpl. by rewrite Hn. }
  generalize dependent ("/" +:+ name). intros s Hs Hh.
  induction d as [|c r IH]; [exact Hh|].
  rewrite !append_cons. cbn [Path.head].
  rewrite has_sep_append, Hs, orb_true_r. by rewrite IH.
Qed.

Lemma rstrip_sep_of_dir (d : string) :
  d ≠ "" → Path.ends_with_sep d = false → Path.rstrip_sep (d +:+ "/") = d.
Proof.
  induction d as [|c r IH]; [done|]. intros _ Hend.
  destruct r as [|c' r'].
  - change (String c "" +:+ "/") with (String c (String "/" "")).
    simpl in *. rewrite Hend. done.
  - rewrite append_cons. cbn [Path.rstrip_sep]. rewrite IH; [|done|exact Hend].
    rewrite bool_decide_false by done. by rewrite andb_false_r.
Qed.

(** [os.path.dirname] of a bare name joined to a directory path is that
    directory path. *)
Lemma dirname_of_child (d name : string) :
  d ≠ "" → Path.ends_with_sep d = false → Path.has_sep name = false →
  Path.dirname (Path.join d name) = d.
Proof.
  intros Hd Hend Hn. rewrite join_plain by done. unfold join_prefix.
  rewrite bool_decide_false by done. rewrite Hend. simpl.
  rewrite append_assoc. unfold Path.dirname.
  rewrite head_of_child by done. rewrite rstrip_sep_of_dir by done.
  by rewrite bool_decide_false.
Qed.

(** ** Moving a photo: a free name is always found, nothing is overwritten *)

Lemma append_inj_l (a x y : string) : a +:+ x = a +:+ y → x = y.
Proof.
  induction a as [|c r IH]; [done|]. rewrite !append_cons. intros [= H]. by apply IH.
Qed.

Lemma numbered_no_sep (base ext : string) (n : nat) :
  Path.has_sep base = false → Path.has_sep ext = false →
  Path.has_sep (base +:+ "_" +:+ pretty n +:+ ext) = false.
Proof.
  intros Hb He. rewrite !has_sep_append, Hb, He, pretty_nat_no_sep. done.
Qed.

Lemma numbered_inj (d base ext : string) (n m : nat) :
  Path.has_sep base = false → Path.has_sep ext = false →
  Path.join d (base +:+ "_" +:+ pretty n +:+ ext)
  = Path.join d (base +:+ "_" +:+ pretty m +:+ ext) →
  n = m.
Proof.
  intros Hb He. rewrite !join_plain by by apply numbered_no_sep.
  intros H. do 3 apply append_inj_l in H. apply append_inj_r in H.
  by apply (inj pretty).
Qed.

Lemma free_dest_path_none (turns : nat) (disk : FS) (d base ext : string) (c : nat) :
  FolderManager.free_dest_path turns disk d base ext c = None →
  ∀ k, (k < turns)%nat →
       OS.path_exists disk (Path.join d (base +:+ "_" +:+ pretty (c + k)%nat +:+ ext)) = true.
Proof.
  revert c. induction turns as [|n IH]; intros c Hnone k Hk; [lia|].
  simpl in Hnone.
  destruct (OS.path_exists disk (Path.join d (base +:+ "_" +:+ pretty c +:+ ext)))
    eqn:Hex; [|done].
  destruct k as [|k'].
  - by rewrite Nat.add_0_r.
  - replace (c + S k')%nat with (S c + k')%nat by lia. apply IH; [done | lia].
Qed.

(** The numbered names are pairwise different, so among [size disk + 1]
    of them one is free: the renaming loop ends within the bound it is
    unrolled to. *)
Lemma free_dest_path_total (disk : FS) (d base ext : string) (c : nat) :
  Path.has_sep base = false → Path.has_sep ext = false →
  is_Some (FolderManager.free_dest_path (S (size disk)) disk d base ext c).
Proof.
  intros Hb He.
  destruct (FolderManager.free_dest_path (S (size disk)) disk d base ext c)
    as [q|] eqn:Hq; [by eexists|].
  exfalso. pose proof (free_dest_path_none _ _ _ _ _ _ Hq) as Hall.
  set (name := λ k : nat, Path.join d (base +:+ "_" +:+ pretty (c + k)%nat +:+ ext)).
  assert (Hnd : NoDup (name <$> seq 0 (S (size disk)))).
  { apply NoDup_fmap_2_strong; [|apply NoDup_seq].
    intros x y _ _ Hxy. apply numbered_inj in Hxy; [lia | done | done]. }
  assert (Hsub : ∀ x, x ∈ name <$> seq 0 (S (size disk)) → x ∈ (map_to_list disk).*1).
  { intros x (k & -> & Hk)%list_elem_of_fmap. apply elem_of_seq in Hk.
    specialize (Hall k ltac:(lia)). unfold OS.path_exists in Hall.
    fold (name k) in Hall.
    destruct (disk !! name k) as [v|] eqn:Hv; [|done].
    apply list_elem_of_fmap. exists (name k, v). split; [done|].
    by apply elem_of_map_to_list. }
  pose proof (submseteq_length _ _ (NoDup_submseteq _ _ Hnd Hsub)) as Hlen.
  rewrite !length_fmap, length_seq, length_map_to_list in Hlen. lia.
Qed.

Lemma free_dest_path_name (turns : nat) (disk : FS) (d base ext : string)
    (c : nat) (q : string) :
  Path.has_sep base = false → Path.has_sep ext = false →
  FolderManager.free_dest_path turns disk d base ext c = Some q →
  ∃ name, q = Path.join d name ∧ Path.has_sep name = false.
Proof.
  intros Hb He. revert c. induction turns as [|n IH]; intros c; simpl; [done|].
  destruct (OS.path_exists disk (Path.join d (base +:+ "_" +:+ pretty c +:+ ext)));
    [apply IH|].
  intros [= <-]. eexists. split; [done|]. by apply numbered_no_sep.
Qed.

Lemma move_photo_effect (disk disk' : FS) (src dest_folder np : string)
    (c : list byte) :
  disk !! src = Some (File c) →
  FolderManager.move_photo disk src dest_folder = Some (disk', np) →
  OS.isdir disk dest_folder = true
  ∧ disk !! np = None
  ∧ (∃ name, np = Path.join dest_folder name ∧ Path.has_sep name = false)
  ∧ disk' !! np = Some (File c)
  ∧ disk' !! src = None
  ∧ (∀ k, k ≠ src → k ≠ np → disk' !! k = disk !! k).
Proof.
  intros Hsrc. unfold FolderManager.move_photo.
  destruct (negb (OS.path_exists disk src)); [done|].
  destruct (negb (OS.path_exists disk dest_folder)); [done|].
  destruct (OS.isdir disk dest_folder) eqn:Hdir; [|done]. cbn [negb].
  set (filename := Path.basename src).
  assert (Hfn : Path.has_sep filename = false) by apply basename_no_sep.
  assert (Hfree : ∀ q,
    (if OS.path_exists disk (Path.join dest_folder filename)
     then let '(base, ext) := Path.splitext filename in
          FolderManager.free_dest_path (S (size disk)) disk dest_folder base ext 1
     else Some (Path.join dest_folder filename)) = Some q →
    OS.path_exists disk q = false
    ∧ ∃ name, q = Path.join dest_folder name ∧ Path.has_sep name = false).
  { intros q. destruct (OS.path_exists disk (Path.join dest_folder filename)) eqn:Hex.
    - destruct (Path.splitext filename) as [base ext] eqn:Hsp.
      destruct (splitext_plain _ _ _ Hfn Hsp) as (_ & Hb & He).
      intros Hq. split; [by apply free_dest_path_free in Hq|].
      by apply free_dest_path_name in Hq.
    - intros [= <-]. split; [done|]. by exists filename. }
  destruct (if OS.path_exists disk (Path.join dest_folder filename) then _ else _)
    as [q|]; [|done].
  destruct (Hfree q eq_refl) as [Hq Hname]. simpl.
  destruct (OS.shutil_move disk src q) as [d|] eqn:Hmv; [|done].
  intros [= <- <-].
  assert (Hnone : disk !! q = None).
  { unfold OS.path_exists in Hq. by destruct (disk !! q). }
  unfold OS.shutil_move, OS.rename, OS.isdir in Hmv. rewrite Hsrc, Hnone in Hmv.
  destruct (negb (OS.parent_ok disk q)); [done|]. injection Hmv as <-.
  assert (Hne : src ≠ q) by (intros ->; by rewrite Hsrc in Hnone).
  split; [done|]. split; [done|]. split; [done|].
  split; [apply lookup_insert_eq|].
  split; [by rewrite lookup_insert_ne, lookup_delete_eq|].
  intros k Hk1 Hk2. by rewrite lookup_insert_ne, lookup_delete_ne.
Qed.

(** [move_photo], when it returns: the destination folder is a
    directory, the path returned was free and is that folder joined with
    a bare name, the photo's bytes are now there, the source path is
    free, and every other entry of the file system is as it was: nothing
    is overwritten. *)
Theorem move_photo_never_overwrites (disk disk' : FS) (src dest_folder np : string)
    (c : list byte) :
  disk !! src = Some (File c) →
  FolderManager.move_photo disk src dest_folder = Some (disk', np) →
  OS.isdir disk dest_folder = true
  ∧ disk !! np = None
  ∧ (∃ name, np = Path.join dest_folder name ∧ Path.has_sep name = false)
  ∧ disk' !! np = Some (File c)
  ∧ disk' !! src = None
  ∧ (∀ k, k ≠ src → k ≠ np → disk' !! k = disk !! k).
Proof. apply move_photo_effect. Qed.

Lemma move_photo_outcomes (disk : FS) (src dest_folder : string) (c : list byte) :
  (disk !! src = Some (File c) →
   OS.isdir disk dest_folder = true →
   dest_folder ≠ "" → Path.ends_with_sep dest_folder = false →
   is_Some (FolderManager.move_photo disk src dest_folder))
  ∧ (disk !! src = None → FolderManager.move_photo disk src dest_folder = None)
  ∧ (OS.isdir disk dest_folder = false →
     FolderManager.move_photo disk src dest_folder = None).
Proof.
  split; [|split].
  - intros Hsrc Hdir Hne Hend. unfold FolderManager.move_photo.
    assert (OS.path_exists disk src = true) as ->
      by (unfold OS.path_exists; by rewrite Hsrc).
    assert (OS.path_exists disk dest_folder = true) as ->.
    { unfold OS.path_exists, OS.isdir in *. by destruct (disk !! dest_folder). }
    rewrite Hdir. cbn [negb].
    set (filename := Path.basename src).
    assert (Hfn : Path.has_sep filename = false) by apply basename_no_sep.
    assert (Hq : ∃ q name,
      (if OS.path_exists disk (Path.join dest_folder filename)
       then let '(base, ext) := Path.splitext filename in
            FolderManager.free_dest_path (S (size disk)) disk dest_folder base ext 1
       else Some (Path.join dest_folder filename)) = Some q
      ∧ OS.path_exists disk q = false
      ∧ q = Path.join dest_folder name ∧ Path.has_sep name = false).
    { destruct (OS.path_exists disk (Path.join dest_folder filename)) eqn:Hex.
      - destruct (Path.splitext filename) as [base ext] eqn:Hsp.
        destruct (splitext_plain _ _ _ Hfn Hsp) as (_ & Hb & He).
        destruct (free_dest_path_total disk dest_folder base ext 1 Hb He) as [q Hq].
        pose proof (free_dest_path_free _ _ _ _ _ _ _ Hq) as Hfree.
        destruct (free_dest_path_name _ _ _ _ _ _ _ Hb He Hq) as (name & Hn1 & Hn2).
        by exists q, name.
      - exists (Path.join dest_folder filename), filename. by repeat split. }
    destruct Hq as (q & name & -> & Hfree & -> & Hname). simpl.
    assert (Hnd : OS.isdir disk (Path.join dest_folder name) = false).
    { unfold OS.isdir, OS.path_exists in *.
      by destruct (disk !! Path.join dest_folder name). }
    unfold OS.shutil_move, OS.rename, OS.parent_ok. rewrite Hsrc, Hnd.
    rewrite dirname_of_child by done. rewrite Hdir, !orb_true_r. by eexists.
  - intros Hsrc. unfold FolderManager.move_photo, OS.path_exists. by rewrite Hsrc.
  - intros Hdir. unfold FolderManager.move_photo. rewrite Hdir. cbn [negb].
    by repeat case_match.
Qed.

(** [move_photo] cannot fail on a photo that is a file when the
    destination is a directory given by a path without a trailing
    separator: the collision loop finds a free name and the move goes
    through. It fails when the source is missing or the destination is
    missing or not a directory. *)
Theorem move_photo_succeeds (disk : FS) (src dest_folder : string) (c : list byte) :
  (disk !! src = Some (File c) →
   OS.isdir disk dest_folder = true →
   dest_folder ≠ "" → Path.ends_with_sep dest_folder = false →
   is_Some (FolderManager.move_photo disk src dest_folder))
  ∧ (disk !! src = None → FolderManager.move_photo disk src dest_folder = None)
  ∧ (OS.isdir disk dest_folder = false →
     FolderManager.move_photo disk src dest_folder = None).
Proof. apply move_photo_outcomes. Qed.

Lemma move_photo_never_overwrites_run :
  let disk : FS := {[ "/r" := Dir; "/r/a.jpg" := File Demo.jpeg; "/r/T" := Dir;
                      "/r/T/a.jpg" := File [] ]} in
  ∃ disk', FolderManager.move_photo disk "/r/a.jpg" "/r/T" = Some (disk', "/r/T/a_1.jpg")
           ∧ disk' !! "/r/T/a_1.jpg" = Some (File Demo.jpeg)
           ∧ disk' !! "/r/T/a.jpg" = Some (File []).
Proof.
  intros disk.
  destruct (FolderManager.move_photo disk "/r/a.jpg" "/r/T") as [[disk' np]|] eqn:Hm;
    [|by vm_compute in Hm].
  assert (np = "/r/T/a_1.jpg") as -> by (vm_compute in Hm; congruence).
  destruct (move_photo_never_overwrites disk disk' "/r/a.jpg" "/r/T" "/r/T/a_1.jpg"
              Demo.jpeg) as (_ & _ & _ & Hnew & _ & Hold);
    [vm_compute; reflexivity | exact Hm |].
  exists disk'. split; [done|]. split; [exact Hnew|].
  rewrite Hold by discriminate. vm_compute. reflexivity.
Defined.

Lemma move_photo_succeeds_run :
  is_Some (FolderManager.move_photo Demo.twins_disk "/r/a.jpg" "/r").
Proof.
  apply (proj1 (move_photo_succeeds Demo.twins_disk "/r/a.jpg" "/r" Demo.jpeg)).
  - vm_compute. reflexivity.
  - vm_compute. reflexivity.
  - discriminate.
  - reflexivity.
Defined.

(** ** Creating and listing event folders *)

Lemma is_sep_true (c : ascii) : Path.is_sep c = true → c = "/"%char.
Proof. unfold Path.is_sep. by intros ?%bool_decide_eq_true. Qed.

Lemma ancestors_from_last (p pre : string) :
  pre +:+ p ≠ "" → ∃ l, OS.ancestors_from pre p = (l ++ [pre +:+ p])%list.
Proof.
  revert pre. induction p as [|c r IH]; intros pre Hne.
  - rewrite append_nil_r in *. simpl. rewrite bool_decide_false by done. by exists [].
  - cbn [OS.ancestors_from].
    destruct (Path.is_sep c && negb (bool_decide (pre = "")) && negb (Path.ends_with_sep pre))
      eqn:Hc.
    + apply andb_true_iff in Hc as [[Hc _]%andb_true_iff _].
      apply is_sep_true in Hc as ->.
      destruct (IH (pre +:+ "/")) as [l Hl].
      { rewrite append_assoc. done. }
      rewrite Hl. exists (pre :: l). by rewrite append_assoc.
    + destruct (IH (pre +:+ String c "")) as [l Hl].
      { rewrite append_assoc. done. }
      rewrite Hl. exists l. by rewrite append_assoc.
Qed.

Lemma foldl_mkdir_none (l : list string) :
  foldl (λ acc d, acc ≫= λ fs', OS.mkdir_exist_ok fs' d) None l = None.
Proof. induction l as [|d r IH]; simpl; [done | exact IH]. Qed.

(** [os.makedirs], when it returns, leaves a directory at the path. *)
Lemma makedirs_creates (disk disk' : FS) (p : string) :
  p ≠ "" → OS.makedirs disk p = Some disk' → disk' !! p = Some Dir.
Proof.
  intros Hp. unfold OS.makedirs, OS.ancestors.
  destruct (ancestors_from_last p "") as [l ->]; [done|].
  change ("" +:+ p) with p. rewrite foldl_snoc. simpl.
  destruct (foldl _ (Some disk) l) as [d1|]; simpl; [|done].
  unfold OS.mkdir_exist_ok. destruct (d1 !! p) as [[|]|] eqn:Hd; try done.
  - by intros [= <-].
  - intros [= <-]. apply lookup_insert_eq.
Qed.

Lemma join_second_nonempty (a b : string) : b ≠ "" → Path.join a b ≠ "".
Proof.
  intros Hb. unfold Path.join. destruct (Path.starts_with_sep b); [done|].
  destruct (_ || _).
  - destruct a; [done | by rewrite append_cons].
  - destruct a; [by rewrite ?append_cons | by rewrite append_cons].
Qed.

Lemma rstrip_idem (s : string) : FolderManager.rstrip (FolderManager.rstrip s) = FolderManager.rstrip s.
Proof.
  induction s as [|c r IH]; [done|]. cbn [FolderManager.rstrip].
  destruct (FolderManager.is_space c && bool_decide (FolderManager.rstrip r = "")) eqn:Hc;
    [done|].
  cbn [FolderManager.rstrip]. by rewrite IH, Hc.
Qed.

Lemma lstrip_head (s : string) :
  FolderManager.lstrip s = ""
  ∨ ∃ c r, FolderManager.lstrip s = String c r ∧ FolderManager.is_space c = false.
Proof.
  induction s as [|c r IH]; [by left|]. simpl.
  destruct (FolderManager.is_space c) eqn:Hc; [exact IH|]. right. by exists c, r.
Qed.

(** [str.strip] applied twice is [str.strip]. *)
Lemma strip_idem (s : string) :
  FolderManager.strip (FolderManager.strip s) = FolderManager.strip s.
Proof.
  unfold FolderManager.strip.
  destruct (lstrip_head s) as [-> | (c & r & -> & Hc)]; [done|].
  assert (Hr : FolderManager.rstrip (String c r) = String c (FolderManager.rstrip r))
    by (cbn [FolderManager.rstrip]; by rewrite Hc).
  rewrite Hr.
  assert (FolderManager.lstrip (String c (FolderManager.rstrip r))
          = String c (FolderManager.rstrip r)) as -> by (simpl; by rewrite Hc).
  rewrite <- Hr. apply rstrip_idem.
Qed.

(** [create_event_folder] ignores white space around the name: it
    refuses a name that is blank, that holds one of the nine reserved
    characters, or that names something existing in the directory; when
    it returns, the path returned is the directory joined with the
    stripped name, nothing was there before, a directory is there now,
    and every entry that existed is untouched. *)
Theorem create_event_folder_spec (disk : FS) (year_dir name : string) :
  FolderManager.create_event_folder disk year_dir name
  = FolderManager.create_event_folder disk year_dir (FolderManager.strip name)
  ∧ (FolderManager.strip name = "" →
     FolderManager.create_event_folder disk year_dir name = None)
  ∧ (∀ ch, ch ∈ FolderManager.invalid_chars →
           FolderManager.contains_char ch (FolderManager.strip name) = true →
           FolderManager.create_event_folder disk year_dir name = None)
  ∧ (OS.path_exists disk (Path.join year_dir (FolderManager.strip name)) = true →
     FolderManager.create_event_folder disk year_dir name = None)
  ∧ (∀ disk' dest,
       FolderManager.create_event_folder disk year_dir name = Some (disk', dest) →
       dest = Path.join year_dir (FolderManager.strip name)
       ∧ disk !! dest = None
       ∧ disk' !! dest = Some Dir
       ∧ (∀ k n, disk !! k = Some n → disk' !! k = Some n)).
Proof.
  assert (Hblank : negb (truthy name) || bool_decide (FolderManager.strip name = "")
                   = bool_decide (FolderManager.strip name = "")).
  { destruct name; [done|]. unfold truthy. by rewrite bool_decide_false. }
  split; [|split; [|split; [|split]]].
  - unfold FolderManager.create_event_folder. rewrite Hblank, strip_idem.
    unfold truthy. destruct (decide (FolderManager.strip name = "")) as [He|He].
    + by rewrite He.
    + by rewrite !(bool_decide_false _ He).
  - intros He. unfold FolderManager.create_event_folder. rewrite Hblank.
    by rewrite bool_decide_true.
  - intros ch Hch Hc. unfold FolderManager.create_event_folder. rewrite Hblank.
    case_bool_decide; [done|].
    assert (existsb (λ c, FolderManager.contains_char c (FolderManager.strip name))
              FolderManager.invalid_chars = true) as ->; [|done].
    apply existsb_exists. exists ch. split; [by apply list_elem_of_In | done].
  - intros Hex. unfold FolderManager.create_event_folder. rewrite Hblank.
    case_bool_decide; [done|]. destruct (existsb _ _); [done|]. by rewrite Hex.
  - intros disk' dest. unfold FolderManager.create_event_folder. rewrite Hblank.
    case_bool_decide as He; [done|]. destruct (existsb _ _); [done|].
    destruct (OS.path_exists disk _) eqn:Hex; [done|].
    destruct (OS.makedirs disk _) as [d|] eqn:Hm; [|done].
    intros [= <- <-]. split; [done|]. split.
    { unfold OS.path_exists in Hex. by destruct (disk !! _). }
    split.
    + eapply makedirs_creates; [|exact Hm]. by apply join_second_nonempty.
    + intros k n Hk. eapply makedirs_keeps; eauto.
Qed.

Lemma create_event_folder_spec_run :
  ∃ disk', FolderManager.create_event_folder Demo.twins_disk "/r" "  Trip " = Some (disk', "/r/Trip")
           ∧ disk' !! "/r/Trip" = Some Dir
           ∧ disk' !! "/r/a.jpg" = Some (File Demo.jpeg).
Proof.
  destruct (FolderManager.create_event_folder Demo.twins_disk "/r" "  Trip ")
    as [[disk' dest]|] eqn:Hc; [|by vm_compute in Hc].
  destruct (proj2 (proj2 (proj2 (proj2
              (create_event_folder_spec Demo.twins_disk "/r" "  Trip ")))) disk' dest Hc)
    as (-> & _ & Hdir & Hkeep).
  exists disk'. split; [done|]. split; [exact Hdir|].
  apply Hkeep. vm_compute. reflexivity.
Defined.

Lemma strip_prefix_append (q r : string) : Path.strip_prefix q (q +:+ r) = Some r.
Proof.
  induction q as [|c q IH]; [by destruct r|]. rewrite append_cons. simpl.
  by rewrite bool_decide_true.
Qed.

Lemma strip_prefix_some (q p r : string) : Path.strip_prefix q p = Some r → p = q +:+ r.
Proof.
  revert p. induction q as [|c q IH]; intros p; simpl.
  - by intros [= ->].
  - destruct p as [|c' p]; [done|]. case_bool_decide as Hc; [|done].
    intros H%IH. rewrite append_cons. by subst.
Qed.

(** For a directory path without a trailing separator,
    [list_event_folders] lists exactly the names of the directories
    directly inside it that do not start with a dot; it lists nothing
    when the path is not a directory. *)
Theorem list_event_folders_spec (disk : FS) (year_dir name : string) :
  year_dir ≠ "" → Path.ends_with_sep year_dir = false →
  (name ∈ FolderManager.list_event_folders disk year_dir
   ↔ OS.isdir disk year_dir = true
     ∧ name ≠ "" ∧ Path.has_sep name = false
     ∧ FolderManager.hidden name = false
     ∧ OS.isdir disk (year_dir +:+ "/" +:+ name) = true).
Proof.
  intros Hne Hend.
  assert (Hjoin : ∀ n, Path.has_sep n = false →
            Path.join year_dir n = year_dir +:+ "/" +:+ n).
  { intros n Hn. rewrite join_plain by done. unfold join_prefix.
    rewrite bool_decide_false by done. rewrite Hend. simpl. apply append_assoc. }
  unfold FolderManager.list_event_folders. split.
  - destruct (OS.path_exists disk year_dir); cbn [negb]; [|by intros ?%elem_of_nil].
    destruct (OS.isdir disk year_dir); cbn [negb]; [|by intros ?%elem_of_nil].
    intros [HP Hin]%list_elem_of_filter.
    unfold OS.listdir in Hin. apply list_elem_of_omap in Hin as ([p n] & _ & Hchild).
    unfold OS.child_name in Hchild. simpl in Hchild.
    destruct (Path.strip_prefix _ p) as [nm|]; [|done].
    destruct (bool_decide (nm = "")) eqn:Hnm; [done|].
    destruct (Path.has_sep nm) eqn:Hs; [done|]. injection Hchild as ->.
    apply andb_true_iff in HP as [Hh Hd]. rewrite Hjoin in Hd by done.
    split; [done|]. split; [by apply bool_decide_eq_false in Hnm|].
    split; [done|]. split; [by destruct (FolderManager.hidden name)|done].
  - intros (Hd & Hn & Hs & Hh & Hsub).
    assert (OS.path_exists disk year_dir = true) as ->.
    { unfold OS.path_exists, OS.isdir in *. by destruct (disk !! year_dir). }
    rewrite Hd. cbn [negb]. apply list_elem_of_filter. split.
    + rewrite Hh, Hjoin by done. by rewrite Hsub.
    + unfold OS.listdir. apply list_elem_of_omap.
      exists (year_dir +:+ "/" +:+ name, Dir). split.
      * apply elem_of_map_to_list. unfold OS.isdir in Hsub.
        by destruct (disk !! (year_dir +:+ "/" +:+ name)) as [[|]|].
      * unfold OS.child_name. simpl. rewrite <- append_assoc, strip_prefix_append.
        rewrite bool_decide_false by done. by rewrite Hs.
Qed.

Lemma list_event_folders_spec_run :
  "Trip" ∈ FolderManager.list_event_folders
             {[ "/r" := Dir; "/r/Trip" := Dir; "/r/.trash" := Dir; "/r/a.jpg" := File [] ]}
             "/r".
Proof.
  apply list_event_folders_spec; [discriminate | reflexivity |].
  vm_compute. repeat split; discriminate.
Defined.

(** ** The sorting loop: lists without repetitions, and checkpoints *)

Lemma NoDup_snoc_fresh {A} (l : list A) (x : A) : x ∉ l → NoDup l → NoDup (l ++ [x]).
Proof.
  intros Hx Hl. apply NoDup_app. split; [done|]. split; [|apply NoDup_singleton].
  intros y Hy ->%list_elem_of_singleton. done.
Qed.

Lemma NoDup_removelast {A} (l : list A) : NoDup l → NoDup (removelast l).
Proof.
  destruct l as [|x l] using rev_ind; [done|].
  rewrite removelast_last. by intros [? _]%NoDup_app.
Qed.

Section Tidy.
Context `{E : Env}.

Lemma tidy_same_state (w w' : Session) : state w' = state w → tidy w → tidy w'.
Proof. unfold tidy. by intros ->. Qed.

Lemma tidy_record_action (a : Action) (w : Session) : tidy w → tidy (record_action a w).
Proof.
  intros [Hh Hs]. split; [|done]. unfold record_action. simpl.
  unfold history_of, StateManager.add_action_to_history. simpl.
  fold (history_of (state w)). case_bool_decide; [done|]. by apply NoDup_snoc_fresh.
Qed.

Lemma tidy_save_state (w : Session) : tidy w → tidy (save_state w).
Proof. intros H. exact H. Qed.

Lemma tidy_undo (w : Session) : tidy w → tidy (_undo_last_action w).
Proof.
  intros Hw. unfold _undo_last_action, StateManager.get_last_action, undo_branch.
  destruct (action_history (state w)) as [[|x l]|] eqn:Hh; try exact Hw.
  destruct (last (x :: l)) as [a|];
    [|eapply tidy_same_state; [|exact Hw]; by destruct w].
  cbn [fs set_state].
  assert (Hw0 : tidy (set_state (state w) w)) by (by destruct w).
  destruct (OS.path_exists _ _); [|exact Hw0].
  destruct (OS.shutil_move _ _ _); [|exact Hw0].
  destruct Hw as [Hhist Hskip]. split.
  - unfold history_of in *. destruct (action a); simpl;
      unfold StateManager.pop_last_action; rewrite Hh; simpl;
      rewrite Hh in Hhist; apply (NoDup_removelast (x :: l) Hhist).
  - destruct (action a); simpl; unfold StateManager.pop_last_action;
      rewrite Hh; exact Hskip.
Qed.

Lemma tidy_move_and_record (w : Session) (p d : string) (ok failed : list Event) :
  tidy w → tidy (move_and_record w p d ok failed).1.
Proof.
  intros Hw. unfold move_and_record.
  destruct (FolderManager.move_photo _ _ _) as [[fs' np]|]; [|exact Hw].
  apply (tidy_record_action _ (set_fs fs' w)). exact Hw.
Qed.

Lemma tidy_handle_choice (i : Interaction) (w : Session) (choice : ascii)
    (p : string) (folders : list string) :
  tidy w → tidy (_handle_choice i w choice p folders).1.
Proof.
  intros Hw. unfold _handle_choice.
  destruct (isdigit choice).
  { destruct (_ && _); [|exact Hw].
    destruct (_ !! _); [|exact Hw]. by apply tidy_move_and_record. }
  destruct (bool_decide (choice = "N"%char)).
  { destruct (CliUi.prompt_new_folder_name i) as [name|]; [|exact Hw].
    destruct (FolderManager.create_event_folder _ _ _) as [[fs1 d]|]; [|exact Hw].
    apply (tidy_move_and_record (set_fs fs1 w)). exact Hw. }
  destruct (bool_decide (choice = "S"%char)); [exact Hw|].
  destruct (bool_decide (choice = "U"%char)); [exact Hw|].
  destruct (bool_decide (choice = "D"%char)).
  { destruct (CliUi.prompt_confirmation i); [|exact Hw].
    apply (tidy_record_action _ (_move_to_trash w p)).
    eapply tidy_same_state; [|exact Hw].
    unfold _move_to_trash. by destruct (OS.shutil_move _ _ _). }
  destruct (bool_decide (choice = "Z"%char)).
  { apply (tidy_undo (emit _ w)). exact Hw. }
  destruct (bool_decide (choice = "Q"%char)); exact Hw.
Qed.

Lemma tidy_present (i : Interaction) (w : Session) (p : string) :
  tidy w → tidy (present i w p).1.
Proof.
  intros Hw. unfold present.
  destruct (negb (OS.path_exists (fs w) p)); [exact Hw|].
  destruct (negb (viewer_opens i)); [exact Hw|].
  destruct (CliUi.get_keypress i) as [choice|]; [|exact Hw].
  pose proof (tidy_handle_choice i w choice p
                (FolderManager.list_event_folders (fs w) (root_dir w)) Hw) as H1.
  destruct (_handle_choice _ _ _ _ _) as [w1 r]. simpl in H1.
  destruct r; try exact H1.
  - destruct (add_to_hash_db _ _ _) as [db out]. exact H1.
  - destruct H1 as [Hh Hs]. split; [exact Hh|]. simpl.
    fold (default [] (skipped_files (state w1))).
    case_bool_decide; [done|]. by apply NoDup_snoc_fresh.
  - destruct (_handle_duplicate _ _ _ _) as [w2|] eqn:Hdup; [|exact H1].
    apply handle_duplicate_fields in Hdup as (Hst & _).
    unfold tidy in *. simpl. by rewrite Hst.
Qed.

Lemma tidy_iteration (i : Interaction) (w : Session) :
  tidy w → tidy (iteration i w).1.
Proof.
  intros Hw. unfold iteration.
  destruct (py_index _ _) as [p|]; [|exact Hw].
  destruct (negb (OS.path_exists (fs w) p)); [exact Hw|].
  destruct (is_duplicate _ _ _ _) as [[[is_dup dup_type] original] out].
  destruct is_dup; [|by apply (tidy_present i (emit out w))].
  cbn [auto_move_duplicates emit set_console].
  destruct (auto_move_duplicates w); [|by apply (tidy_present i (emit _ (emit out w)))].
  destruct (_handle_duplicate _ _ _ _) as [w2|] eqn:Hdup;
    [|by apply (tidy_present i (emit _ (emit out w)))].
  apply handle_duplicate_fields in Hdup as (Hst & _).
  unfold tidy in *. simpl in *. by rewrite Hst.
Qed.

(** Over any run of the loop, a history without repeated entries and a
    skipped list without repeated paths stay without them. *)
Theorem sorting_loop_keeps_lists_tidy (inputs : list Interaction) (w : Session) :
  tidy w → tidy (_sorting_loop inputs w).1.
Proof.
  revert w. induction inputs as [|i rest IH]; intros w Hw; simpl.
  - by destruct (_ <? _).
  - destruct (_ <? _); [|done].
    pose proof (tidy_iteration i w Hw) as H1.
    destruct (iteration i w) as [w1 s]. simpl in H1.
    destruct (leaves_loop s); [done|].
    specialize (IH w1 H1). by destruct (_sorting_loop rest w1).
Qed.


End Tidy.

Lemma sorting_loop_keeps_lists_tidy_run :
  tidy (_sorting_loop [Demo.answer "n" "Vacation"; Demo.answer "s" ""] Demo.twins).1.
Proof.
  apply (sorting_loop_keeps_lists_tidy
           [Demo.answer "n" "Vacation"; Demo.answer "s" ""] Demo.twins).
  split; constructor.
Defined.


(** ** Undoing a turn *)

Lemma mkdir_exist_ok_only_dirs (disk disk' : FS) (d k : string) (n : node) :
  OS.mkdir_exist_ok disk d = Some disk' → disk' !! k = Some n →
  disk !! k = Some n ∨ n = Dir.
Proof.
  unfold OS.mkdir_exist_ok.
  destruct (disk !! d) as [[|]|] eqn:Hd; try done; intros [= <-]; [by left|].
  destruct (decide (k = d)) as [->|Hne].
  - rewrite lookup_insert_eq. intros [= <-]. by right.
  - rewrite lookup_insert_ne by done. by left.
Qed.

Lemma makedirs_only_dirs (disk disk' : FS) (p k : string) (n : node) :
  OS.makedirs disk p = Some disk' → disk' !! k = Some n →
  disk !! k = Some n ∨ n = Dir.
Proof.
  unfold OS.makedirs. generalize (OS.ancestors p). intros l. revert disk.
  induction l as [|d r IH]; intros disk; simpl.
  - intros [= <-]. by left.
  - destruct (OS.mkdir_exist_ok disk d) as [disk1|] eqn:Hm; simpl.
    + intros Hr Hk. destruct (IH _ Hr Hk) as [H1|H1]; [|by right].
      eapply mkdir_exist_ok_only_dirs; eauto.
    + intros Hr. exfalso. revert Hr. clear.
      induction r as [|d' r' IHr]; simpl; [done | exact IHr].
Qed.

Lemma create_event_folder_only_dirs (disk disk' : FS) (year_dir name dest k : string)
    (n : node) :
  FolderManager.create_event_folder disk year_dir name = Some (disk', dest) →
  disk' !! k = Some n → disk !! k = Some n ∨ n = Dir.
Proof.
  unfold FolderManager.create_event_folder.
  destruct (_ || _); [done|]. destruct (existsb _ _); [done|].
  destruct (OS.path_exists _ _); [done|].
  destruct (OS.makedirs _ _) as [d|] eqn:Hm; [|done].
  intros [= <- <-]. eapply makedirs_only_dirs; eauto.
Qed.

(** Moving a file back onto the free path it came from restores the
    file system. *)
Lemma shutil_move_back (fs0 fs1 : FS) (p np : string) (c : list byte) :
  fs0 !! p = Some (File c) → fs0 !! np = None → OS.parent_ok fs0 p = true →
  fs1 !! np = Some (File c) → fs1 !! p = None →
  (∀ k, k ≠ p → k ≠ np → fs1 !! k = fs0 !! k) →
  OS.shutil_move fs1 np p = Some fs0.
Proof.
  intros Hp Hnp Hpar H1np H1p Hrest.
  assert (Hpar1 : OS.parent_ok fs1 p = true).
  { unfold OS.parent_ok in *.
    destruct (bool_decide (Path.dirname p = "")); [done|].
    destruct (bool_decide (Path.dirname p = "/")); [done|]. simpl in *.
    unfold OS.isdir in *.
    destruct (fs0 !! Path.dirname p) as [[|]|] eqn:Hd; try done.
    rewrite Hrest, Hd; [done| |]; intros Heq; rewrite Heq in Hd; congruence. }
  unfold OS.shutil_move. rewrite H1np. unfold OS.isdir at 1. rewrite H1p.
  unfold OS.rename. rewrite Hpar1. cbn [negb]. unfold OS.isdir. rewrite H1p.
  f_equal. apply map_eq. intros k.
  destruct (decide (k = p)) as [->|Hkp]; [by rewrite lookup_insert_eq|].
  rewrite lookup_insert_ne by done.
  destruct (decide (k = np)) as [->|Hknp]; [by rewrite lookup_delete_eq|].
  rewrite lookup_delete_ne by done. by apply Hrest.
Qed.

Section Undo.
Context `{E : Env}.

(** Undo on a session whose last recorded action took a file from its
    old path to a path that was free. *)
Lemma undo_restores (w : Session) (fs0 : FS) (h : list Action) (a : Action)
    (c : list byte) :
  action_history (state w) = Some (h ++ [a])%list →
  fs0 !! old_path a = Some (File c) → fs0 !! new_path a = None →
  OS.parent_ok fs0 (old_path a) = true →
  fs w !! new_path a = Some (File c) → fs w !! old_path a = None →
  (∀ k, k ≠ old_path a → k ≠ new_path a → fs w !! k = fs0 !! k) →
  let w' := _undo_last_action w in
  fs w' = fs0 ∧ current_index w' = current_index w - 1
  ∧ history_of (state w') = h
  ∧ sorted_count w'
    = match action a with Moved => sorted_count w - 1 | Deleted => sorted_count w end
  ∧ deleted_count w'
    = match action a with Moved => deleted_count w | Deleted => deleted_count w - 1 end
  ∧ skipped_count w' = skipped_count w ∧ duplicate_count w' = duplicate_count w
  ∧ hash_db w' = hash_db w ∧ images w' = images w.
Proof.
  intros Hh Hp Hnp Hpar H1np H1p Hrest.
  pose proof (shutil_move_back _ _ _ _ _ Hp Hnp Hpar H1np H1p Hrest) as Hmv.
  unfold _undo_last_action, StateManager.get_last_action. rewrite Hh.
  rewrite last_snoc_history.
  assert (Hm : ∀ x y : Session,
    match (h ++ [a])%list with [] => x | _ :: _ => y end = y)
    by (intros; by destruct h).
  rewrite Hm. unfold undo_branch. cbn [fs set_state].
  assert (Hex : OS.path_exists (fs w) (new_path a) = true)
    by (unfold OS.path_exists; by rewrite H1np).
  rewrite Hex, Hmv.
  assert (Hpop : history_of (StateManager.pop_last_action (state w)) = h).
  { unfold history_of. by rewrite (pop_snoc _ _ _ Hh). }
  destruct (action a); simpl; repeat split; try done; exact Hpop.
Qed.

Lemma move_and_record_effect (w w1 : Session) (p d : string) (ok failed : list Event)
    (c : list byte) :
  fs w !! p = Some (File c) →
  move_and_record w p d ok failed = (w1, moved) →
  ∃ np, fs w !! np = None ∧ fs w1 !! np = Some (File c) ∧ fs w1 !! p = None
    ∧ (∀ k, k ≠ p → k ≠ np → fs w1 !! k = fs w !! k)
    ∧ state w1 = StateManager.add_action_to_history (state w)
                   {| action := Moved; old_path := p; new_path := np |}
    ∧ current_index w1 = current_index w ∧ sorted_count w1 = sorted_count w
    ∧ skipped_count w1 = skipped_count w ∧ deleted_count w1 = deleted_count w
    ∧ duplicate_count w1 = duplicate_count w ∧ images w1 = images w.
Proof.
  intros Hp. unfold move_and_record, retry_after.
  destruct (FolderManager.move_photo _ _ _) as [[fs' np]|] eqn:Hm; [|done].
  intros [= <-].
  destruct (move_photo_effect _ _ _ _ _ _ Hp Hm) as (_ & Hfree & _ & Hnew & Hold & Hrest).
  exists np. by repeat split.
Qed.

Lemma handle_choice_moved_effect (i : Interaction) (w w1 : Session) (choice : ascii)
    (p : string) (folders : list string) (c : list byte) :
  fs w !! p = Some (File c) →
  _handle_choice i w choice p folders = (w1, moved) →
  ∃ (fs0 : FS) (np : string),
    (∀ k n, fs w !! k = Some n → fs0 !! k = Some n)
    ∧ (∀ k n, fs0 !! k = Some n → fs w !! k = Some n ∨ n = Dir)
    ∧ fs0 !! np = None ∧ fs w1 !! np = Some (File c) ∧ fs w1 !! p = None
    ∧ (∀ k, k ≠ p → k ≠ np → fs w1 !! k = fs0 !! k)
    ∧ state w1 = StateManager.add_action_to_history (state w)
                   {| action := Moved; old_path := p; new_path := np |}
    ∧ current_index w1 = current_index w ∧ sorted_count w1 = sorted_count w
    ∧ skipped_count w1 = skipped_count w ∧ deleted_count w1 = deleted_count w
    ∧ duplicate_count w1 = duplicate_count w ∧ images w1 = images w.
Proof.
  intros Hp. unfold _handle_choice.
  destruct (isdigit choice).
  { destruct (_ && _); [|done]. destruct (folders !! _); [|done].
    intros Hm. apply move_and_record_effect with (c := c) in Hm as (np & H); [|done].
    exists (fs w), np. split; [done|]. split; [by left|]. exact H. }
  destruct (bool_decide (choice = "N"%char)).
  { destruct (CliUi.prompt_new_folder_name i) as [name|]; [|done].
    destruct (FolderManager.create_event_folder _ _ _) as [[fs1 dest]|] eqn:Hc;
      [|done].
    intros Hm. apply move_and_record_effect with (c := c) in Hm as (np & H);
      [|simpl; eapply create_event_folder_keeps; eauto].
    exists fs1, np.
    split; [intros k n Hk; eapply create_event_folder_keeps; eauto|].
    split; [intros k n Hk; eapply create_event_folder_only_dirs; eauto|].
    exact H. }
  repeat (match goal with
          | |- context [if ?b then _ else _] => destruct b
          end; try done).
Qed.

Lemma present_moved_effect (i : Interaction) (w : Session) (p : string)
    (c : list byte) :
  fs w !! p = Some (File c) →
  (present i w p).2 = Chose moved →
  let w' := (present i w p).1 in
  ∃ (fs0 : FS) (np : string),
    (∀ k n, fs w !! k = Some n → fs0 !! k = Some n)
    ∧ (∀ k n, fs0 !! k = Some n → fs w !! k = Some n ∨ n = Dir)
    ∧ fs0 !! np = None ∧ fs w' !! np = Some (File c) ∧ fs w' !! p = None
    ∧ (∀ k, k ≠ p → k ≠ np → fs w' !! k = fs0 !! k)
    ∧ action_history (state w')
      = action_history (StateManager.add_action_to_history (state w)
                          {| action := Moved; old_path := p; new_path := np |})
    ∧ current_index w' = current_index w + 1
    ∧ sorted_count w' = sorted_count w + 1
    ∧ skipped_count w' = skipped_count w ∧ deleted_count w' = deleted_count w
    ∧ duplicate_count w' = duplicate_count w ∧ images w' = images w.
Proof.
  intros Hp. unfold present.
  destruct (negb (OS.path_exists (fs w) p)); [done|].
  destruct (negb (viewer_opens i)); [done|].
  destruct (CliUi.get_keypress i) as [choice|]; [|done].
  destruct (_handle_choice _ _ _ _ _) as [w1 r] eqn:Hc.
  destruct r; try done; try (destruct (_handle_duplicate _ _ _ _); done).
  apply handle_choice_moved_effect with (c := c) in Hc
    as (fs0 & np & H1 & H2 & H3 & H4 & H5 & H6 & H7 & H8 & H9 & H10 & H11 & H12 & H13);
    [|done].
  destruct (add_to_hash_db _ _ _) as [db out]. intros _. simpl.
  exists fs0, np. rewrite H7, H8, H9. by repeat split.
Qed.

Lemma iteration_moved_effect (i : Interaction) (w : Session) (p : string)
    (c : list byte) :
  py_index (images w) (current_index w) = Some p →
  fs w !! p = Some (File c) →
  (iteration i w).2 = Chose moved →
  let w' := (iteration i w).1 in
  ∃ (fs0 : FS) (np : string),
    (∀ k n, fs w !! k = Some n → fs0 !! k = Some n)
    ∧ (∀ k n, fs0 !! k = Some n → fs w !! k = Some n ∨ n = Dir)
    ∧ fs0 !! np = None ∧ fs w' !! np = Some (File c) ∧ fs w' !! p = None
    ∧ (∀ k, k ≠ p → k ≠ np → fs w' !! k = fs0 !! k)
    ∧ action_history (state w')
      = action_history (StateManager.add_action_to_history (state w)
                          {| action := Moved; old_path := p; new_path := np |})
    ∧ current_index w' = current_index w + 1
    ∧ sorted_count w' = sorted_count w + 1
    ∧ skipped_count w' = skipped_count w ∧ deleted_count w' = deleted_count w
    ∧ duplicate_count w' = duplicate_count w ∧ images w' = images w.
Proof.
  intros Hidx Hp. unfold iteration. rewrite Hidx.
  assert (Hex : OS.path_exists (fs w) p = true)
    by (unfold OS.path_exists; by rewrite Hp).
  rewrite Hex. cbn [negb].
  destruct (is_duplicate _ _ _ _) as [[[is_dup dup_type] original] out].
  destruct is_dup; [|by apply (present_moved_effect i (emit out w) p c)].
  cbn [auto_move_duplicates emit set_console].
  destruct (auto_move_duplicates w);
    [|by apply (present_moved_effect i (emit _ (emit out w)) p c)].
  destruct (_handle_duplicate _ _ _ _) as [w2|]; [done|].
  by apply (present_moved_effect i (emit _ (emit out w)) p c).
Qed.

(** Sorting a photo and undoing it. The turn moved the file at [p],
    whose folder exists and which no entry of the history names as its
    source. Undo, called on the session the turn left (whatever has been
    printed since), puts the file back at [p] with its bytes; every entry
    the file system had is there again, anything new is a directory (the
    folder made by [N]); cursor, counters, history and hash index are
    what they were before the turn. *)
Theorem move_then_undo (i : Interaction) (w : Session) (p : string)
    (c : list byte) (out : list Event) :
  py_index (images w) (current_index w) = Some p →
  fs w !! p = Some (File c) →
  OS.parent_ok (fs w) p = true →
  (∀ a, a ∈ history_of (state w) → old_path a ≠ p) →
  (iteration i w).2 = Chose moved →
  let w2 := _undo_last_action (emit out (iteration i w).1) in
  fs w2 !! p = Some (File c)
  ∧ (∀ k n, fs w !! k = Some n → fs w2 !! k = Some n)
  ∧ (∀ k n, fs w2 !! k = Some n → fs w !! k = Some n ∨ n = Dir)
  ∧ current_index w2 = current_index w
  ∧ sorted_count w2 = sorted_count w ∧ skipped_count w2 = skipped_count w
  ∧ deleted_count w2 = deleted_count w ∧ duplicate_count w2 = duplicate_count w
  ∧ history_of (state w2) = history_of (state w)
  ∧ hash_db w2 = hash_db w.
Proof.
  intros Hidx Hp Hpar Hhist Hmoved.
  destruct (iteration_moved_effect i w p c Hidx Hp Hmoved)
    as (fs0 & np & H1 & H2 & H3 & H4 & H5 & H6 & H7 & H8 & H9 & H10 & H11 & H12 & H13).
  destruct (moved_turn_leaves_index i w p c Hidx Hp Hmoved) as [Hdb _].
  set (a := {| action := Moved; old_path := p; new_path := np |}) in *.
  assert (Hfresh : a ∉ history_of (state w)) by (intros Ha; by apply (Hhist a Ha)).
  assert (Hh : action_history (state (emit out (iteration i w).1))
               = Some (history_of (state w) ++ [a])%list).
  { simpl. rewrite H7. unfold StateManager.add_action_to_history. simpl.
    fold (history_of (state w)). by rewrite bool_decide_false. }
  assert (Hpar0 : OS.parent_ok fs0 p = true).
  { unfold OS.parent_ok in *.
    destruct (bool_decide (Path.dirname p = "")); [done|].
    destruct (bool_decide (Path.dirname p = "/")); [done|]. simpl in *.
    unfold OS.isdir in *.
    destruct (fs w !! Path.dirname p) as [[|]|] eqn:Hd; try done.
    by rewrite (H1 _ _ Hd). }
  destruct (undo_restores (emit out (iteration i w).1) fs0 (history_of (state w)) a c
              Hh (H1 _ _ Hp) H3 Hpar0 H4 H5 H6)
    as (U1 & U2 & U3 & U4 & U5 & U6 & U7 & U8 & U9).
  cbv zeta. rewrite U1, U2, U3, U4, U5, U6, U7, U8. simpl.
  rewrite H8, H9, H10, H11, H12, Hdb.
  repeat split; try lia; try done; auto.
Qed.

End Undo.

Lemma move_then_undo_run :
  fs (_undo_last_action
        (emit [] (iteration (Demo.answer "n" "Vacation") Demo.twins).1))
  !! "/r/a.jpg" = Some (File Demo.jpeg).
Proof.
  assert (H1 : py_index (images Demo.twins) (current_index Demo.twins)
               = Some "/r/a.jpg") by (vm_compute; reflexivity).
  assert (H2 : fs Demo.twins !! "/r/a.jpg" = Some (File Demo.jpeg))
    by (vm_compute; reflexivity).
  assert (H3 : OS.parent_ok (fs Demo.twins) "/r/a.jpg" = true)
    by (vm_compute; reflexivity).
  assert (H4 : ∀ a, a ∈ history_of (state Demo.twins) → old_path a ≠ "/r/a.jpg")
    by (intros a Ha; by apply elem_of_nil in Ha).
  assert (H5 : (iteration (Demo.answer "n" "Vacation") Demo.twins).2 = Chose moved)
    by (vm_compute; reflexivity).
  exact (proj1 (move_then_undo (Demo.answer "n" "Vacation") Demo.twins "/r/a.jpg"
                  Demo.jpeg [] H1 H2 H3 H4 H5)).
Defined.

Section UndoDelete.
Context `{E : Env}.

Lemma move_to_trash_effect (w : Session) (p : string) (c : list byte) :
  fs w !! p = Some (File c) →
  OS.isdir (fs w) (trash_dir w) = true →
  trash_dir w ≠ "" → Path.ends_with_sep (trash_dir w) = false →
  OS.path_exists (fs w) (Path.join (trash_dir w) (Path.basename p)) = false →
  fs (_move_to_trash w p)
  = <[Path.join (trash_dir w) (Path.basename p) := File c]> (delete p (fs w))
  ∧ state (_move_to_trash w p) = state w
  ∧ current_index (_move_to_trash w p) = current_index w
  ∧ sorted_count (_move_to_trash w p) = sorted_count w
  ∧ skipped_count (_move_to_trash w p) = skipped_count w
  ∧ deleted_count (_move_to_trash w p) = deleted_count w
  ∧ duplicate_count (_move_to_trash w p) = duplicate_count w
  ∧ hash_db (_move_to_trash w p) = hash_db w
  ∧ images (_move_to_trash w p) = images w.
Proof.
  intros Hp Hdir Hne Hsep Hfree.
  assert (Hmv : OS.shutil_move (fs w) p (trash_dir w)
    = Some (<[Path.join (trash_dir w) (Path.basename p) := File c]> (delete p (fs w)))).
  { unfold OS.shutil_move. rewrite Hp, Hdir.
    rewrite bool_decide_false.
    2:{ intros ->. unfold OS.isdir in Hdir. by rewrite Hp in Hdir. }
    rewrite Hfree. unfold OS.rename, OS.parent_ok.
    rewrite (dirname_of_child _ _ Hne Hsep (basename_no_sep p)), Hdir.
    rewrite !orb_true_r. cbn [negb].
    unfold OS.isdir. unfold OS.path_exists in Hfree.
    by destruct (fs w !! Path.join (trash_dir w) (Path.basename p)). }
  unfold _move_to_trash. rewrite Hmv. by repeat split.
Qed.

Lemma handle_choice_deleted_effect (i : Interaction) (w w1 : Session) (choice : ascii)
    (p : string) (folders : list string) (c : list byte) :
  fs w !! p = Some (File c) →
  OS.isdir (fs w) (trash_dir w) = true →
  trash_dir w ≠ "" → Path.ends_with_sep (trash_dir w) = false →
  OS.path_exists (fs w) (Path.join (trash_dir w) (Path.basename p)) = false →
  _handle_choice i w choice p folders = (w1, deleted) →
  fs w1 = <[Path.join (trash_dir w) (Path.basename p) := File c]> (delete p (fs w))
  ∧ state w1 = StateManager.add_action_to_history (state w)
                 {| action := Deleted; old_path := p;
                    new_path := Path.join (trash_dir w) (Path.basename p) |}
  ∧ current_index w1 = current_index w ∧ sorted_count w1 = sorted_count w
  ∧ skipped_count w1 = skipped_count w ∧ deleted_count w1 = deleted_count w
  ∧ duplicate_count w1 = duplicate_count w ∧ hash_db w1 = hash_db w
  ∧ images w1 = images w.
Proof.
  intros Hp Hdir Hne Hsep Hfree. unfold _handle_choice, move_and_record, retry_after.
  destruct (isdigit choice).
  { destruct (_ && _); [|done]. destruct (folders !! _); [|done].
    by destruct (FolderManager.move_photo _ _ _) as [[??]|]. }
  destruct (bool_decide (choice = "N"%char)).
  { destruct (CliUi.prompt_new_folder_name i) as [name|]; [|done].
    destruct (FolderManager.create_event_folder _ _ _) as [[fs1 dest]|]; [|done].
    by destruct (FolderManager.move_photo _ _ _) as [[??]|]. }
  destruct (bool_decide (choice = "S"%char)); [done|].
  destruct (bool_decide (choice = "U"%char)); [done|].
  destruct (bool_decide (choice = "D"%char)).
  { destruct (CliUi.prompt_confirmation i); [|done].
    intros [= <-].
    destruct (move_to_trash_effect w p c Hp Hdir Hne Hsep Hfree)
      as (T1 & T2 & T3 & T4 & T5 & T6 & T7 & T8 & T9).
    simpl. unfold record_action. simpl. rewrite T1, T2. by repeat split. }
  destruct (bool_decide (choice = "Z"%char)); [done|].
  by destruct (bool_decide (choice = "Q"%char)).
Qed.

Lemma present_deleted_effect (i : Interaction) (w : Session) (p : string)
    (c : list byte) :
  fs w !! p = Some (File c) →
  OS.isdir (fs w) (trash_dir w) = true →
  trash_dir w ≠ "" → Path.ends_with_sep (trash_dir w) = false →
  OS.path_exists (fs w) (Path.join (trash_dir w) (Path.basename p)) = false →
  (present i w p).2 = Chose deleted →
  let w' := (present i w p).1 in
  fs w' = <[Path.join (trash_dir w) (Path.basename p) := File c]> (delete p (fs w))
  ∧ action_history (state w')
    = action_history (StateManager.add_action_to_history (state w)
                        {| action := Deleted; old_path := p;
                           new_path := Path.join (trash_dir w) (Path.basename p) |})
  ∧ current_index w' = current_index w + 1
  ∧ deleted_count w' = deleted_count w + 1
  ∧ sorted_count w' = sorted_count w ∧ skipped_count w' = skipped_count w
  ∧ duplicate_count w' = duplicate_count w ∧ hash_db w' = hash_db w
  ∧ images w' = images w.
Proof.
  intros Hp Hdir Hne Hsep Hfree. unfold present.
  destruct (negb (OS.path_exists (fs w) p)); [done|].
  destruct (negb (viewer_opens i)); [done|].
  destruct (CliUi.get_keypress i) as [choice|]; [|done].
  destruct (_handle_choice _ _ _ _ _) as [w1 r] eqn:Hc.
  destruct r; try done; try (destruct (_handle_duplicate _ _ _ _); done);
    try (destruct (add_to_hash_db _ _ _); done).
  apply handle_choice_deleted_effect with (c := c) in Hc
    as (T1 & T2 & T3 & T4 & T5 & T6 & T7 & T8 & T9); try done.
  intros _. simpl. rewrite T1, T2, T3, T6. by repeat split.
Qed.

(** Deleting a photo and undoing it. The turn sent the file at [p] to
    the trash folder, an existing directory that held no entry of the
    photo's name; [p]'s folder exists and the deletion was not in the
    history yet. Undo, called on the session the turn left, restores the
    file system exactly, and cursor, counters and history are what they
    were before the turn. *)
Theorem delete_then_undo (i : Interaction) (w : Session) (p : string)
    (c : list byte) (out : list Event) :
  py_index (images w) (current_index w) = Some p →
  fs w !! p = Some (File c) →
  OS.parent_ok (fs w) p = true →
  OS.isdir (fs w) (trash_dir w) = true →
  trash_dir w ≠ "" → Path.ends_with_sep (trash_dir w) = false →
  OS.path_exists (fs w) (Path.join (trash_dir w) (Path.basename p)) = false →
  (∀ a, a ∈ history_of (state w) → old_path a ≠ p) →
  (iteration i w).2 = Chose deleted →
  let w2 := _undo_last_action (emit out (iteration i w).1) in
  fs w2 = fs w
  ∧ current_index w2 = current_index w
  ∧ sorted_count w2 = sorted_count w ∧ skipped_count w2 = skipped_count w
  ∧ deleted_count w2 = deleted_count w ∧ duplicate_count w2 = duplicate_count w
  ∧ history_of (state w2) = history_of (state w)
  ∧ hash_db w2 = hash_db w.
Proof.
  intros Hidx Hp Hpar Hdir Hne Hsep Hfree Hhist Hdel.
  set (t := Path.join (trash_dir w) (Path.basename p)) in *.
  set (a := {| action := Deleted; old_path := p; new_path := t |}).
  assert (Heff : let w' := (iteration i w).1 in
    fs w' = <[t := File c]> (delete p (fs w))
    ∧ action_history (state w')
      = action_history (StateManager.add_action_to_history (state w) a)
    ∧ current_index w' = current_index w + 1
    ∧ deleted_count w' = deleted_count w + 1
    ∧ sorted_count w' = sorted_count w ∧ skipped_count w' = skipped_count w
    ∧ duplicate_count w' = duplicate_count w ∧ hash_db w' = hash_db w
    ∧ images w' = images w).
  { revert Hdel. unfold iteration. rewrite Hidx.
    assert (Hex : OS.path_exists (fs w) p = true)
      by (unfold OS.path_exists; by rewrite Hp).
    rewrite Hex. cbn [negb].
    destruct (is_duplicate _ _ _ _) as [[[is_dup dup_type] original] o].
    destruct is_dup; [|by apply (present_deleted_effect i (emit o w) p c)].
    cbn [auto_move_duplicates emit set_console].
    destruct (auto_move_duplicates w);
      [|by apply (present_deleted_effect i (emit _ (emit o w)) p c)].
    destruct (_handle_duplicate _ _ _ _) as [w2|]; [done|].
    by apply (present_deleted_effect i (emit _ (emit o w)) p c). }
  destruct Heff as (D1 & D2 & D3 & D4 & D5 & D6 & D7 & D8 & D9).
  assert (Hfresh : a ∉ history_of (state w)) by (intros Ha; by apply (Hhist a Ha)).
  assert (Hh : action_history (state (emit out (iteration i w).1))
               = Some (history_of (state w) ++ [a])%list).
  { simpl. rewrite D2. unfold StateManager.add_action_to_history. simpl.
    fold (history_of (state w)). by rewrite bool_decide_false. }
  assert (Hnone : fs w !! t = None).
  { unfold OS.path_exists in Hfree. by destruct (fs w !! t). }
  assert (Hpt : p ≠ t) by (intros Heq; rewrite Heq in Hp; congruence).
  destruct (undo_restores (emit out (iteration i w).1) (fs w) (history_of (state w)) a c
              Hh Hp Hnone Hpar)
    as (U1 & U2 & U3 & U4 & U5 & U6 & U7 & U8 & U9).
  - simpl. rewrite D1. apply lookup_insert_eq.
  - simpl. rewrite D1. rewrite lookup_insert_ne by (simpl; congruence).
    apply lookup_delete_eq.
  - intros k Hk1 Hk2. simpl in *. rewrite D1.
    rewrite lookup_insert_ne by congruence. by rewrite lookup_delete_ne.
  - cbv zeta. rewrite U1, U2, U3, U4, U5, U6, U7, U8. simpl.
    rewrite D3, D4, D5, D6, D7, D8. repeat split; try lia; done.
Qed.

End UndoDelete.

Lemma delete_then_undo_run :
  fs (_undo_last_action
        (emit [] (iteration (Demo.answer "d" "")
                    (Demo.start ["/r/a.jpg"]
                       (<["/r/.trash" := Dir]> Demo.twins_disk))).1))
  = <["/r/.trash" := Dir]> Demo.twins_disk.
Proof.
  set (w := Demo.start ["/r/a.jpg"] (<["/r/.trash" := Dir]> Demo.twins_disk)).
  assert (H1 : py_index (images w) (current_index w) = Some "/r/a.jpg")
    by (vm_compute; reflexivity).
  assert (H2 : fs w !! "/r/a.jpg" = Some (File Demo.jpeg))
    by (vm_compute; reflexivity).
  assert (H3 : OS.parent_ok (fs w) "/r/a.jpg" = true) by (vm_compute; reflexivity).
  assert (H4 : OS.isdir (fs w) (trash_dir w) = true) by (vm_compute; reflexivity).
  assert (H5 : trash_dir w ≠ "") by done.
  assert (H6 : Path.ends_with_sep (trash_dir w) = false) by (vm_compute; reflexivity).
  assert (H7 : OS.path_exists (fs w)
                 (Path.join (trash_dir w) (Path.basename "/r/a.jpg")) = false)
    by (vm_compute; reflexivity).
  assert (H8 : ∀ a, a ∈ history_of (state w) → old_path a ≠ "/r/a.jpg")
    by (intros a Ha; by apply elem_of_nil in Ha).
  assert (H9 : (iteration (Demo.answer "d" "") w).2 = Chose deleted)
    by (vm_compute; reflexivity).
  exact (proj1 (delete_then_undo (Demo.answer "d" "") w "/r/a.jpg"
                  Demo.jpeg [] H1 H2 H3 H4 H5 H6 H7 H8 H9)).
Defined.

(** ** Emptying the trash *)

Lemma ancestors_from_length (pre p a : string) :
  a ∈ OS.ancestors_from pre p →
  (String.length a ≤ String.length pre + String.length p)%nat.
Proof.
  revert pre. induction p as [|c r IH]; intros pre; simpl.
  - case_bool_decide; [by intros ?%elem_of_nil|].
    intros ->%list_elem_of_singleton. lia.
  - destruct (_ && _).
    + intros [->|H]%elem_of_cons; [lia|].
      apply IH in H. rewrite length_append in H. simpl in H. lia.
    + intros H. apply IH in H. rewrite length_append in H. simpl in H. lia.
Qed.

Lemma makedirs_adds_ancestors (disk disk' : FS) (p k : string) (n : node) :
  OS.makedirs disk p = Some disk' → disk' !! k = Some n →
  disk !! k = Some n ∨ k ∈ OS.ancestors p.
Proof.
  unfold OS.makedirs. generalize (OS.ancestors p). intros l. revert disk.
  induction l as [|d r IH]; intros disk; simpl.
  - intros [= <-]. by left.
  - destruct (OS.mkdir_exist_ok disk d) as [disk1|] eqn:Hm; simpl.
    + intros Hr Hk. destruct (IH _ Hr Hk) as [H1|H1]; [|right; by right].
      unfold OS.mkdir_exist_ok in Hm.
      destruct (disk !! d) as [[|]|] eqn:Hd; try done; injection Hm as <-;
        [by left|].
      destruct (decide (k = d)) as [->|Hne]; [right; by left|].
      rewrite lookup_insert_ne in H1 by done. by left.
    + intros Hr. exfalso. revert Hr. clear.
      induction r as [|d' r' IHr]; simpl; [done | exact IHr].
Qed.

Lemma child_name_spec (d k name : string) :
  OS.child_name d k = Some name →
  k = d +:+ "/" +:+ name ∧ name ≠ "" ∧ Path.has_sep name = false.
Proof.
  unfold OS.child_name.
  destruct (Path.strip_prefix _ _) as [r|] eqn:Hs; [|done].
  case_bool_decide as Hr; [done|]. simpl.
  destruct (Path.has_sep r) eqn:Hsep; [done|]. intros [= <-].
  apply strip_prefix_some in Hs. rewrite <- append_assoc. done.
Qed.

Lemma child_under (d k name : string) :
  OS.child_name d k = Some name → Path.under d k = true.
Proof.
  unfold OS.child_name, Path.under.
  destruct (Path.strip_prefix _ _) as [r|]; [|done]. intros _.
  rewrite (bool_decide_true (is_Some (Some r))) by eauto. apply orb_true_r.
Qed.

Lemma listdir_nil (disk : FS) (d : string) :
  OS.listdir disk d = [] ↔ ∀ k name, OS.child_name d k = Some name → disk !! k = None.
Proof.
  unfold OS.listdir. split.
  - intros Hnil k name Hc. destruct (disk !! k) as [n|] eqn:Hk; [|done].
    assert (name ∈ omap (λ kv : string * node, OS.child_name d kv.1) (map_to_list disk)).
    { apply list_elem_of_omap. exists (k, n). split; [|done].
      by apply elem_of_map_to_list. }
    rewrite Hnil in H. by apply elem_of_nil in H.
  - intros H. destruct (omap _ _) as [|x l] eqn:Ho; [done|].
    assert (Hx : x ∈ omap (λ kv : string * node, OS.child_name d kv.1) (map_to_list disk))
      by (rewrite Ho; apply list_elem_of_here).
    apply list_elem_of_omap in Hx as ([k n] & Hin & Hc).
    apply elem_of_map_to_list in Hin. simpl in Hc.
    by rewrite (H _ _ Hc) in Hin.
Qed.

Section EmptyTrash.
Context `{E : Env}.

Lemma empty_trash_effect (w : Session) :
  OS.isdir (fs w) (trash_dir w) = true →
  let w' := _empty_trash w in
  OS.listdir (fs w') (trash_dir w) = []
  ∧ (∀ k n, Path.under (trash_dir w) k = false → fs w !! k = Some n →
            fs w' !! k = Some n)
  ∧ (∀ k c, fs w' !! k = Some (File c) → fs w !! k = Some (File c))
  ∧ state w' = state w ∧ current_index w' = current_index w
  ∧ sorted_count w' = sorted_count w ∧ skipped_count w' = skipped_count w
  ∧ deleted_count w' = deleted_count w ∧ duplicate_count w' = duplicate_count w
  ∧ hash_db w' = hash_db w ∧ images w' = images w
  ∧ state_file w' = state_file w ∧ trash_dir w' = trash_dir w.
Proof.
  intros Hdir. unfold _empty_trash.
  assert (Hex : OS.path_exists (fs w) (trash_dir w) = true).
  { unfold OS.isdir, OS.path_exists in *. by destruct (fs w !! trash_dir w). }
  rewrite Hex, Hdir. cbn [negb].
  case_bool_decide as Hlen.
  { cbv zeta. split; [by apply nil_length_inv|]. by repeat split. }
  cbn [fs trash_dir emit set_console].
  assert (Hrm : ∀ k name, OS.child_name (trash_dir w) k = Some name →
            OS.rmtree (fs w) (trash_dir w) !! k = None).
  { intros k name Hc. unfold OS.rmtree. apply map_lookup_filter_None. right.
    intros n _. simpl. by rewrite (child_under _ _ _ Hc). }
  assert (Hkeep : ∀ k n, Path.under (trash_dir w) k = false → fs w !! k = Some n →
            OS.rmtree (fs w) (trash_dir w) !! k = Some n).
  { intros k n Hu Hk. unfold OS.rmtree. by apply map_lookup_filter_Some. }
  assert (Hsub : ∀ k n, OS.rmtree (fs w) (trash_dir w) !! k = Some n →
            fs w !! k = Some n).
  { intros k n Hk. unfold OS.rmtree in Hk. by apply map_lookup_filter_Some in Hk as [? _]. }
  destruct (OS.makedirs _ _) as [fs2|] eqn:Hmk; cbv zeta; simpl.
  - split.
    { apply listdir_nil. intros k name Hc.
      destruct (fs2 !! k) as [n|] eqn:Hk; [|done]. exfalso.
      destruct (makedirs_adds_ancestors _ _ _ _ _ Hmk Hk) as [H1|H1].
      - by rewrite (Hrm _ _ Hc) in H1.
      - apply ancestors_from_length in H1.
        apply child_name_spec in Hc as (-> & _ & _).
        rewrite length_append in H1. simpl in H1. lia. }
    split; [intros k n Hu Hk; exact (makedirs_keeps _ _ _ _ _ (Hkeep _ _ Hu Hk) Hmk)|].
    split; [|by repeat split].
    intros k c Hk. destruct (makedirs_only_dirs _ _ _ _ _ Hmk Hk) as [H1|H1]; [|done].
    by apply Hsub.
  - split.
    { apply listdir_nil. intros k name Hc. by apply (Hrm k name). }
    split; [exact Hkeep|]. split; [|by repeat split].
    intros k c Hk. by apply Hsub.
Qed.

(** [_empty_trash] on a trash directory: afterwards nothing is listed in
    it; every entry outside the trash is kept and no file appears; the
    session's state, cursor, counters and hash index are untouched. *)
Theorem empty_trash_spec (w : Session) :
  OS.isdir (fs w) (trash_dir w) = true →
  let w' := _empty_trash w in
  OS.listdir (fs w') (trash_dir w) = []
  ∧ (∀ k n, Path.under (trash_dir w) k = false → fs w !! k = Some n →
            fs w' !! k = Some n)
  ∧ (∀ k c, fs w' !! k = Some (File c) → fs w !! k = Some (File c))
  ∧ state w' = state w ∧ current_index w' = current_index w
  ∧ sorted_count w' = sorted_count w ∧ skipped_count w' = skipped_count w
  ∧ deleted_count w' = deleted_count w ∧ duplicate_count w' = duplicate_count w
  ∧ hash_db w' = hash_db w ∧ images w' = images w
  ∧ state_file w' = state_file w ∧ trash_dir w' = trash_dir w.
Proof. apply empty_trash_effect. Qed.

(** Once the trash has been emptied a deletion is final: when the last
    recorded action sent its file into the trash directory, undo after
    [_empty_trash] finds no file, and leaves the file system, the
    cursor, the counters and the history as they are. *)
Theorem emptied_trash_is_final (w : Session) (h : list Action) (a : Action)
    (name : string) :
  OS.isdir (fs w) (trash_dir w) = true →
  action_history (state w) = Some (h ++ [a])%list →
  OS.child_name (trash_dir w) (new_path a) = Some name →
  let w1 := _empty_trash w in
  let w2 := _undo_last_action w1 in
  fs w2 = fs w1 ∧ fs w2 !! new_path a = None
  ∧ current_index w2 = current_index w
  ∧ sorted_count w2 = sorted_count w ∧ skipped_count w2 = skipped_count w
  ∧ deleted_count w2 = deleted_count w ∧ duplicate_count w2 = duplicate_count w
  ∧ history_of (state w2) = (h ++ [a])%list.
Proof.
  intros Hdir Hh Hc.
  destruct (empty_trash_effect w Hdir)
    as (L & _ & _ & Hst & Hci & Hso & Hsk & Hde & Hdu & _).
  cbv zeta in *.
  assert (Hnone : fs (_empty_trash w) !! new_path a = None).
  { eapply listdir_nil in L; eauto. }
  unfold _undo_last_action, StateManager.get_last_action. rewrite Hst, Hh.
  rewrite last_snoc_history.
  assert (Hm : ∀ x y : Session,
    match (h ++ [a])%list with [] => x | _ :: _ => y end = y)
    by (intros; by destruct h).
  rewrite Hm. unfold undo_branch. cbn [fs set_state].
  unfold OS.path_exists. rewrite Hnone. simpl.
  unfold history_of. rewrite Hh. by repeat split.
Qed.

End EmptyTrash.

Lemma empty_trash_spec_run :
  let w := Demo.start [] {[ "/r" := Dir; "/r/.trash" := Dir;
                            "/r/.trash/a.jpg" := File Demo.jpeg ]} in
  OS.listdir (fs (_empty_trash w)) (trash_dir w) = [].
Proof.
  intros w.
  assert (H1 : OS.isdir (fs w) (trash_dir w) = true) by (vm_compute; reflexivity).
  exact (proj1 (empty_trash_spec w H1)).
Defined.

Lemma emptied_trash_is_final_run :
  let w := set_state
             (StateManager.add_action_to_history StateManager.default_state
                {| action := Deleted; old_path := "/r/a.jpg";
                   new_path := "/r/.trash/a.jpg" |})
             (Demo.start [] {[ "/r" := Dir; "/r/.trash" := Dir;
                               "/r/.trash/a.jpg" := File Demo.jpeg ]}) in
  fs (_undo_last_action (_empty_trash w)) = fs (_empty_trash w).
Proof.
  intros w.
  assert (H1 : OS.isdir (fs w) (trash_dir w) = true) by (vm_compute; reflexivity).
  assert (H2 : action_history (state w)
               = Some ([] ++ [{| action := Deleted; old_path := "/r/a.jpg";
                                 new_path := "/r/.trash/a.jpg" |}])%list)
    by (vm_compute; reflexivity).
  assert (H3 : OS.child_name (trash_dir w) "/r/.trash/a.jpg" = Some "a.jpg")
    by (vm_compute; reflexivity).
  exact (proj1 (emptied_trash_is_final w [] _ "a.jpg" H1 H2 H3)).
Defined.

(** ** Scanning for images *)

Lemma listdir_elem (disk : FS) (d name : string) :
  name ∈ OS.listdir disk d
  ↔ name ≠ "" ∧ Path.has_sep name = false ∧ is_Some (disk !! (d +:+ "/" +:+ name)).
Proof.
  unfold OS.listdir. rewrite list_elem_of_omap. split.
  - intros ([k n] & Hin & Hc). simpl in Hc. apply elem_of_map_to_list in Hin.
    apply child_name_spec in Hc as (-> & ? & ?). eauto.
  - intros (Hne & Hsep & [n Hk]). exists (d +:+ "/" +:+ name, n).
    split; [by apply elem_of_map_to_list|].
    simpl. unfold OS.child_name. rewrite <- append_assoc, strip_prefix_append.
    rewrite bool_decide_false by done. by rewrite Hsep.
Qed.

Lemma NoDup_omap_inj {A B} (f : A → option B) (l : list A) :
  (∀ x y z, x ∈ l → y ∈ l → f x = Some z → f y = Some z → x = y) →
  NoDup l → NoDup (omap f l).
Proof.
  intros Hinj Hl. induction Hl as [|x l Hx Hl IH]; csimpl; [constructor|].
  assert (Hrest : NoDup (omap f l)).
  { apply IH. intros a b z Ha Hb. apply Hinj; by apply list_elem_of_further. }
  destruct (f x) as [z|] eqn:Hfx; [|done].
  apply NoDup_cons. split; [|done].
  intros (y & Hy & Hfy)%list_elem_of_omap.
  assert (x = y).
  { apply (Hinj x y z); [apply list_elem_of_here|by apply list_elem_of_further|done..]. }
  by subst.
Qed.

Lemma NoDup_listdir (disk : FS) (d : string) : NoDup (OS.listdir disk d).
Proof.
  unfold OS.listdir. apply NoDup_omap_inj; [|apply NoDup_map_to_list].
  intros [k1 n1] [k2 n2] z H1 H2 Hc1 Hc2. simpl in *.
  apply child_name_spec in Hc1 as (-> & _), Hc2 as (-> & _).
  apply elem_of_map_to_list in H1, H2. congruence.
Qed.

Lemma join_child (d name : string) :
  d ≠ "" → Path.ends_with_sep d = false → Path.has_sep name = false →
  Path.join d name = d +:+ "/" +:+ name.
Proof.
  intros Hne Hend Hn. rewrite join_plain by done. unfold join_prefix.
  rewrite bool_decide_false by done. rewrite Hend. simpl. apply append_assoc.
Qed.

Lemma ends_with_sep_append (a b : string) :
  b ≠ "" → Path.ends_with_sep (a +:+ b) = Path.ends_with_sep b.
Proof.
  intros Hb. induction a as [|c r IH]; [done|]. rewrite append_cons.
  destruct (r +:+ b) as [|c' x] eqn:Hrb.
  - exfalso. apply (f_equal String.length) in Hrb. rewrite length_append in Hrb.
    destruct b; [done|]. simpl in Hrb. lia.
  - by rewrite <- IH.
Qed.

Lemma no_sep_ends (name : string) :
  Path.has_sep name = false → Path.ends_with_sep name = false.
Proof.
  induction name as [|c r IH]; [done|]. simpl.
  intros [Hc Hr]%orb_false_elim. destruct r; [done|]. by apply IH.
Qed.

Lemma child_good (d name : string) :
  name ≠ "" → Path.has_sep name = false →
  d +:+ "/" +:+ name ≠ "" ∧ Path.ends_with_sep (d +:+ "/" +:+ name) = false.
Proof.
  intros Hne Hs. split.
  - intros H. apply (f_equal String.length) in H. rewrite !length_append in H.
    simpl in H. lia.
  - rewrite ends_with_sep_append by (by rewrite append_cons).
    rewrite (ends_with_sep_append "/" name Hne). by apply no_sep_ends.
Qed.

Lemma walked_trans (disk : FS) (a b c : string) :
  walked disk a b → walked disk b c → walked disk a c.
Proof. intros Hab Hbc. induction Hbc; [done|]. by apply walked_sub. Qed.

Lemma walked_front (disk : FS) (d d' : string) :
  walked disk d d' →
  d' = d ∨ ∃ sub, sub ≠ "" ∧ Path.has_sep sub = false
             ∧ Path.startswith sub "." = false
             ∧ OS.isdir disk (d +:+ "/" +:+ sub) = true
             ∧ walked disk (d +:+ "/" +:+ sub) d'.
Proof.
  induction 1 as [|d1 name Hw IH Hne Hs Hdot Hdir]; [by left|]. right.
  destruct IH as [->|(sub & ? & ? & ? & ? & Hw')].
  - exists name. repeat split; try done. apply walked_root.
  - exists sub. repeat split; try done. by apply walked_sub.
Qed.

Lemma walked_length (disk : FS) (d d' : string) :
  walked disk d d' → (String.length d ≤ String.length d')%nat.
Proof. induction 1; [lia|]. rewrite length_append. lia. Qed.

Lemma walked_prefix (disk : FS) (d d' : string) :
  walked disk d d' → d' = d ∨ ∃ s, d' = d +:+ "/" +:+ s.
Proof.
  induction 1 as [|d1 name Hw IH]; [by left|]. right.
  destruct IH as [->|[s ->]]; [by exists name|].
  exists (s +:+ "/" +:+ name). by rewrite !append_assoc.
Qed.

Lemma key_length_le (disk : FS) (k : string) (n : node) :
  disk !! k = Some n → (String.length k ≤ DirectoryScanner.max_key_length disk)%nat.
Proof.
  intros Hk. unfold DirectoryScanner.max_key_length. apply max_list_elem_of_le.
  apply list_elem_of_fmap. exists k. split; [done|].
  apply list_elem_of_fmap. exists (k, n). split; [done|]. by apply elem_of_map_to_list.
Qed.

Lemma walk_images_sound (disk : FS) (depth : nat) (d p : string) :
  d ≠ "" → Path.ends_with_sep d = false →
  p ∈ DirectoryScanner.walk_images depth disk d → scanned disk d p.
Proof.
  revert d. induction depth as [|n IH]; intros d Hne Hend;
    [by intros ?%elem_of_nil|].
  cbn [DirectoryScanner.walk_images]. rewrite elem_of_app. intros [Hf|Hs].
  - apply list_elem_of_omap in Hf as (name & Hin & Hsome).
    apply list_elem_of_filter in Hin as [_ Hin].
    apply listdir_elem in Hin as (Hn & Hsep & _).
    destruct (Path.startswith name ".") eqn:Hdot; [done|].
    destruct (DirectoryScanner.is_image name) eqn:Himg; [|done].
    destruct (OS.isfile _ _) eqn:Hfile; [|done]. injection Hsome as <-.
    rewrite join_child in * by done.
    exists d, name. repeat split; try done. apply walked_root.
  - apply list_elem_of_bind in Hs as (sub & Hp & Hin).
    apply list_elem_of_filter in Hin as [Hdot Hin].
    apply list_elem_of_filter in Hin as [Hdir Hin].
    apply listdir_elem in Hin as (Hn & Hsep & _).
    rewrite join_child in * by done.
    destruct (child_good d sub Hn Hsep) as [G1 G2].
    destruct (IH _ G1 G2 Hp) as (d' & name & Hw & -> & ?).
    exists d', name. split; [|done].
    eapply walked_trans; [|exact Hw]. apply walked_sub; try done. apply walked_root.
Qed.

Lemma walk_images_complete (disk : FS) (depth : nat) (d p : string) :
  d ≠ "" → Path.ends_with_sep d = false →
  (DirectoryScanner.max_key_length disk < String.length d + depth)%nat →
  scanned disk d p → p ∈ DirectoryScanner.walk_images depth disk d.
Proof.
  revert d. induction depth as [|n IH];
    intros d Hne Hend Hlen (d' & name & Hw & -> & Hn & Hsep & Hdot & Himg & Hfile).
  - exfalso. unfold OS.isfile in Hfile.
    destruct (disk !! _) as [[c|]|] eqn:Hk; try done.
    apply key_length_le in Hk. apply walked_length in Hw.
    rewrite length_append in Hk. lia.
  - cbn [DirectoryScanner.walk_images]. apply elem_of_app.
    destruct (walked_front _ _ _ Hw) as [->|(sub & S1 & S2 & S3 & S4 & Hw')].
    + left. apply list_elem_of_omap. exists name. split.
      * apply list_elem_of_filter. split.
        { rewrite join_child by done. unfold OS.isdir. unfold OS.isfile in Hfile.
          by destruct (disk !! _) as [[|]|]. }
        apply listdir_elem. repeat split; try done.
        unfold OS.isfile in Hfile. destruct (disk !! _); [eauto|done].
      * rewrite Hdot, Himg. rewrite join_child by done. by rewrite Hfile.
    + right. apply list_elem_of_bind. exists sub. split.
      * rewrite join_child by done. destruct (child_good d sub S1 S2).
        apply IH; try done.
        { rewrite !length_append. simpl. lia. }
        by exists d', name.
      * apply list_elem_of_filter. split; [done|].
        apply list_elem_of_filter. split; [by rewrite join_child|].
        apply listdir_elem. repeat split; try done.
        unfold OS.isdir in S4. destruct (disk !! _); [eauto|done].
Qed.

Lemma walk_images_prefix (disk : FS) (depth : nat) (d p : string) :
  d ≠ "" → Path.ends_with_sep d = false →
  p ∈ DirectoryScanner.walk_images depth disk d → ∃ r, p = d +:+ "/" +:+ r.
Proof.
  intros ?? H. apply walk_images_sound in H as (d' & name & Hw & -> & _); try done.
  destruct (walked_prefix _ _ _ Hw) as [->|[s ->]]; [eauto|].
  exists (s +:+ "/" +:+ name). by rewrite !append_assoc.
Qed.

Lemma first_component_inj (a b x y : string) :
  Path.has_sep a = false → Path.has_sep b = false →
  a +:+ "/" +:+ x = b +:+ "/" +:+ y → a = b.
Proof.
  revert b. induction a as [|c a IH]; intros [|c' b] Ha Hb H.
  - done.
  - rewrite (append_cons c' b) in H. injection H as <- _. done.
  - rewrite (append_cons c a) in H. injection H as -> _. done.
  - rewrite !append_cons in H. injection H as -> H. f_equal.
    simpl in Ha, Hb. apply orb_false_elim in Ha as [_ Ha], Hb as [_ Hb].
    by apply IH.
Qed.

Lemma NoDup_walk_images (disk : FS) (depth : nat) (d : string) :
  d ≠ "" → Path.ends_with_sep d = false →
  NoDup (DirectoryScanner.walk_images depth disk d).
Proof.
  revert d. induction depth as [|n IH]; intros d Hne Hend; [constructor|].
  cbn [DirectoryScanner.walk_images]. apply NoDup_app. split_and!.
  - apply NoDup_omap_inj; [|apply NoDup_filter, NoDup_listdir].
    intros x y z Hx Hy Hfx Hfy.
    apply list_elem_of_filter in Hx as [_ (_ & Hx & _)%listdir_elem].
    apply list_elem_of_filter in Hy as [_ (_ & Hy & _)%listdir_elem].
    destruct (Path.startswith x "."); [done|].
    destruct (Path.startswith y "."); [done|].
    destruct (DirectoryScanner.is_image x); [|done].
    destruct (DirectoryScanner.is_image y); [|done].
    destruct (OS.isfile disk (Path.join d x)); [|done].
    destruct (OS.isfile disk (Path.join d y)); [|done].
    rewrite !join_child in * by done.
    injection Hfx as <-. injection Hfy as Heq.
    by apply append_inj_l, append_inj_l in Heq.
  - intros p Hf Hs.
    apply list_elem_of_omap in Hf as (name & Hin & Hsome).
    apply list_elem_of_filter in Hin as [_ (_ & Hname & _)%listdir_elem].
    destruct (Path.startswith name "."); [done|].
    destruct (DirectoryScanner.is_image name); [|done].
    destruct (OS.isfile _ _); [|done]. injection Hsome as <-.
    apply list_elem_of_bind in Hs as (sub & Hp & Hin).
    apply list_elem_of_filter in Hin as [_ Hin].
    apply list_elem_of_filter in Hin as [_ (Hn & Hsep & _)%listdir_elem].
    rewrite !join_child in * by done.
    destruct (child_good d sub Hn Hsep) as [G1 G2].
    destruct (walk_images_prefix _ _ _ _ G1 G2 Hp) as [r Hr].
    rewrite !append_assoc in Hr. apply append_inj_l in Hr.
    apply (append_inj_l "/") in Hr.
    rewrite Hr in Hname. rewrite has_sep_append in Hname.
    apply orb_false_elim in Hname as [_ Hname]. by rewrite append_cons in Hname.
  - apply NoDup_bind.
    + intros s1 s2 p H1 H2 Hp1 Hp2.
      apply list_elem_of_filter in H1 as [_ H1].
      apply list_elem_of_filter in H1 as [_ (N1 & S1 & _)%listdir_elem].
      apply list_elem_of_filter in H2 as [_ H2].
      apply list_elem_of_filter in H2 as [_ (N2 & S2 & _)%listdir_elem].
      rewrite !join_child in * by done.
      destruct (child_good d s1 N1 S1) as [G1 G1'].
      destruct (child_good d s2 N2 S2) as [G2 G2'].
      destruct (walk_images_prefix _ _ _ _ G1 G1' Hp1) as [r1 Hr1].
      destruct (walk_images_prefix _ _ _ _ G2 G2' Hp2) as [r2 Hr2].
      rewrite Hr1 in Hr2. rewrite !append_assoc in Hr2.
      apply append_inj_l in Hr2.
      apply (append_inj_l "/") in Hr2.
      by apply first_component_inj in Hr2.
    + intros sub Hin.
      apply list_elem_of_filter in Hin as [_ Hin].
      apply list_elem_of_filter in Hin as [_ (Hn & Hsep & _)%listdir_elem].
      rewrite join_child by done. by apply IH; apply child_good.
    + apply NoDup_filter, NoDup_filter, NoDup_listdir.
Qed.

(** [scan_images] on a root path without a trailing separator. It
    raises exactly when the root is not a directory. Otherwise it
    returns, sorted and without repetition, exactly the image files whose
    name does not start with a dot and that are reached from the root
    through directories whose names do not start with a dot. *)
Theorem scan_images_spec (disk : FS) (root : string) :
  root ≠ "" → Path.ends_with_sep root = false →
  match DirectoryScanner.scan_images disk root with
  | None => OS.isdir disk root = false
  | Some imgs =>
      OS.isdir disk root = true
      ∧ (∀ p, p ∈ imgs ↔ scanned disk root p)
      ∧ Sorted String.le imgs ∧ NoDup imgs
  end.
Proof.
  intros Hne Hend. unfold DirectoryScanner.scan_images.
  destruct (OS.path_exists disk root) eqn:Hex; cbn [negb].
  2:{ unfold OS.isdir, OS.path_exists in *. by destruct (disk !! root). }
  destruct (OS.isdir disk root) eqn:Hdir; cbn [negb]; [|done].
  split; [done|]. split; [|split].
  - intros p. rewrite merge_sort_Permutation. split.
    + by apply walk_images_sound.
    + apply walk_images_complete; try done. lia.
  - apply (Sorted_merge_sort String.le).
  - rewrite merge_sort_Permutation. by apply NoDup_walk_images.
Qed.

Lemma scan_images_spec_run :
  match DirectoryScanner.scan_images
          {[ "/r" := Dir; "/r/b.JPG" := File []; "/r/a.txt" := File [];
             "/r/.x" := Dir; "/r/.x/c.png" := File []; "/r/ev" := Dir;
             "/r/ev/z.png" := File [] ]} "/r" with
  | None => False
  | Some imgs => Sorted String.le imgs
  end.
Proof.
  pose proof (scan_images_spec
    {[ "/r" := Dir; "/r/b.JPG" := File []; "/r/a.txt" := File [];
       "/r/.x" := Dir; "/r/.x/c.png" := File []; "/r/ev" := Dir;
       "/r/ev/z.png" := File [] ]} "/r") as H.
  destruct (DirectoryScanner.scan_images _ _) as [imgs|] eqn:Hs.
  - apply H; [done | vm_compute; reflexivity].
  - vm_compute in Hs. discriminate Hs.
Defined.

(** ** Moving a duplicate away *)

Section HandleDuplicate.
Context `{E : Env}.

Lemma handle_duplicate_effect (w : Session) (p t : string) (o : option string)
    (c : list byte) :
  fs w !! p = Some (File c) →
  root_dir w ≠ "" → Path.ends_with_sep (root_dir w) = false →
  (OS.isdir (fs w) (Path.join (root_dir w) "Duplicates") = true
   ∨ (fs w !! Path.join (root_dir w) "Duplicates" = None
      ∧ is_Some (OS.makedirs (fs w) (Path.join (root_dir w) "Duplicates")))) →
  ∃ w' name,
    _handle_duplicate w p t o = Some w'
    ∧ Path.has_sep name = false
    ∧ OS.isdir (fs w') (Path.join (root_dir w) "Duplicates") = true
    ∧ fs w' !! Path.join (Path.join (root_dir w) "Duplicates") name = Some (File c)
    ∧ fs w !! Path.join (Path.join (root_dir w) "Duplicates") name = None
    ∧ fs w' !! p = None
    ∧ (∀ k n, k ≠ p → fs w !! k = Some n → fs w' !! k = Some n).
Proof.
  intros Hp Hne Hend Hd. unfold _handle_duplicate.
  set (d := Path.join (root_dir w) "Duplicates") in *.
  assert (Hgood : d ≠ "" ∧ Path.ends_with_sep d = false).
  { unfold d. rewrite join_child by done. by apply child_good. }
  destruct Hgood as [Hdne Hdend].
  assert (Hmade : ∃ fs1,
    (if negb (OS.path_exists (fs w) d) then OS.makedirs (fs w) d else Some (fs w))
    = Some fs1
    ∧ OS.isdir fs1 d = true
    ∧ ∀ k n, fs w !! k = Some n → fs1 !! k = Some n).
  { destruct Hd as [Hdir|[Hnone [fs1 Hmk]]].
    - exists (fs w). unfold OS.path_exists. unfold OS.isdir in Hdir.
      destruct (fs w !! d) as [[|]|] eqn:Hk; try done. simpl.
      split; [done|]. split; [|done]. unfold OS.isdir. by rewrite Hk.
    - exists fs1. unfold OS.path_exists. rewrite Hnone. simpl.
      split; [done|]. split.
      + unfold OS.isdir. by rewrite (makedirs_creates _ _ _ Hdne Hmk).
      + intros k n Hk. eapply makedirs_keeps; eauto. }
  destruct Hmade as (fs1 & -> & Hdir1 & Hkeep).
  destruct (proj1 (move_photo_outcomes fs1 p d c) (Hkeep _ _ Hp) Hdir1 Hdne Hdend)
    as [[fs2 np] Hmv].
  rewrite Hmv.
  destruct (move_photo_effect _ _ _ _ _ _ (Hkeep _ _ Hp) Hmv)
    as (_ & Hfree & (name & -> & Hname) & Hnew & Hold & Hrest).
  eexists _, name. split; [reflexivity|]. simpl.
  split; [done|]. split.
  { unfold OS.isdir in *. rewrite Hrest; [done| |].
    - intros ->. by rewrite (Hkeep _ _ Hp) in Hdir1.
    - intros Heq. rewrite Heq, Hfree in Hdir1. done. }
  split; [done|]. split.
  { destruct (fs w !! Path.join d name) as [n|] eqn:Hk; [|done].
    by rewrite (Hkeep _ _ Hk) in Hfree. }
  split; [done|].
  intros k n Hkp Hk. rewrite Hrest; [by apply Hkeep|done|].
  intros ->. by rewrite (Hkeep _ _ Hk) in Hfree.
Qed.

(** [_handle_duplicate] on a photo that is a file, when [Duplicates]
    under the root is a directory or is absent and can be created: it
    returns, [Duplicates] is a directory, the photo's bytes are inside it
    under a name that was free, the photo's old path is free, and every
    other entry of the file system is kept. *)
Theorem handle_duplicate_moves (w : Session) (p t : string) (o : option string)
    (c : list byte) :
  fs w !! p = Some (File c) →
  root_dir w ≠ "" → Path.ends_with_sep (root_dir w) = false →
  (OS.isdir (fs w) (Path.join (root_dir w) "Duplicates") = true
   ∨ (fs w !! Path.join (root_dir w) "Duplicates" = None
      ∧ is_Some (OS.makedirs (fs w) (Path.join (root_dir w) "Duplicates")))) →
  ∃ w' name,
    _handle_duplicate w p t o = Some w'
    ∧ Path.has_sep name = false
    ∧ OS.isdir (fs w') (Path.join (root_dir w) "Duplicates") = true
    ∧ fs w' !! Path.join (Path.join (root_dir w) "Duplicates") name = Some (File c)
    ∧ fs w !! Path.join (Path.join (root_dir w) "Duplicates") name = None
    ∧ fs w' !! p = None
    ∧ (∀ k n, k ≠ p → fs w !! k = Some n → fs w' !! k = Some n).
Proof. apply handle_duplicate_effect. Qed.

Lemma handle_duplicate_blocked (w : Session) (p t : string) (o : option string)
    (c' : list byte) :
  fs w !! Path.join (root_dir w) "Duplicates" = Some (File c') →
  _handle_duplicate w p t o
  = Some (emit [Stdout "Error moving duplicate";
                Log ERROR ("Error moving duplicate " +:+ p)] (set_fs (fs w) w)).
Proof.
  intros Hfile. unfold _handle_duplicate.
  unfold OS.path_exists at 1. rewrite Hfile. cbn [negb].
  assert (Hmv : FolderManager.move_photo (fs w) p
                  (Path.join (root_dir w) "Duplicates") = None).
  { apply move_photo_outcomes; [exact c'|]. unfold OS.isdir. by rewrite Hfile. }
  by rewrite Hmv.
Qed.

(** When [Duplicates] under the root exists but is not a directory, the
    move fails inside [_handle_duplicate], which only reports it: a turn
    that finds a duplicate with auto-move on leaves every file where it
    is, and still counts the photo as a duplicate and passes on to the
    next one. *)
Theorem failed_duplicate_move_is_counted (i : Interaction) (w : Session)
    (p : string) (c' : list byte) :
  py_index (images w) (current_index w) = Some p →
  OS.path_exists (fs w) p = true →
  auto_move_duplicates w = true →
  (is_duplicate (fs w) p (hash_db w) (duplicate_threshold w)).1.1.1 = true →
  fs w !! Path.join (root_dir w) "Duplicates" = Some (File c') →
  (iteration i w).2 = AutoDuplicate
  ∧ fs (iteration i w).1 = fs w
  ∧ duplicate_count (iteration i w).1 = duplicate_count w + 1
  ∧ current_index (iteration i w).1 = current_index w + 1
  ∧ Stdout "Error moving duplicate" ∈ console (iteration i w).1.
Proof.
  intros Hidx Hex Hauto Hdup Hfile. unfold iteration. rewrite Hidx, Hex. cbn [negb].
  destruct (is_duplicate _ _ _ _) as [[[is_dup dup_type] original] out].
  simpl in Hdup. subst is_dup.
  cbn [auto_move_duplicates emit set_console]. rewrite Hauto.
  rewrite (handle_duplicate_blocked (emit out w) p (default "" dup_type) original c' Hfile).
  simpl. repeat split.
  rewrite !elem_of_app. right. apply list_elem_of_here.
Qed.

End HandleDuplicate.

Lemma handle_duplicate_moves_run :
  ∃ w' name,
    _handle_duplicate Demo.twins "/r/b.jpg" "exact" (Some "/r/a.jpg") = Some w'
    ∧ Path.has_sep name = false
    ∧ OS.isdir (fs w') (Path.join (root_dir Demo.twins) "Duplicates") = true
    ∧ fs w' !! Path.join (Path.join (root_dir Demo.twins) "Duplicates") name
      = Some (File Demo.jpeg)
    ∧ fs Demo.twins !! Path.join (Path.join (root_dir Demo.twins) "Duplicates") name
      = None
    ∧ fs w' !! "/r/b.jpg" = None
    ∧ (∀ k n, k ≠ "/r/b.jpg" → fs Demo.twins !! k = Some n → fs w' !! k = Some n).
Proof.
  assert (H1 : fs Demo.twins !! "/r/b.jpg" = Some (File Demo.jpeg))
    by (vm_compute; reflexivity).
  assert (H2 : root_dir Demo.twins ≠ "") by done.
  assert (H3 : Path.ends_with_sep (root_dir Demo.twins) = false)
    by (vm_compute; reflexivity).
  assert (H4 : OS.isdir (fs Demo.twins) (Path.join (root_dir Demo.twins) "Duplicates")
               = true
             ∨ (fs Demo.twins !! Path.join (root_dir Demo.twins) "Duplicates" = None
                ∧ is_Some (OS.makedirs (fs Demo.twins)
                             (Path.join (root_dir Demo.twins) "Duplicates")))).
  { right. split; [vm_compute; reflexivity|]. vm_compute. eexists. reflexivity. }
  exact (handle_duplicate_moves Demo.twins "/r/b.jpg" "exact" (Some "/r/a.jpg")
           Demo.jpeg H1 H2 H3 H4).
Defined.

Lemma failed_duplicate_move_is_counted_run :
  let w := set_hash_db
             (add_hash {| db_root_dir := "/r"; hashes := [] |} "/r/a.jpg"
                (sha256 Demo.jpeg) None)
             (Demo.start ["/r/b.jpg"]
                (<["/r/Duplicates" := File []]> Demo.twins_disk)) in
  fs (iteration (Demo.answer "s" "") w).1 = fs w
  ∧ duplicate_count (iteration (Demo.answer "s" "") w).1 = duplicate_count w + 1.
Proof.
  intros w.
  assert (H1 : py_index (images w) (current_index w) = Some "/r/b.jpg")
    by (vm_compute; reflexivity).
  assert (H2 : OS.path_exists (fs w) "/r/b.jpg" = true) by (vm_compute; reflexivity).
  assert (H3 : auto_move_duplicates w = true) by (vm_compute; reflexivity).
  assert (H4 : (is_duplicate (fs w) "/r/b.jpg" (hash_db w)
                  (duplicate_threshold w)).1.1.1 = true)
    by (vm_compute; reflexivity).
  assert (H5 : fs w !! Path.join (root_dir w) "Duplicates" = Some (File []))
    by (vm_compute; reflexivity).
  pose proof (failed_duplicate_move_is_counted (Demo.answer "s" "") w "/r/b.jpg" []
                H1 H2 H3 H4 H5) as (_ & Hfs & Hcount & _).
  exact (conj Hfs Hcount).
Defined.

(** ** Image names *)

Lemma split_last_dot_no_dot (e : string) :
  FolderManager.contains_char "." e = false → Path.split_last_dot e = None.
Proof.
  induction e as [|c r IH]; [done|]. simpl.
  intros [Hc Hr]%orb_false_elim. rewrite (IH Hr). by rewrite Hc.
Qed.

Lemma split_last_dot_ext (stem e : string) :
  FolderManager.contains_char "." e = false →
  Path.split_last_dot (stem +:+ "." +:+ e) = Some (stem, "." +:+ e).
Proof.
  intros He. induction stem as [|c r IH].
  - change ("" +:+ "." +:+ e) with (String "." e). simpl.
    by rewrite (split_last_dot_no_dot e He).
  - rewrite append_cons. simpl. by rewrite IH.
Qed.

(** [is_image] on a bare file name. A name [stem.e] whose last dot is
    the one shown is an image exactly when the stem is not made of dots
    only (so not empty) and [.e], in lower case, is a supported
    extension; a name without a dot is not an image. *)
Theorem is_image_by_extension (stem e : string) :
  (Path.has_sep stem = false → Path.has_sep e = false →
   FolderManager.contains_char "." e = false →
   DirectoryScanner.is_image (stem +:+ "." +:+ e)
   = negb (Path.all_dots stem)
     && bool_decide (DirectoryScanner.lower ("." +:+ e)
                     ∈ DirectoryScanner.SUPPORTED_EXTENSIONS))
  ∧ (Path.has_sep e = false → FolderManager.contains_char "." e = false →
     DirectoryScanner.is_image e = false).
Proof.
  split.
  - intros Hs He Hdot. unfold DirectoryScanner.is_image, Path.splitext.
    assert (Hn : Path.has_sep (stem +:+ "." +:+ e) = false).
    { rewrite has_sep_append, Hs. change ("." +:+ e) with (String "." e).
      simpl. exact He. }
    rewrite (basename_plain _ Hn), (split_last_dot_ext stem e Hdot).
    destruct (Path.all_dots stem); [|done].
    cbn [negb andb DirectoryScanner.lower]. vm_compute. reflexivity.
  - intros He Hdot. unfold DirectoryScanner.is_image, Path.splitext.
    rewrite (basename_plain _ He), (split_last_dot_no_dot e Hdot).
    vm_compute. reflexivity.
Qed.

Lemma is_image_by_extension_run :
  DirectoryScanner.is_image "IMG_0001.JPG" = true.
Proof.
  assert (H1 : Path.has_sep "IMG_0001" = false) by (vm_compute; reflexivity).
  assert (H2 : Path.has_sep "JPG" = false) by (vm_compute; reflexivity).
  assert (H3 : FolderManager.contains_char "." "JPG" = false)
    by (vm_compute; reflexivity).
  exact (proj1 (is_image_by_extension "IMG_0001" "JPG") H1 H2 H3).
Defined.

(** ** No file is lost *)

Lemma no_loss_superset (p : string) (c0 : list byte) (disk disk' : FS) :
  disk !! p = Some (File c0) →
  (∀ k n, disk !! k = Some n → disk' !! k = Some n) →
  no_loss p c0 disk disk'.
Proof. intros Hp Hsub. split; [intros k n _; apply Hsub|]. left. by apply Hsub. Qed.

Lemma no_loss_refl (p : string) (c0 : list byte) (disk : FS) :
  disk !! p = Some (File c0) → no_loss p c0 disk disk.
Proof. intros Hp. by apply no_loss_superset. Qed.

Lemma rename_no_loss (disk disk' : FS) (p dst : string) (c0 : list byte) :
  OS.rename disk (File c0) p dst = Some disk' → disk !! dst = None →
  no_loss p c0 disk disk'.
Proof.
  unfold OS.rename. destruct (negb _); [done|]. destruct (OS.isdir disk dst); [done|].
  intros [= <-] Hfree. split.
  - intros k n Hk Hn. rewrite lookup_insert_ne by (intros ->; congruence).
    by rewrite lookup_delete_ne.
  - right. exists dst. split; [done|]. apply lookup_insert_eq.
Qed.

Lemma move_photo_no_loss (disk disk1 disk2 : FS) (p d np : string) (c0 : list byte) :
  disk !! p = Some (File c0) →
  (∀ k n, disk !! k = Some n → disk1 !! k = Some n) →
  FolderManager.move_photo disk1 p d = Some (disk2, np) →
  no_loss p c0 disk disk2.
Proof.
  intros Hp Hsub Hmv.
  destruct (move_photo_effect _ _ _ _ _ _ (Hsub _ _ Hp) Hmv)
    as (_ & Hfree & _ & Hnew & Hold & Hrest).
  split.
  - intros k n Hk Hn. rewrite Hrest; [by apply Hsub|done|].
    intros ->. by rewrite (Hsub _ _ Hn) in Hfree.
  - right. exists np. split; [|done].
    destruct (disk !! np) as [n|] eqn:Hk; [|done]. by rewrite (Hsub _ _ Hk) in Hfree.
Qed.

Section NoLoss.
Context `{E : Env}.

Lemma handle_duplicate_no_loss (w w' : Session) (p t : string) (o : option string)
    (c0 : list byte) :
  fs w !! p = Some (File c0) →
  _handle_duplicate w p t o = Some w' →
  no_loss p c0 (fs w) (fs w').
Proof.
  intros Hp. unfold _handle_duplicate.
  set (d := Path.join (root_dir w) "Duplicates").
  assert (Hmade : ∀ fs1,
    (if negb (OS.path_exists (fs w) d) then OS.makedirs (fs w) d else Some (fs w))
    = Some fs1 → ∀ k n, fs w !! k = Some n → fs1 !! k = Some n).
  { intros fs1. destruct (negb _).
    - intros Hmk k n Hk. eapply makedirs_keeps; eauto.
    - by intros [= <-]. }
  destruct (if negb (OS.path_exists (fs w) d) then _ else _) as [fs1|]; [|done].
  specialize (Hmade fs1 eq_refl).
  destruct (FolderManager.move_photo fs1 p d) as [[fs2 np]|] eqn:Hmv; intros [= <-].
  - simpl. eapply move_photo_no_loss; eauto.
  - simpl. by apply no_loss_superset.
Qed.

Lemma move_to_trash_no_loss (w : Session) (p : string) (c0 : list byte) :
  fs w !! p = Some (File c0) →
  OS.isfile (fs w) (trash_dir w) = false →
  no_loss p c0 (fs w) (fs (_move_to_trash w p)).
Proof.
  intros Hp Htrash. unfold _move_to_trash.
  destruct (OS.shutil_move (fs w) p (trash_dir w)) as [fs'|] eqn:Hmv;
    [|by apply no_loss_refl].
  simpl. unfold OS.shutil_move in Hmv. rewrite Hp in Hmv.
  destruct (OS.isdir (fs w) (trash_dir w)) eqn:Hdir.
  - case_bool_decide; [injection Hmv as <-; by apply no_loss_refl|].
    destruct (OS.path_exists _ _) eqn:Hex; [done|].
    eapply rename_no_loss; [exact Hmv|].
    unfold OS.path_exists in Hex.
    by destruct (fs w !! Path.join (trash_dir w) (Path.basename p)).
  - eapply rename_no_loss; [exact Hmv|].
    unfold OS.isdir in Hdir. unfold OS.isfile in Htrash.
    by destruct (fs w !! trash_dir w) as [[|]|].
Qed.

Lemma move_and_record_no_loss (w w0 : Session) (p d : string) (ok failed : list Event)
    (c0 : list byte) :
  fs w0 !! p = Some (File c0) →
  (∀ k n, fs w0 !! k = Some n → fs w !! k = Some n) →
  no_loss p c0 (fs w0) (fs (move_and_record w p d ok failed).1)
  ∧ (move_and_record w p d ok failed).2 ≠ duplicate.
Proof.
  intros Hp Hsub. unfold move_and_record, retry_after.
  destruct (FolderManager.move_photo _ _ _) as [[fs' np]|] eqn:Hmv; simpl.
  - split; [|done]. eapply move_photo_no_loss; eauto.
  - split; [|done]. by apply no_loss_superset.
Qed.

Lemma handle_choice_no_loss (i : Interaction) (w : Session) (choice : ascii)
    (p : string) (folders : list string) (c0 : list byte) :
  fs w !! p = Some (File c0) →
  choice ≠ "Z"%char →
  OS.isfile (fs w) (trash_dir w) = false →
  no_loss p c0 (fs w) (fs (_handle_choice i w choice p folders).1)
  ∧ ((_handle_choice i w choice p folders).2 = duplicate →
     (_handle_choice i w choice p folders).1 = w).
Proof.
  intros Hp Hz Htrash. unfold _handle_choice.
  pose proof (no_loss_refl p c0 (fs w) Hp) as Hrefl.
  destruct (isdigit choice).
  { destruct (_ && _); [|by split]. destruct (folders !! _); [|by split].
    destruct (move_and_record_no_loss w w p
                (Path.join (root_dir w) s)
                [Stdout ("Moved to: " +:+ s);
                 Log INFO ("MOVED: " +:+ Path.basename p +:+ " -> " +:+ s)]
                [Stdout "Error moving photo";
                 Log ERROR ("Error moving " +:+ p +:+ " to " +:+ s)] c0 Hp)
      as [H1 H2]; [done|].
    split; [exact H1|]. intros H. by destruct (H2 H). }
  destruct (bool_decide (choice = "N"%char)).
  { destruct (CliUi.prompt_new_folder_name i) as [name|]; [|by split].
    destruct (FolderManager.create_event_folder _ _ _) as [[fs1 dest]|] eqn:Hc;
      [|by split].
    destruct (move_and_record_no_loss (set_fs fs1 w) w p dest
                [Stdout ("Created folder '" +:+ name +:+ "' and moved photo.");
                 Log INFO ("CREATED FOLDER: " +:+ name);
                 Log INFO ("MOVED: " +:+ Path.basename p +:+ " -> " +:+ name)]
                [Stdout "Error";
                 Log ERROR ("Error creating folder '" +:+ name
                            +:+ "' or moving photo")] c0 Hp)
      as [H1 H2].
    { intros k n Hk. simpl. eapply create_event_folder_keeps; eauto. }
    split; [exact H1|]. intros H. by destruct (H2 H). }
  destruct (bool_decide (choice = "S"%char)); [by split|].
  destruct (bool_decide (choice = "U"%char)); [by split|].
  destruct (bool_decide (choice = "D"%char)).
  { destruct (CliUi.prompt_confirmation i); [|by split].
    split; [|done]. simpl. by apply move_to_trash_no_loss. }
  rewrite (bool_decide_false (choice = "Z"%char)) by done.
  destruct (bool_decide (choice = "Q"%char)); by split.
Qed.

Lemma present_no_loss (i : Interaction) (w : Session) (p : string) (c0 : list byte) :
  fs w !! p = Some (File c0) →
  upper (keypress i) ≠ "Z"%char →
  OS.isfile (fs w) (trash_dir w) = false →
  no_loss p c0 (fs w) (fs (present i w p).1).
Proof.
  intros Hp Hz Htrash. unfold present.
  pose proof (no_loss_refl p c0 (fs w) Hp) as Hrefl.
  destruct (negb (OS.path_exists (fs w) p)); [exact Hrefl|].
  destruct (negb (viewer_opens i)); [exact Hrefl|].
  unfold CliUi.get_keypress. case_bool_decide; [exact Hrefl|].
  destruct (handle_choice_no_loss i w (upper (keypress i)) p
              (FolderManager.list_event_folders (fs w) (root_dir w)) c0 Hp Hz Htrash)
    as [H1 H2].
  destruct (_handle_choice _ _ _ _ _) as [w1 r]. simpl in H1, H2.
  destruct r; try exact H1.
  - destruct (add_to_hash_db _ _ _) as [db out]. exact H1.
  - rewrite (H2 eq_refl).
    destruct (_handle_duplicate _ _ _ _) as [w2|] eqn:Hdup; [|exact Hrefl].
    simpl. eapply handle_duplicate_no_loss; eauto.
Qed.

(** In a turn on a photo that is a file, with any key but the undo key,
    and with the trash path not taken by a file: no entry of the file
    system is removed or overwritten, except that the photo itself may
    have gone, with its bytes, to a path that was free. *)
Theorem turn_loses_no_file (i : Interaction) (w : Session) (p : string)
    (c0 : list byte) :
  py_index (images w) (current_index w) = Some p →
  fs w !! p = Some (File c0) →
  upper (keypress i) ≠ "Z"%char →
  OS.isfile (fs w) (trash_dir w) = false →
  no_loss p c0 (fs w) (fs (iteration i w).1).
Proof.
  intros Hidx Hp Hz Htrash. unfold iteration. rewrite Hidx.
  destruct (negb (OS.path_exists (fs w) p)); [by apply no_loss_refl|].
  destruct (is_duplicate _ _ _ _) as [[[is_dup dup_type] original] out].
  destruct is_dup; [|by apply (present_no_loss i (emit out w))].
  cbn [auto_move_duplicates emit set_console].
  destruct (auto_move_duplicates w);
    [|by apply (present_no_loss i (emit _ (emit out w)))].
  destruct (_handle_duplicate _ _ _ _) as [w2|] eqn:Hdup;
    [|by apply (present_no_loss i (emit _ (emit out w)))].
  simpl.
  exact (handle_duplicate_no_loss (emit out w) w2 p (default "" dup_type) original c0
           Hp Hdup).
Qed.

End NoLoss.

Lemma turn_loses_no_file_run :
  no_loss "/r/a.jpg" Demo.jpeg (fs Demo.twins)
    (fs (iteration (Demo.answer "d" "") Demo.twins).1).
Proof.
  assert (H1 : py_index (images Demo.twins) (current_index Demo.twins)
               = Some "/r/a.jpg") by (vm_compute; reflexivity).
  assert (H2 : fs Demo.twins !! "/r/a.jpg" = Some (File Demo.jpeg))
    by (vm_compute; reflexivity).
  assert (H3 : upper (keypress (Demo.answer "d" "")) ≠ "Z"%char)
    by (vm_compute; discriminate).
  assert (H4 : OS.isfile (fs Demo.twins) (trash_dir Demo.twins) = false)
    by (vm_compute; reflexivity).
  exact (turn_loses_no_file (Demo.answer "d" "") Demo.twins "/r/a.jpg" Demo.jpeg
           H1 H2 H3 H4).
Defined.
